(** * ViT/models/modeling.py: Vision Transformer with pruning hooks

    A shallow embedding of the classes of [ViT/models/modeling.py] and the
    properties of its masking, stochastic-depth, block composition and
    checkpoint-import code.

    Conventions.
    - Tensor entries are real numbers ([R]); the scores handed to the softmax
      are extended by [-inf] ([score]).  The development is about exact
      arithmetic, rounding is not modelled.
    - Activations are nested lists ([B][T][H], [B][heads][T][T], ...).
      Parameters and checkpoint arrays are stored as numpy/torch store them:
      a shape and the row-major data ([ndarray]).
    - A Python call that can raise returns a [result]; in-place mutation is
      explicit state passing, and a raised exception leaves the mutations
      made so far in place.
    - Random draws (the stochastic-depth sample, dropout noise) are inputs. *)

From Stdlib Require Import Reals Lra Lia List String QArith Qround.
From stdpp Require Import gmap strings list pretty.
Import ListNotations.

(** ** Python exceptions and fallible calls *)

Inductive exn : Type :=
| TypeError
| ValueError
| RuntimeError
| IndexError
| ZeroDivisionError
| AttributeError (attr : string)
| KeyError (key : string).

Inductive result (A : Type) : Type :=
| Ok (a : A)
| Raise (e : exn).
Arguments Ok {A} a.
Arguments Raise {A} e.

Definition bind {A B} (m : result A) (k : A -> result B) : result B :=
  match m with
  | Ok a => k a
  | Raise e => Raise e
  end.

Notation "x <- m ;; k" := (bind m (fun x => k))
  (at level 100, m at next level, right associativity).

Fixpoint mapM {A B} (f : A -> result B) (l : list A) : result (list B) :=
  match l with
  | [] => Ok []
  | x :: l' => y <- f x ;; ys <- mapM f l' ;; Ok (y :: ys)
  end.

(** ** Activations: nested lists *)

Abbreviation vec := (list R).
Abbreviation mat := (list (list R)).
Abbreviation T3 A := (list (list (list A))).
Abbreviation T4 A := (list (list (list (list A)))).

(** rows and entries by index *)
Definition row3 {A} (t : T3 A) (h i : nat) : option (list A) :=
  match t !! h with
  | Some m => m !! i
  | None => None
  end.

Definition row4 {A} (t : T4 A) (b h i : nat) : option (list A) :=
  match t !! b with
  | Some x => row3 x h i
  | None => None
  end.

Definition get3 {A} (t : T3 A) (h i j : nat) : option A :=
  match row3 t h i with
  | Some r => r !! j
  | None => None
  end.

Definition get4 {A} (t : T4 A) (b h i j : nat) : option A :=
  match row4 t b h i with
  | Some r => r !! j
  | None => None
  end.

Definition map3 {A B} (f : A -> B) (t : T3 A) : T3 B := map (map (map f)) t.
Definition map4 {A B} (f : A -> B) (t : T4 A) : T4 B := map (map3 f) t.

Definition Rsum (l : list R) : R := fold_right Rplus 0%R l.
Definition dot (a b : vec) : R := Rsum (zip_with Rmult a b).

(** the elementwise sum of two vectors *)
Definition vadd (a b : vec) : vec := zip_with Rplus a b.

(** ** Broadcasting a mask against a tensor

    [broadcast f xs ms] pairs the slices of a tensor axis with the slices of
    the same axis of a mask for an operation that writes into the tensor: a
    mask axis of size one is stretched, equal sizes are paired, anything
    else is torch's size-mismatch [RuntimeError] (the tensor written to does
    not grow). *)

Definition broadcast {A B C} (f : A -> B -> result C)
    (xs : list A) (ms : list B) : result (list C) :=
  match ms with
  | [m] => mapM (fun x => f x m) xs
  | _ => if Nat.eqb (length ms) (length xs)
         then mapM (fun xm => f (fst xm) (snd xm)) (zip xs ms)
         else Raise RuntimeError
  end.

(** The same for an operation that builds a new tensor: an axis of size
    one is stretched on either side, so a tensor axis of size one against a
    longer mask axis gives a result of the mask's size. *)
Definition broadcast_both {A B C} (f : A -> B -> result C)
    (xs : list A) (ms : list B) : result (list C) :=
  match xs, ms with
  | [x], _ => mapM (fun m => f x m) ms
  | _, [m] => mapM (fun x => f x m) xs
  | _, _ => if Nat.eqb (length ms) (length xs)
            then mapM (fun xm => f (fst xm) (snd xm)) (zip xs ms)
            else Raise RuntimeError
  end.

Definition broadcast3 {A B C} (f : A -> B -> C) (x : T3 A) (m : T3 B)
    : result (T3 C) :=
  broadcast (broadcast (broadcast (fun a b => Ok (f a b)))) x m.

(** The mask has a leading axis of size one, which is stretched over the
    batch. *)
Definition broadcast4 {A B C} (f : A -> B -> C) (x : T4 A) (m : T3 B)
    : result (T4 C) :=
  mapM (fun xb => broadcast3 f xb m) x.

(** ** Scores and softmax *)

Inductive score : Type :=
| Fin (r : R)
| NegInf.

Definition exp_score (s : score) : R :=
  match s with
  | Fin r => exp r
  | NegInf => 0%R
  end.

(** [Softmax(dim=-1)] on one row.  A row whose entries are all [-inf] is NaN
    in torch; here its value is whatever division by zero gives in [R]. *)
Definition softmax_row (row : list score) : list R :=
  let z := Rsum (map exp_score row) in
  map (fun s => (exp_score s / z)%R) row.

Definition softmax (t : T4 score) : T4 R := map (map (map softmax_row)) t.

(** [~mask], [mask.float()], [t.masked_fill_(mask, -inf)]. *)
Definition invert (m : T3 bool) : T3 bool := map3 negb m.
Definition to_float (b : bool) : R := if b then 1%R else 0%R.
Definition float (m : T3 bool) : T3 R := map3 to_float m.

Definition fill (s : R) (b : bool) : score := if b then NegInf else Fin s.

Definition masked_fill_neg_inf (t : T4 R) (m : T3 bool) : result (T4 score) :=
  broadcast4 fill t m.

(** [m * t], a new tensor: every axis broadcasts either way, the leading
    axis of size one of the mask over the batch. *)
Definition mul_mask (m : T3 R) (t : T4 R) : result (T4 R) :=
  mapM (fun tb =>
          broadcast_both (broadcast_both (broadcast_both
            (fun p c => Ok (c * p)%R))) tb m) t.

(** the sum of the entries of a row at the positions where the mask is true *)
Definition masked_sum (mrow : list bool) (prow : list R) : R :=
  Rsum (zip_with (fun (m : bool) p => if m then p else 0%R) mrow prow).

(** ** Arrays: a shape and row-major data *)

Record ndarray : Type := mk_nd { shape : list nat; data : list R }.

Definition numel (s : list nat) : nat := fold_right Nat.mul 1 s.

(** every array built by numpy or torch holds as many entries as its shape
    says *)
Definition wf (a : ndarray) : Prop := length (data a) = numel (shape a).

Definition shape_eqb (s1 s2 : list nat) : bool :=
  if decide (s1 = s2) then true else false.

(** The first [k] consecutive pieces of width [n] of a list. *)
Fixpoint chunks {A} (n k : nat) (l : list A) : list (list A) :=
  match k with
  | 0 => []
  | S k' => take n l :: chunks n k' (drop n l)
  end.

(** [a.view(s)] and [a.reshape(s)] with every size given *)
Definition view (e : exn) (s : list nat) (a : ndarray) : result ndarray :=
  if Nat.eqb (numel s) (length (data a)) then Ok (mk_nd s (data a))
  else Raise e.

(** [a.view(-1)] *)
Definition flatten (a : ndarray) : ndarray := mk_nd [length (data a)] (data a).

(** [a.reshape(s, -1)]: the last size is inferred *)
Definition reshape_infer (e : exn) (s : list nat) (a : ndarray) : result ndarray :=
  let k := numel s in
  if Nat.eqb k 0 then Raise e
  else if Nat.eqb (length (data a) mod k) 0
       then Ok (mk_nd (s ++ [length (data a) / k]) (data a))
       else Raise e.

(** [a.t()]: the transpose of a matrix; a vector is returned as it is *)
Definition tensor_t (a : ndarray) : result ndarray :=
  match shape a with
  | [] | [_] => Ok a
  | [r; c] =>
      Ok (mk_nd [c; r]
            (flat_map (fun j => map (fun i => nth (i * c + j) (data a) 0%R) (seq 0 r))
                      (seq 0 c)))
  | _ => Raise RuntimeError
  end.

(** [a.transpose([3, 2, 0, 1])]: HWIO to OIHW *)
Definition transpose_3201 (a : ndarray) : result ndarray :=
  match shape a with
  | [h; w; i; o] =>
      Ok (mk_nd [o; i; h; w]
            (flat_map (fun co =>
               flat_map (fun ci =>
                 flat_map (fun y =>
                   map (fun x => nth (((y * w + x) * i + ci) * o + co) (data a) 0%R)
                       (seq 0 w))
                   (seq 0 h))
                 (seq 0 i))
               (seq 0 o)))
  | _ => Raise ValueError
  end.

(** [np2th(weights, conv)] *)
Definition np2th (weights : ndarray) (conv : bool) : result ndarray :=
  if conv then transpose_3201 weights else Ok weights.

Fixpoint mapO {A B} (f : A -> option B) (l : list A) : option (list B) :=
  match l with
  | [] => Some []
  | x :: l' =>
      match f x, mapO f l' with
      | Some y, Some ys => Some (y :: ys)
      | _, _ => None
      end
  end.

(** Stretching data of shape [ss] to shape [ds] of the same rank: along each
    axis the sizes agree or the source has size one. *)
Fixpoint expand (ss ds : list nat) (d : list R) : option (list R) :=
  match ss, ds with
  | [], [] => Some d
  | s :: ss', n :: ds' =>
      if Nat.eqb s n then
        option_map (@concat R) (mapO (expand ss' ds') (chunks (numel ss') s d))
      else if Nat.eqb s 1 then
        option_map (fun e => concat (replicate n e)) (expand ss' ds' d)
      else None
  | _, _ => None
  end.

(** [dst.copy_(src)]: in place; the source is broadcast to the destination's
    shape, which never changes. *)
Definition copy_ (dst src : ndarray) : result ndarray :=
  let r := length (shape dst) - length (shape src) in
  if Nat.ltb (length (shape dst)) (length (shape src)) then Raise RuntimeError
  else match expand (replicate r 1 ++ shape src) (shape dst) (data src) with
       | Some d => Ok (mk_nd (shape dst) d)
       | None => Raise RuntimeError
       end.

(** [nn.init.zeros_(a)] *)
Definition zeros_ (a : ndarray) : ndarray :=
  mk_nd (shape a) (replicate (length (data a)) 0%R).

(** ** Matrices of activations *)

Definition mat_transpose (cols : nat) (m : mat) : mat :=
  map (fun c => map (fun r => nth c r 0%R) m) (seq 0 cols).

(** [matmul a b] for [a : n x k] and [b : k x cols]. *)
Definition matmul (cols : nat) (a b : mat) : mat :=
  map (fun ai => map (fun c => dot ai (map (fun bj => nth c bj 0%R) b)) (seq 0 cols)) a.

(** [torch.matmul] of a [B, H, n, k] by a [B, H', k', cols] tensor: the
    batch and head axes broadcast, and [k <> k'] is a [RuntimeError]. *)
Definition matmul_checked (cols : nat) (a b : mat) : result mat :=
  if forallb (fun ai => Nat.eqb (length ai) (length b)) a
  then Ok (matmul cols a b)
  else Raise RuntimeError.

Definition matmul4 (cols : nat) (p v : T4 R) : result (T4 R) :=
  broadcast_both (broadcast_both (matmul_checked cols)) p v.

(** ** torch.nn.Linear *)

Module Linear.
Record t : Type := mk { weight : ndarray; bias : ndarray }.

(** [Linear(in_features, out_features)]: weight [out, in], bias [out]; the
    initial values are whatever the initialiser drew. *)
Definition init (in_features out_features : nat) (w b : list R) : t :=
  {| weight := mk_nd [out_features; in_features] w;
     bias := mk_nd [out_features] b |}.

Definition forward1 (l : t) (x : vec) : result vec :=
  match shape (weight l) with
  | [o; i] =>
      if Nat.eqb (length x) i
      then Ok (zip_with (fun w b => (dot x w + b)%R)
                 (chunks i o (data (weight l))) (data (bias l)))
      else Raise RuntimeError
  | _ => Raise RuntimeError
  end.

(** applied along the last axis of a [B, T, in] tensor *)
Definition forward (l : t) (x : T3 R) : result (T3 R) :=
  mapM (mapM (forward1 l)) x.

Definition set_weight (l : t) (w : ndarray) : t := mk w (bias l).
Definition set_bias (l : t) (b : ndarray) : t := mk (weight l) b.
End Linear.

(** The four projections reached as [query], [key], [value], [out], and the
    two dense layers reached as [fc1], [fc2]. *)
Record Projections : Type := mk_Projections {
  proj_query : Linear.t;
  proj_key : Linear.t;
  proj_value : Linear.t;
  proj_out : Linear.t
}.

Record Dense2 : Type := mk_Dense2 { dense_fc1 : Linear.t; dense_fc2 : Linear.t }.

Abbreviation weights_t := (gmap string ndarray).

(** ** What the tensor runtime and the absent modules provide

    [Dropout], [LayerNorm], [gelu], [Conv2d], [CrossEntropyLoss] and
    [scipy.ndimage.zoom] are library code; their arithmetic plays no part in
    the properties below and is taken as given.  A dropout layer is the
    function it computes for the noise drawn in the call (the identity in
    inference mode).

    [AttentionActPrune], [MlpActPrune] ([modeling_new_prune]),
    [LayerNormSparse] ([custom_functions]) and [ResNetV2] ([modeling_resnet])
    are modules of the repository that are not part of this file. *)

Class Runtime : Type := {
  Dropout3 : R -> T3 R -> T3 R;
  Dropout4 : R -> T4 R -> T4 R;
  LayerNorm_forward : ndarray -> ndarray -> T3 R -> T3 R;
  gelu : R -> R;
  (** [Conv2d(kernel = stride = patch)] followed by [flatten(2)] and
      [transpose(-1, -2)]: an image batch to [B, n_patches, hidden] *)
  patch_tokens : ndarray -> ndarray -> T4 R -> result (T3 R);
  CrossEntropyLoss : mat -> list Z -> result R;
  (** [ndimage.zoom(a, zoom, order=1)]; the output has the rounded sizes
      [int(round(n * z))] *)
  ndimage_zoom : ndarray -> list Q -> ndarray;
  (** the activation tracker an external controller may attach to an
      attention module, and its [update] *)
  Stats : Type;
  Stats_update : Stats -> T4 R -> Stats;
  (** Modelled from the spec: the pruned attention of [modeling_new_prune],
      a map from tokens to tokens of the same shape (design notes: every
      variant has the interface [forward(tokens) -> tokens]); [module] is the
      object its attribute of that name holds, if the class has one. *)
  AttentionActPrune : Type;
  AttentionActPrune_forward : AttentionActPrune -> T3 R -> T3 R;
  AttentionActPrune_module : AttentionActPrune -> option Projections;
  AttentionActPrune_set_module : AttentionActPrune -> Projections -> AttentionActPrune;
  (** Modelled from the spec: the pruned MLP of [modeling_new_prune], with
      the interface [forward(tokens) -> tokens]; its attributes [fc1], [fc2]
      and [module], where the class has them. *)
  MlpActPrune : Type;
  MlpActPrune_forward : MlpActPrune -> T3 R -> T3 R;
  MlpActPrune_fc : MlpActPrune -> option Dense2;
  MlpActPrune_set_fc : MlpActPrune -> Dense2 -> MlpActPrune;
  MlpActPrune_module : MlpActPrune -> option Dense2;
  MlpActPrune_set_module : MlpActPrune -> Dense2 -> MlpActPrune;
  (** Modelled from the spec: the sparsified normalisation of
      [custom_functions], tokens to tokens, with a scale and a bias *)
  LayerNormSparse_forward : ndarray -> ndarray -> T3 R -> T3 R;
  (** Modelled from the spec: the hybrid backbone of [modeling_resnet] (out
      of the spec's scope), and the part of the checkpoint import that
      fills it *)
  ResNetV2 : Type;
  ResNetV2_forward : ResNetV2 -> T4 R -> T4 R;
  ResNetV2_load_from : ResNetV2 -> weights_t -> result unit * ResNetV2
}.

(** ** class Attention *)

Module Attention.
Section WithRuntime.
Context {rt : Runtime}.

Record t : Type := mk {
  vis : bool;
  prune_mode : bool;
  prune_after_softmax : bool;
  num_attention_heads : nat;
  attention_head_size : nat;
  all_head_size : nat;
  query : Linear.t;
  key : Linear.t;
  value : Linear.t;
  out : Linear.t;
  attention_dropout_rate : R;
  n_tokens : nat;
  (** set by [__init__] only when [prune_mode]; shape [1, heads, n, n],
      stored without the unit axis *)
  attention_mask : option (T3 bool);
  record_attn_mean_var : option Stats;
  attention_probs : option (T4 R);
  record_attention_probs : bool
}.

(** [torch.ones(1, heads, n, n).bool()] *)
Definition ones_mask (heads n : nat) : T3 bool :=
  replicate heads (replicate n (replicate n true)).

(** [__init__]; [wq bq ... wo bo] are the values the initialiser draws for
    the four projections. *)
Definition init (hidden_size num_heads : nat) (rate : R)
    (vis prune_mode prune_after_softmax : bool) (n_tokens : nat)
    (wq bq wk bk wv bv wo bo : list R) : result t :=
  if Nat.eqb num_heads 0 then Raise ZeroDivisionError else
  let hs := hidden_size / num_heads in
  let ahs := num_heads * hs in
  Ok {| vis := vis;
        prune_mode := prune_mode;
        prune_after_softmax := prune_after_softmax;
        num_attention_heads := num_heads;
        attention_head_size := hs;
        all_head_size := ahs;
        query := Linear.init hidden_size ahs wq bq;
        key := Linear.init hidden_size ahs wk bk;
        value := Linear.init hidden_size ahs wv bv;
        out := Linear.init hidden_size hidden_size wo bo;
        attention_dropout_rate := rate;
        n_tokens := n_tokens;
        attention_mask :=
          if prune_mode then Some (ones_mask num_heads n_tokens) else None;
        record_attn_mean_var := None;
        attention_probs := None;
        record_attention_probs := false |}.

(** [x.view(B, T, heads, head_size).permute(0, 2, 1, 3)] *)
Definition transpose_for_scores (a : t) (x : T3 R) : T4 R :=
  map (fun xb =>
         map (fun h => map (fun row => take (attention_head_size a)
                                         (drop (h * attention_head_size a) row)) xb)
             (seq 0 (num_attention_heads a))) x.

(** [matmul(q, k.transpose(-1, -2)) / sqrt(head_size)] *)
Definition scores (a : t) (q k : T4 R) : T4 R :=
  zip_with (zip_with (fun qh kh =>
    map (map (fun s => (s / sqrt (INR (attention_head_size a)))%R))
        (matmul (length kh) qh (mat_transpose (attention_head_size a) kh)))) q k.

(** The probability tensor: the [if self.prune_mode: ... else: ...] of
    [forward].  The source's two consecutive tests of
    [prune_after_softmax] are the two arms of the inner conditional. *)
Definition probabilities (a : t) (attention_scores : T4 R) : result (T4 R) :=
  if prune_mode a then
    mask <- match attention_mask a with
            | Some m => Ok m
            | None => Raise (AttributeError "attention_mask")
            end ;;
    if negb (prune_after_softmax a) then
      filled <- masked_fill_neg_inf attention_scores (invert mask) ;;
      Ok (softmax filled)
    else
      let attention_probs_ := softmax (map4 Fin attention_scores) in
      mul_mask (float (invert mask)) attention_probs_
  else Ok (softmax (map4 Fin attention_scores)).

Definition set_attention_probs (a : t) (p : option (T4 R)) : t :=
  mk (vis a) (prune_mode a) (prune_after_softmax a) (num_attention_heads a)
     (attention_head_size a) (all_head_size a) (query a) (key a) (value a)
     (out a) (attention_dropout_rate a) (n_tokens a) (attention_mask a)
     (record_attn_mean_var a) p (record_attention_probs a).

Definition set_record_attn_mean_var (a : t) (s : option Stats) : t :=
  mk (vis a) (prune_mode a) (prune_after_softmax a) (num_attention_heads a)
     (attention_head_size a) (all_head_size a) (query a) (key a) (value a)
     (out a) (attention_dropout_rate a) (n_tokens a) (attention_mask a)
     s (attention_probs a) (record_attention_probs a).

Definition set_attention_mask (a : t) (m : option (T3 bool)) : t :=
  mk (vis a) (prune_mode a) (prune_after_softmax a) (num_attention_heads a)
     (attention_head_size a) (all_head_size a) (query a) (key a) (value a)
     (out a) (attention_dropout_rate a) (n_tokens a) m
     (record_attn_mean_var a) (attention_probs a) (record_attention_probs a).

(** lines 109-118: the three projections and the scaled scores *)
Definition project (a : t) (hidden_states : T3 R)
    : result (T4 R * T4 R) :=
  mixed_query_layer <- Linear.forward (query a) hidden_states ;;
  mixed_key_layer <- Linear.forward (key a) hidden_states ;;
  mixed_value_layer <- Linear.forward (value a) hidden_states ;;
  let query_layer := transpose_for_scores a mixed_query_layer in
  let key_layer := transpose_for_scores a mixed_key_layer in
  let value_layer := transpose_for_scores a mixed_value_layer in
  Ok (scores a query_layer key_layer, value_layer).

(** the recording side effects, lines 132-135 *)
Definition record (a : t) (p : T4 R) : t :=
  let a1 := if record_attention_probs a then set_attention_probs a (Some p) else a in
  if prune_mode a1 then
    match record_attn_mean_var a1 with
    | Some st => set_record_attn_mean_var a1 (Some (Stats_update st p))
    | None => a1
    end
  else a1.

(** [context.permute(0, 2, 1, 3).view(B, T, all_head_size)] *)
Definition merge_heads (hidden_states : T3 R) (context : T4 R) : T3 R :=
  zip_with (fun xb cb =>
              map (fun i => concat (map (fun ch => nth i ch []) cb))
                  (seq 0 (length xb)))
           hidden_states context.

(** lines 137-146, from the probability tensor on.  The merged tensor has
    the token axis of the context, which is the one of the probabilities. *)
Definition output (a : t) (value_layer p : T4 R)
    : result (T3 R * option (T4 R)) :=
  let weights := if vis a then Some p else None in
  let p' := Dropout4 (attention_dropout_rate a) p in
  context_layer <- matmul4 (attention_head_size a) p' value_layer ;;
  let tokens := map (fun cb => hd [] cb) context_layer in
  attention_output <- Linear.forward (out a) (merge_heads tokens context_layer) ;;
  Ok (Dropout3 (attention_dropout_rate a) attention_output, weights).

(** [forward]: the returned pair [(attention_output, weights)] or the
    exception, and the module after the call.  The recording of lines
    132-135 comes before the [matmul], so it is kept when that raises. *)
Definition forward (a : t) (hidden_states : T3 R)
    : result (T3 R * option (T4 R)) * t :=
  match project a hidden_states with
  | Raise e => (Raise e, a)
  | Ok (attention_scores, value_layer) =>
      match probabilities a attention_scores with
      | Raise e => (Raise e, a)
      | Ok p => (output a value_layer p, record a p)
      end
  end.

(** the probability tensor [forward] computes on [hidden_states] *)
Definition forward_probs (a : t) (hidden_states : T3 R) : result (T4 R) :=
  sv <- project a hidden_states ;; probabilities a (fst sv).
End WithRuntime.
End Attention.

(** ** Values a sub-module call hands back

    [Attention.forward] returns the pair [(attention_output, weights)];
    every other sub-module of a block returns a tensor. *)

Inductive pyval : Type :=
| PTensor (x : T3 R)
| PTuple (x : T3 R) (w : option (T4 R)).

Definition tadd (x h : T3 R) : T3 R := zip_with (zip_with (zip_with Rplus)) x h.
Definition tscale (x : T3 R) (c : R) : T3 R := map3 (fun v => (v * c)%R) x.

(** [x + h] and [x * c] for a tensor [h] and a float [c]: a tuple on the left
    is a [TypeError]. *)
Definition py_add (x : pyval) (h : T3 R) : result (T3 R) :=
  match x with
  | PTensor x => Ok (tadd x h)
  | PTuple _ _ => Raise TypeError
  end.

Definition py_mul (x : pyval) (c : R) : result pyval :=
  match x with
  | PTensor x => Ok (PTensor (tscale x c))
  | PTuple _ _ => Raise TypeError
  end.

(** ** class StochasticDepth *)

Module StochasticDepth.
Record t (M : Type) : Type := mk { module : M; p : R; training : bool }.
Arguments mk {M}.
Arguments module {M}.
Arguments p {M}.
Arguments training {M}.

(** [__init__]: [if not 0 < p < 1: raise ValueError] *)
Definition init {M} (module : M) (p : R) : result (t M) :=
  if Rlt_dec 0 p then
    if Rlt_dec p 1 then Ok (mk module p true) else Raise ValueError
  else Raise ValueError.

(** [train()] / [eval()] *)
Definition set_training {M} (sd : t M) (mode : bool) : t M :=
  mk (module sd) (p sd) mode.

(** [forward]; [call] is the wrapped module's [__call__] and [u] the value
    [self._sampler.uniform_()] draws. *)
Definition forward {M} (call : M -> T3 R -> result pyval)
    (sd : t M) (u : R) (inputs : T3 R) : result pyval :=
  if training sd then
    if Rlt_dec u (p sd) then Ok (PTensor inputs)
    else outputs <- call (module sd) inputs ;; py_mul outputs (1 - p sd)%R
  else call (module sd) inputs.
End StochasticDepth.

(** ** LayerNorm and its sparsified variant *)

Module LayerNorm.
Record t : Type := mk { weight : ndarray; bias : ndarray }.
Definition forward {rt : Runtime} (n : t) (x : T3 R) : T3 R :=
  LayerNorm_forward (weight n) (bias n) x.
End LayerNorm.

Module LayerNormSparse.
(** Modelled from the spec: [LayerNormSparse] of [custom_functions], a
    normalisation with a scale and a bias vector. *)
Record t : Type := mk { weight : ndarray; bias : ndarray }.
Definition forward {rt : Runtime} (n : t) (x : T3 R) : T3 R :=
  LayerNormSparse_forward (weight n) (bias n) x.
End LayerNormSparse.

(** ** class Mlp *)

Module Mlp.
Record t : Type := mk { fc1 : Linear.t; fc2 : Linear.t; dropout_rate : R }.

Definition forward {rt : Runtime} (m : t) (x : T3 R) : result (T3 R) :=
  x <- Linear.forward (fc1 m) x ;;
  let x := map3 gelu x in
  let x := Dropout3 (dropout_rate m) x in
  x <- Linear.forward (fc2 m) x ;;
  Ok (Dropout3 (dropout_rate m) x).
End Mlp.

(** ** Mutation with exceptions

    A method that mutates [S] and may raise: the state after the call is
    returned in both cases. *)

Definition SE (S A : Type) : Type := S -> result A * S.

Definition ret {S A} (a : A) : SE S A := fun s => (Ok a, s).

Definition bindS {S A B} (m : SE S A) (k : A -> SE S B) : SE S B :=
  fun s => match m s with
           | (Ok a, s') => k a s'
           | (Raise e, s') => (Raise e, s')
           end.

Notation "x <~ m ;; k" := (bindS m (fun x => k))
  (at level 100, m at next level, right associativity).
Notation "m ;;; k" := (bindS m (fun _ => k))
  (at level 100, right associativity).

(** a computation that does not touch the state *)
Definition lift {S A} (r : result A) : SE S A := fun s => (r, s).

(** an in-place update that may raise, leaving the state as it was *)
Definition update {S} (f : S -> result S) : SE S unit :=
  fun s => match f s with
           | Ok s' => (Ok tt, s')
           | Raise e => (Raise e, s)
           end.

(** ** Checkpoints *)

Definition ATTENTION_Q : string := "MultiHeadDotProductAttention_1/query".
Definition ATTENTION_K : string := "MultiHeadDotProductAttention_1/key".
Definition ATTENTION_V : string := "MultiHeadDotProductAttention_1/value".
Definition ATTENTION_OUT : string := "MultiHeadDotProductAttention_1/out".
Definition FC_0 : string := "MlpBlock_3/Dense_0".
Definition FC_1 : string := "MlpBlock_3/Dense_1".
Definition ATTENTION_NORM : string := "LayerNorm_0".
Definition MLP_NORM : string := "LayerNorm_2".

(** [os.path.join] of three relative components *)
Definition pjoin (a b c : string) : string :=
  (a ++ "/" ++ b ++ "/" ++ c)%string.

(** [weights[k]] *)
Definition getitem (weights : weights_t) (k : string) : result ndarray :=
  match weights !! k with
  | Some a => Ok a
  | None => Raise (KeyError k)
  end.

(** ** class Block *)

Module Block.
Section WithRuntime.
Context {rt : Runtime}.

Inductive norm_module : Type :=
| PlainNorm (n : LayerNorm.t)
| SparseNorm (n : LayerNormSparse.t).

Inductive attn_module : Type :=
| PlainAttention (a : Attention.t)
| PrunedAttention (a : AttentionActPrune).

Inductive ffn_module : Type :=
| PlainMlp (m : Mlp.t)
| PrunedMlp (m : MlpActPrune)
| DroppedMlp (sd : StochasticDepth.t MlpActPrune).

Record t : Type := mk {
  hidden_size : nat;
  new_backrazor : bool;
  layer_drop : bool;
  attention_norm : norm_module;
  ffn_norm : norm_module;
  ffn : ffn_module;
  attn : attn_module
}.

(** [__init__]; the arguments after [drop_prob] are the freshly built
    sub-modules, of which the flags select the ones the block keeps. *)
Definition init (hidden_size : nat) (new_backrazor layer_drop : bool)
    (drop_prob : R)
    (norm1 norm2 : LayerNorm.t) (snorm1 snorm2 : LayerNormSparse.t)
    (mlp : Mlp.t) (pruned_mlp : MlpActPrune)
    (attention : Attention.t) (pruned_attention : AttentionActPrune)
    : result t :=
  ffn <- (if new_backrazor && layer_drop then
            sd <- StochasticDepth.init pruned_mlp drop_prob ;; Ok (DroppedMlp sd)
          else if new_backrazor then Ok (PrunedMlp pruned_mlp)
          else Ok (PlainMlp mlp)) ;;
  Ok {| hidden_size := hidden_size;
        new_backrazor := new_backrazor;
        layer_drop := layer_drop;
        attention_norm := if new_backrazor then SparseNorm snorm1 else PlainNorm norm1;
        ffn_norm := if new_backrazor then SparseNorm snorm2 else PlainNorm norm2;
        ffn := ffn;
        attn := if new_backrazor then PrunedAttention pruned_attention
                else PlainAttention attention |}.

Definition call_norm (n : norm_module) (x : T3 R) : T3 R :=
  match n with
  | PlainNorm n => LayerNorm.forward n x
  | SparseNorm n => LayerNormSparse.forward n x
  end.

(** [self.attn(x)]: what the call evaluates to.  The recording fields an
    [Attention] updates are read by no forward computation and are not
    threaded through the block. *)
Definition call_attn (m : attn_module) (x : T3 R) : result pyval :=
  match m with
  | PlainAttention a =>
      r <- fst (Attention.forward a x) ;; Ok (PTuple (fst r) (snd r))
  | PrunedAttention a => Ok (PTensor (AttentionActPrune_forward a x))
  end.

Definition call_pruned_mlp (m : MlpActPrune) (x : T3 R) : result pyval :=
  Ok (PTensor (MlpActPrune_forward m x)).

(** [self.ffn(x)]; [u] is the stochastic-depth draw of this call *)
Definition call_ffn (m : ffn_module) (u : R) (x : T3 R) : result pyval :=
  match m with
  | PlainMlp m => y <- Mlp.forward m x ;; Ok (PTensor y)
  | PrunedMlp m => call_pruned_mlp m x
  | DroppedMlp sd => StochasticDepth.forward call_pruned_mlp sd u x
  end.

Definition forward (blk : t) (u : R) (x : T3 R) : result (T3 R) :=
  let h := x in
  let x := call_norm (attention_norm blk) x in
  x <- call_attn (attn blk) x ;;
  x <- py_add x h ;;
  let h := x in
  let x := call_norm (ffn_norm blk) x in
  x <- call_ffn (ffn blk) u x ;;
  x <- py_add x h ;;
  Ok x.

(** *** load_from *)

Definition set_attn (blk : t) (a : attn_module) : t :=
  mk (hidden_size blk) (new_backrazor blk) (layer_drop blk)
     (attention_norm blk) (ffn_norm blk) (ffn blk) a.
Definition set_ffn (blk : t) (f : ffn_module) : t :=
  mk (hidden_size blk) (new_backrazor blk) (layer_drop blk)
     (attention_norm blk) (ffn_norm blk) f (attn blk).
Definition set_attention_norm (blk : t) (n : norm_module) : t :=
  mk (hidden_size blk) (new_backrazor blk) (layer_drop blk)
     n (ffn_norm blk) (ffn blk) (attn blk).
Definition set_ffn_norm (blk : t) (n : norm_module) : t :=
  mk (hidden_size blk) (new_backrazor blk) (layer_drop blk)
     (attention_norm blk) n (ffn blk) (attn blk).

(** [self.attn.module.<projection>...copy_(...)]: [Attention] has no
    attribute [module] ([nn.Module.__getattr__] raises). *)
Definition on_attn_module (f : Projections -> result Projections)
    : SE t unit :=
  update (fun blk =>
    match attn blk with
    | PlainAttention _ => Raise (AttributeError "module")
    | PrunedAttention a =>
        match AttentionActPrune_module a with
        | None => Raise (AttributeError "module")
        | Some pj =>
            pj' <- f pj ;;
            Ok (set_attn blk (PrunedAttention (AttentionActPrune_set_module a pj')))
        end
    end).

(** [self.ffn.module.<fc>...copy_(...)]: [Mlp] has no attribute [module];
    a [StochasticDepth] has, and it holds the wrapped [MlpActPrune]. *)
Definition on_ffn_module (fc : string) (f : Dense2 -> result Dense2)
    : SE t unit :=
  update (fun blk =>
    match ffn blk with
    | PlainMlp _ => Raise (AttributeError "module")
    | PrunedMlp m =>
        match MlpActPrune_module m with
        | None => Raise (AttributeError "module")
        | Some d =>
            d' <- f d ;;
            Ok (set_ffn blk (PrunedMlp (MlpActPrune_set_module m d')))
        end
    | DroppedMlp sd =>
        match MlpActPrune_fc (StochasticDepth.module sd) with
        | None => Raise (AttributeError fc)
        | Some d =>
            d' <- f d ;;
            Ok (set_ffn blk
                  (DroppedMlp (StochasticDepth.mk
                     (MlpActPrune_set_fc (StochasticDepth.module sd) d')
                     (StochasticDepth.p sd) (StochasticDepth.training sd))))
        end
    end).

Definition norm_weight (n : norm_module) : ndarray :=
  match n with
  | PlainNorm n => LayerNorm.weight n
  | SparseNorm n => LayerNormSparse.weight n
  end.
Definition norm_bias (n : norm_module) : ndarray :=
  match n with
  | PlainNorm n => LayerNorm.bias n
  | SparseNorm n => LayerNormSparse.bias n
  end.
Definition norm_set_weight (n : norm_module) (w : ndarray) : norm_module :=
  match n with
  | PlainNorm n => PlainNorm (LayerNorm.mk w (LayerNorm.bias n))
  | SparseNorm n => SparseNorm (LayerNormSparse.mk w (LayerNormSparse.bias n))
  end.
Definition norm_set_bias (n : norm_module) (b : ndarray) : norm_module :=
  match n with
  | PlainNorm n => PlainNorm (LayerNorm.mk (LayerNorm.weight n) b)
  | SparseNorm n => SparseNorm (LayerNormSparse.mk (LayerNormSparse.weight n) b)
  end.

(** [l.weight.copy_(w)] and [l.bias.copy_(b)] on a linear layer *)
Definition copy_weight (l : Linear.t) (w : ndarray) : result Linear.t :=
  w' <- copy_ (Linear.weight l) w ;; Ok (Linear.set_weight l w').
Definition copy_bias (l : Linear.t) (b : ndarray) : result Linear.t :=
  b' <- copy_ (Linear.bias l) b ;; Ok (Linear.set_bias l b').

(** [np2th(weights[pjoin(ROOT, name, "kernel")]).view(h, h).t()] *)
Definition attention_kernel (blk : t) (weights : weights_t) (ROOT name : string)
    : result ndarray :=
  w <- getitem weights (pjoin ROOT name "kernel") ;;
  w <- np2th w false ;;
  w <- view RuntimeError [hidden_size blk; hidden_size blk] w ;;
  tensor_t w.

(** [np2th(weights[pjoin(ROOT, name, "bias")]).view(-1)] *)
Definition attention_bias (weights : weights_t) (ROOT name : string)
    : result ndarray :=
  b <- getitem weights (pjoin ROOT name "bias") ;;
  b <- np2th b false ;;
  Ok (flatten b).

(** [np2th(weights[pjoin(ROOT, name, leaf)]).t()] *)
Definition mlp_array (weights : weights_t) (ROOT name leaf : string)
    : result ndarray :=
  w <- getitem weights (pjoin ROOT name leaf) ;;
  w <- np2th w false ;;
  tensor_t w.

(** [np2th(weights[pjoin(ROOT, name, leaf)])] *)
Definition norm_array (weights : weights_t) (ROOT name leaf : string)
    : result ndarray :=
  w <- getitem weights (pjoin ROOT name leaf) ;; np2th w false.

Definition load_from (weights : weights_t) (n_block : string) : SE t unit :=
  fun self =>
  let ROOT := ("Transformer/encoderblock_" ++ n_block)%string in
  (query_weight <~ lift (attention_kernel self weights ROOT ATTENTION_Q) ;;
   key_weight <~ lift (attention_kernel self weights ROOT ATTENTION_K) ;;
   value_weight <~ lift (attention_kernel self weights ROOT ATTENTION_V) ;;
   out_weight <~ lift (attention_kernel self weights ROOT ATTENTION_OUT) ;;
   query_bias <~ lift (attention_bias weights ROOT ATTENTION_Q) ;;
   key_bias <~ lift (attention_bias weights ROOT ATTENTION_K) ;;
   value_bias <~ lift (attention_bias weights ROOT ATTENTION_V) ;;
   out_bias <~ lift (attention_bias weights ROOT ATTENTION_OUT) ;;
   on_attn_module (fun m => l <- copy_weight (proj_query m) query_weight ;;
      Ok (mk_Projections l (proj_key m) (proj_value m) (proj_out m))) ;;;
   on_attn_module (fun m => l <- copy_weight (proj_key m) key_weight ;;
      Ok (mk_Projections (proj_query m) l (proj_value m) (proj_out m))) ;;;
   on_attn_module (fun m => l <- copy_weight (proj_value m) value_weight ;;
      Ok (mk_Projections (proj_query m) (proj_key m) l (proj_out m))) ;;;
   on_attn_module (fun m => l <- copy_weight (proj_out m) out_weight ;;
      Ok (mk_Projections (proj_query m) (proj_key m) (proj_value m) l)) ;;;
   on_attn_module (fun m => l <- copy_bias (proj_query m) query_bias ;;
      Ok (mk_Projections l (proj_key m) (proj_value m) (proj_out m))) ;;;
   on_attn_module (fun m => l <- copy_bias (proj_key m) key_bias ;;
      Ok (mk_Projections (proj_query m) l (proj_value m) (proj_out m))) ;;;
   on_attn_module (fun m => l <- copy_bias (proj_value m) value_bias ;;
      Ok (mk_Projections (proj_query m) (proj_key m) l (proj_out m))) ;;;
   on_attn_module (fun m => l <- copy_bias (proj_out m) out_bias ;;
      Ok (mk_Projections (proj_query m) (proj_key m) (proj_value m) l)) ;;;
   mlp_weight_0 <~ lift (mlp_array weights ROOT FC_0 "kernel") ;;
   mlp_weight_1 <~ lift (mlp_array weights ROOT FC_1 "kernel") ;;
   mlp_bias_0 <~ lift (mlp_array weights ROOT FC_0 "bias") ;;
   mlp_bias_1 <~ lift (mlp_array weights ROOT FC_1 "bias") ;;
   on_ffn_module "fc1" (fun d => l <- copy_weight (dense_fc1 d) mlp_weight_0 ;;
      Ok (mk_Dense2 l (dense_fc2 d))) ;;;
   on_ffn_module "fc2" (fun d => l <- copy_weight (dense_fc2 d) mlp_weight_1 ;;
      Ok (mk_Dense2 (dense_fc1 d) l)) ;;;
   on_ffn_module "fc1" (fun d => l <- copy_bias (dense_fc1 d) mlp_bias_0 ;;
      Ok (mk_Dense2 l (dense_fc2 d))) ;;;
   on_ffn_module "fc2" (fun d => l <- copy_bias (dense_fc2 d) mlp_bias_1 ;;
      Ok (mk_Dense2 (dense_fc1 d) l)) ;;;
   update (fun blk =>
      src <- norm_array weights ROOT ATTENTION_NORM "scale" ;;
      w <- copy_ (norm_weight (attention_norm blk)) src ;;
      Ok (set_attention_norm blk (norm_set_weight (attention_norm blk) w))) ;;;
   update (fun blk =>
      src <- norm_array weights ROOT ATTENTION_NORM "bias" ;;
      b <- copy_ (norm_bias (attention_norm blk)) src ;;
      Ok (set_attention_norm blk (norm_set_bias (attention_norm blk) b))) ;;;
   update (fun blk =>
      src <- norm_array weights ROOT MLP_NORM "scale" ;;
      w <- copy_ (norm_weight (ffn_norm blk)) src ;;
      Ok (set_ffn_norm blk (norm_set_weight (ffn_norm blk) w))) ;;;
   update (fun blk =>
      src <- norm_array weights ROOT MLP_NORM "bias" ;;
      b <- copy_ (norm_bias (ffn_norm blk)) src ;;
      Ok (set_ffn_norm blk (norm_set_bias (ffn_norm blk) b)))) self.
End WithRuntime.
End Block.

(** ** class Encoder *)

Module Encoder.
Section WithRuntime.
Context {rt : Runtime}.

Record t : Type := mk {
  vis : bool;
  layer : list Block.t;
  encoder_norm : LayerNorm.t
}.

(** the loop of [forward]; [us i] is the draw of the [i]-th block *)
Fixpoint run_layers (layers : list Block.t) (i : nat) (us : nat -> R)
    (hidden_states : T3 R) : result (T3 R) :=
  match layers with
  | [] => Ok hidden_states
  | layer_block :: rest =>
      hidden_states <- Block.forward layer_block (us i) hidden_states ;;
      run_layers rest (S i) us hidden_states
  end.

Definition forward (enc : t) (us : nat -> R) (hidden_states : T3 R)
    : result (T3 R) :=
  hidden_states <- run_layers (layer enc) 0 us hidden_states ;;
  Ok (LayerNorm.forward (encoder_norm enc) hidden_states).

(** [for uname, unit in self.layer.named_children():
       unit.load_from(weights, n_block=uname)] from index [i] on *)
Fixpoint load_layers (weights : weights_t) (i : nat) (layers : list Block.t)
    : result unit * list Block.t :=
  match layers with
  | [] => (Ok tt, [])
  | unit :: rest =>
      match Block.load_from weights (pretty i) unit with
      | (Ok _, unit') =>
          let (r, rest') := load_layers weights (S i) rest in (r, unit' :: rest')
      | (Raise e, unit') => (Raise e, unit' :: rest)
      end
  end.
End WithRuntime.
End Encoder.

(** ** class Embeddings *)

Module Embeddings.
Section WithRuntime.
Context {rt : Runtime}.

Record t : Type := mk {
  hybrid : bool;
  hybrid_model : option ResNetV2;
  patch_weight : ndarray;          (** [patch_embeddings.weight] *)
  patch_bias : ndarray;            (** [patch_embeddings.bias] *)
  position_embeddings : ndarray;   (** [1, n_patches + 1, hidden] *)
  cls_token : ndarray;             (** [1, 1, hidden] *)
  dropout_rate : R
}.

(** the rows of a [1, n, h] parameter *)
Definition rows (a : ndarray) : mat :=
  match shape a with
  | [_; n; h] => chunks h n (data a)
  | _ => []
  end.

Definition forward (e : t) (x : T4 R) : result (T3 R) :=
  x <- (if hybrid e then
          match hybrid_model e with
          | Some m => Ok (ResNetV2_forward m x)
          | None => Raise (AttributeError "hybrid_model")
          end
        else Ok x) ;;
  x <- patch_tokens (patch_weight e) (patch_bias e) x ;;
  let x := map (fun xb => rows (cls_token e) ++ xb) x in
  embeddings <- mapM (fun xb => broadcast (fun r p => Ok (vadd r p)) xb
                                  (rows (position_embeddings e))) x ;;
  Ok (Dropout3 (dropout_rate e) embeddings).
End WithRuntime.
End Embeddings.

(** ** class Transformer *)

Module Transformer.
Section WithRuntime.
Context {rt : Runtime}.

Record t : Type := mk { embeddings : Embeddings.t; encoder : Encoder.t }.

Definition forward (tr : t) (us : nat -> R) (input_ids : T4 R)
    : result (T3 R) :=
  embedding_output <- Embeddings.forward (embeddings tr) input_ids ;;
  Encoder.forward (encoder tr) us embedding_output.
End WithRuntime.
End Transformer.

(** ** Resizing the positional embedding *)

(** Python's [round] on a rational: half to even *)
Definition py_round (q : Q) : Z :=
  let f := Qfloor q in
  match Qcompare (q - inject_Z f) (1 # 2) with
  | Lt => f
  | Gt => (f + 1)%Z
  | Eq => if Z.even f then f else (f + 1)%Z
  end.

(** [int(round(n * z))], the size [ndimage.zoom] gives an axis of size [n] *)
Definition zoom_size (n : nat) (z : Q) : nat :=
  Z.to_nat (py_round (inject_Z (Z.of_nat n) * z)).

(** [posemb[:, :k]] for [k] 0 or 1 *)
Definition slice_tok (k : nat) (posemb : ndarray) : result ndarray :=
  match shape posemb with
  | d0 :: d1 :: rest =>
      let w := numel rest in
      Ok (mk_nd (d0 :: Nat.min k d1 :: rest)
            (concat (map (take (Nat.min k d1 * w)) (chunks (d1 * w) d0 (data posemb)))))
  | _ => Raise IndexError
  end.

(** [posemb[0, k:]] for [k] 0 or 1 ([posemb[0]] is [posemb[0, 0:]] on an
    array of two or more axes) *)
Definition slice_grid (k : nat) (posemb : ndarray) : result ndarray :=
  match shape posemb with
  | d0 :: d1 :: rest =>
      if Nat.eqb d0 0 then Raise IndexError
      else let w := numel rest in
           Ok (mk_nd ((d1 - k) :: rest) (take ((d1 - k) * w) (drop (k * w) (data posemb))))
  | _ => Raise IndexError
  end.

(** [np.concatenate([tok, grid], axis=1)] where [grid] is the result of
    [reshape(1, _, -1)]: the other axes have to agree *)
Definition concatenate_axis1 (tok grid : ndarray) : result ndarray :=
  match shape tok, shape grid with
  | [1; n; h], [1; m; h'] =>
      if Nat.eqb h h' then Ok (mk_nd [1; n + m; h] (data tok ++ data grid))
      else Raise ValueError
  | _, _ => Raise ValueError
  end.

(** [len(a)] *)
Definition len (a : ndarray) : nat := hd 0 (shape a).

(** the [else] branch of the size test in [VisionTransformer.load_from]:
    the array copied into the positional embedding *)
Definition resize_posemb {rt : Runtime} (classifier : string)
    (posemb posemb_new : ndarray) : result ndarray :=
  let ntok_new := nth 1 (shape posemb_new) 0 in
  let k := if String.eqb classifier "token" then 1 else 0 in
  posemb_tok <- slice_tok k posemb ;;
  posemb_grid <- slice_grid k posemb ;;
  let ntok_new := ntok_new - k in
  let gs_old := Nat.sqrt (len posemb_grid) in
  let gs_new := Nat.sqrt ntok_new in
  posemb_grid <- reshape_infer RuntimeError [gs_old; gs_old] posemb_grid ;;
  if Nat.eqb gs_old 0 then Raise ZeroDivisionError else
  let z := (Z.of_nat gs_new # Pos.of_nat gs_old)%Q in
  let posemb_grid := ndimage_zoom posemb_grid [z; z; 1%Q] in
  posemb_grid <- reshape_infer ValueError [1; gs_new * gs_new] posemb_grid ;;
  concatenate_axis1 posemb_tok posemb_grid.

(** ** class VisionTransformer *)

Module VisionTransformer.
Section WithRuntime.
Context {rt : Runtime}.

Record t : Type := mk {
  num_classes : nat;
  zero_head : bool;
  classifier : string;
  transformer : Transformer.t;
  head : Linear.t
}.

(** what [forward] returns: the encoded tokens, the scalar loss, or the
    logits *)
Inductive output : Type :=
| Encoded (x : T3 R)
| Loss (loss : R)
| Logits (logits : mat).

(** [x[:, 0]] *)
Definition select_first (x : T3 R) : result mat :=
  mapM (fun xb => match xb with
                  | r :: _ => Ok r
                  | [] => Raise IndexError
                  end) x.

(** [logits.view(-1, num_classes)] *)
Definition view_rows (n : nat) (logits : mat) : result mat :=
  let flat := concat logits in
  if Nat.eqb n 0 then Raise RuntimeError
  else if Nat.eqb (length flat mod n) 0
       then Ok (chunks n (length flat / n) flat)
       else Raise RuntimeError.

Definition forward (vt : t) (us : nat -> R) (x : T4 R)
    (labels : option (list Z)) (return_encoded_feature : bool)
    : result output :=
  x <- Transformer.forward (transformer vt) us x ;;
  if return_encoded_feature then Ok (Encoded x) else
  x0 <- select_first x ;;
  logits <- mapM (Linear.forward1 (head vt)) x0 ;;
  match labels with
  | Some labels =>
      rows <- view_rows (num_classes vt) logits ;;
      loss <- CrossEntropyLoss rows labels ;;
      Ok (Loss loss)
  | None => Ok (Logits logits)
  end.

(** *** load_from *)

Definition set_head (vt : t) (h : Linear.t) : t :=
  mk (num_classes vt) (zero_head vt) (classifier vt) (transformer vt) h.
Definition set_embeddings (vt : t) (e : Embeddings.t) : t :=
  mk (num_classes vt) (zero_head vt) (classifier vt)
     (Transformer.mk e (Transformer.encoder (transformer vt))) (head vt).
Definition set_encoder (vt : t) (e : Encoder.t) : t :=
  mk (num_classes vt) (zero_head vt) (classifier vt)
     (Transformer.mk (Transformer.embeddings (transformer vt)) e) (head vt).

Definition embeddings (vt : t) : Embeddings.t :=
  Transformer.embeddings (transformer vt).
Definition encoder (vt : t) : Encoder.t :=
  Transformer.encoder (transformer vt).

Definition set_patch_weight (e : Embeddings.t) (a : ndarray) : Embeddings.t :=
  Embeddings.mk (Embeddings.hybrid e) (Embeddings.hybrid_model e) a
    (Embeddings.patch_bias e) (Embeddings.position_embeddings e)
    (Embeddings.cls_token e) (Embeddings.dropout_rate e).
Definition set_patch_bias (e : Embeddings.t) (a : ndarray) : Embeddings.t :=
  Embeddings.mk (Embeddings.hybrid e) (Embeddings.hybrid_model e)
    (Embeddings.patch_weight e) a (Embeddings.position_embeddings e)
    (Embeddings.cls_token e) (Embeddings.dropout_rate e).
Definition set_position_embeddings (e : Embeddings.t) (a : ndarray) : Embeddings.t :=
  Embeddings.mk (Embeddings.hybrid e) (Embeddings.hybrid_model e)
    (Embeddings.patch_weight e) (Embeddings.patch_bias e) a
    (Embeddings.cls_token e) (Embeddings.dropout_rate e).
Definition set_cls_token (e : Embeddings.t) (a : ndarray) : Embeddings.t :=
  Embeddings.mk (Embeddings.hybrid e) (Embeddings.hybrid_model e)
    (Embeddings.patch_weight e) (Embeddings.patch_bias e)
    (Embeddings.position_embeddings e) a (Embeddings.dropout_rate e).
Definition set_hybrid_model (e : Embeddings.t) (m : option ResNetV2) : Embeddings.t :=
  Embeddings.mk (Embeddings.hybrid e) m
    (Embeddings.patch_weight e) (Embeddings.patch_bias e)
    (Embeddings.position_embeddings e) (Embeddings.cls_token e)
    (Embeddings.dropout_rate e).

(** lines 374-379 *)
Definition load_head (weights : weights_t) : SE t unit :=
  fun self =>
  (if zero_head self then
     update (fun vt => Ok (set_head vt (Linear.set_weight (head vt)
                                          (zeros_ (Linear.weight (head vt)))))) ;;;
     update (fun vt => Ok (set_head vt (Linear.set_bias (head vt)
                                          (zeros_ (Linear.bias (head vt))))))
   else
     update (fun vt =>
       src <- getitem weights "head/kernel" ;;
       src <- np2th src false ;;
       src <- tensor_t src ;;
       l <- Block.copy_weight (head vt) src ;;
       Ok (set_head vt l)) ;;;
     update (fun vt =>
       src <- getitem weights "head/bias" ;;
       src <- np2th src false ;;
       src <- tensor_t src ;;
       l <- Block.copy_bias (head vt) src ;;
       Ok (set_head vt l))) self.

(** [p.copy_(np2th(weights[k], conv))] on a parameter of the embeddings *)
Definition load_embedding (weights : weights_t) (k : string) (conv : bool)
    (get : Embeddings.t -> ndarray)
    (set : Embeddings.t -> ndarray -> Embeddings.t) : SE t unit :=
  update (fun vt =>
    src <- getitem weights k ;;
    src <- np2th src conv ;;
    a <- copy_ (get (embeddings vt)) src ;;
    Ok (set_embeddings vt (set (embeddings vt) a))).

(** lines 384-385 *)
Definition load_encoder_norm (weights : weights_t) : SE t unit :=
  update (fun vt =>
    src <- getitem weights "Transformer/encoder_norm/scale" ;;
    src <- np2th src false ;;
    w <- copy_ (LayerNorm.weight (Encoder.encoder_norm (encoder vt))) src ;;
    Ok (set_encoder vt (Encoder.mk (Encoder.vis (encoder vt))
          (Encoder.layer (encoder vt))
          (LayerNorm.mk w (LayerNorm.bias (Encoder.encoder_norm (encoder vt))))))) ;;;
  update (fun vt =>
    src <- getitem weights "Transformer/encoder_norm/bias" ;;
    src <- np2th src false ;;
    b <- copy_ (LayerNorm.bias (Encoder.encoder_norm (encoder vt))) src ;;
    Ok (set_encoder vt (Encoder.mk (Encoder.vis (encoder vt))
          (Encoder.layer (encoder vt))
          (LayerNorm.mk (LayerNorm.weight (Encoder.encoder_norm (encoder vt))) b)))).

(** lines 387-410 *)
Definition load_posemb (weights : weights_t) : SE t unit :=
  posemb <~ lift (src <- getitem weights "Transformer/posembed_input/pos_embedding" ;;
                  np2th src false) ;;
  update (fun vt =>
    let posemb_new := Embeddings.position_embeddings (embeddings vt) in
    src <- (if shape_eqb (shape posemb) (shape posemb_new) then Ok posemb
            else p <- resize_posemb (classifier vt) posemb posemb_new ;;
                 np2th p false) ;;
    a <- copy_ posemb_new src ;;
    Ok (set_embeddings vt (set_position_embeddings (embeddings vt) a))).

(** lines 412-414: only the [ModuleList] child of the encoder has
    children, the blocks, named by their index *)
Definition load_blocks (weights : weights_t) : SE t unit :=
  fun vt =>
  let (r, layers) := Encoder.load_layers weights 0 (Encoder.layer (encoder vt)) in
  (r, set_encoder vt (Encoder.mk (Encoder.vis (encoder vt)) layers
                        (Encoder.encoder_norm (encoder vt)))).

(** lines 416-425 *)
Definition load_hybrid (weights : weights_t) : SE t unit :=
  fun vt =>
  if Embeddings.hybrid (embeddings vt) then
    match Embeddings.hybrid_model (embeddings vt) with
    | Some m =>
        let (r, m') := ResNetV2_load_from m weights in
        (r, set_embeddings vt (set_hybrid_model (embeddings vt) (Some m')))
    | None => (Raise (AttributeError "hybrid_model"), vt)
    end
  else (Ok tt, vt).

(** lines 374-385: the head, the patch embedding, the class token and
    the final normalisation *)
Definition load_head_and_embeddings (weights : weights_t) : SE t unit :=
  load_head weights ;;;
  load_embedding weights "embedding/kernel" true
    Embeddings.patch_weight set_patch_weight ;;;
  load_embedding weights "embedding/bias" false
    Embeddings.patch_bias set_patch_bias ;;;
  load_embedding weights "cls" false
    Embeddings.cls_token set_cls_token ;;;
  load_encoder_norm weights.

Definition load_from (weights : weights_t) : SE t unit :=
  load_head_and_embeddings weights ;;;
  load_posemb weights ;;;
  load_blocks weights ;;;
  load_hybrid weights.
End WithRuntime.
End VisionTransformer.

(** ** Vocabulary of the statements *)

(** every entry of a mask is true *)
Definition all_true (M : T3 bool) : Prop :=
  Forall (Forall (Forall (fun b => b = true))) M.

(** a step of an import leaves [P] of the state as it was *)
Definition preserves {S A X} (P : S -> X) (m : SE S A) : Prop :=
  forall s, P (snd (m s)) = P s.

Definition posemb_key : string := "Transformer/posembed_input/pos_embedding".

Definition posemb_of {rt : Runtime} (vt : VisionTransformer.t) : ndarray :=
  Embeddings.position_embeddings (VisionTransformer.embeddings vt).

(** [StochasticDepth.forward] in training mode as the specification words
    it, for every wrapped module: the call returns the input, or the output
    of the wrapped module with every entry multiplied by [1 - p]. *)
Definition stochastic_depth_claim : Prop :=
  forall (M : Type) (call : M -> T3 R -> result pyval) (sd : StochasticDepth.t M)
         (u : R) (inputs : T3 R),
    StochasticDepth.training sd = true ->
    StochasticDepth.forward call sd u inputs = Ok (PTensor inputs) \/
    exists y,
      call (StochasticDepth.module sd) inputs = Ok (PTensor y) /\
      StochasticDepth.forward call sd u inputs
      = Ok (PTensor (map (map (map (fun v => (v * (1 - StochasticDepth.p sd))%R))) y)).

(** The resize of the positional embedding as the specification words it,
    without a condition on the token counts: whenever the checkpoint's table
    has another size than the model's and the classifier is ["token"], the
    table after [load_from] has the model's shape, its first row is the
    checkpoint's first row, and the other rows are the checkpoint's other
    rows, seen as a square grid of side [floor(sqrt(count))], zoomed to the
    new side. *)
Definition resize_claim {rt : Runtime} (vt : VisionTransformer.t)
    (weights : weights_t) : Prop :=
  forall posemb, weights !! posemb_key = Some posemb ->
    shape posemb <> shape (posemb_of vt) ->
    VisionTransformer.classifier vt = "token"%string ->
    let h := nth 2 (shape posemb) 0 in
    let g := Nat.sqrt (nth 1 (shape posemb) 0 - 1) in
    let g' := Nat.sqrt (nth 1 (shape (posemb_of vt)) 0 - 1) in
    let z := (Z.of_nat g' # Pos.of_nat g)%Q in
    let new := posemb_of (snd (VisionTransformer.load_from weights vt)) in
    shape new = shape (posemb_of vt) /\
    take h (data new) = take h (data posemb) /\
    drop h (data new)
    = data (ndimage_zoom (mk_nd [g; g; h] (drop h (data posemb))) [z; z; 1%Q]).

(** ** A runtime for closed examples

    Inference mode: dropout and the normalisations are the identity, the
    absent modules pass their input on.  The patch embedding is the
    convolution for patches of one pixel.  [zoom_linear] interpolates
    linearly between the two neighbours of the sampled position along each
    axis, the corners of input and output aligned, and gives the output the
    rounded sizes. *)

(** the channel vectors of the pixels of a [C, H, W] image, row by row *)
Definition pixels (img : list mat) : mat :=
  let h := length (hd [] img) in
  let w := length (hd [] (hd [] img)) in
  flat_map (fun y => map (fun x => map (fun ch => nth x (nth y ch []) 0%R) img)
                         (seq 0 w))
           (seq 0 h).

(** [Conv2d(C, hidden, kernel_size=1, stride=1)], [flatten(2)],
    [transpose(-1, -2)] *)
Definition conv1x1_tokens (w b : ndarray) (x : T4 R) : result (T3 R) :=
  match shape w with
  | [o; c; 1; 1] =>
      mapM (fun img =>
              if Nat.eqb (length img) c
              then Ok (map (fun px => zip_with (fun wrow bo => (dot px wrow + bo)%R)
                                        (chunks c o (data w)) (data b))
                           (pixels img))
              else Raise RuntimeError) x
  | _ => Raise RuntimeError
  end.

Definition lerp (f x y : R) : R := ((1 - f) * x + f * y)%R.

Definition zoom_lo (n m o : nat) : nat :=
  if Nat.leb m 1 then o else (o * (n - 1)) / (m - 1).
Definition zoom_hi (n m o : nat) : nat := Nat.min (S (zoom_lo n m o)) (n - 1).
Definition zoom_frac (n m o : nat) : R :=
  if Nat.leb m 1 then 0%R
  else (INR ((o * (n - 1)) mod (m - 1)) / INR (m - 1))%R.

Definition zoom_linear (a : ndarray) (z : list Q) : ndarray :=
  let s' := zip_with zoom_size (shape a) z in
  match shape a, s' with
  | [n0; n1; n2], [m0; m1; m2] =>
      let at_ i j c := nth ((i * n1 + j) * n2 + c) (data a) 0%R in
      mk_nd s'
        (flat_map (fun i => flat_map (fun j => map (fun c =>
           let v i' j' := lerp (zoom_frac n2 m2 c) (at_ i' j' (zoom_lo n2 m2 c))
                               (at_ i' j' (zoom_hi n2 m2 c)) in
           let w i' := lerp (zoom_frac n1 m1 j) (v i' (zoom_lo n1 m1 j))
                            (v i' (zoom_hi n1 m1 j)) in
           lerp (zoom_frac n0 m0 i) (w (zoom_lo n0 m0 i)) (w (zoom_hi n0 m0 i)))
           (seq 0 m2)) (seq 0 m1)) (seq 0 m0))
  | _, _ => mk_nd s' (replicate (numel s') 0%R)
  end.

#[global] Instance inference_runtime : Runtime := {|
  Dropout3 := fun _ x => x;
  Dropout4 := fun _ x => x;
  LayerNorm_forward := fun _ _ x => x;
  gelu := fun x => x;
  patch_tokens := conv1x1_tokens;
  CrossEntropyLoss := fun _ _ => Ok 0%R;
  ndimage_zoom := zoom_linear;
  Stats := unit;
  Stats_update := fun s _ => s;
  AttentionActPrune := Projections;
  AttentionActPrune_forward := fun _ x => x;
  AttentionActPrune_module := fun a => Some a;
  AttentionActPrune_set_module := fun _ p => p;
  MlpActPrune := Dense2;
  MlpActPrune_forward := fun _ x => x;
  MlpActPrune_fc := fun m => Some m;
  MlpActPrune_set_fc := fun _ d => d;
  MlpActPrune_module := fun _ => None;
  MlpActPrune_set_module := fun m _ => m;
  LayerNormSparse_forward := fun _ _ x => x;
  ResNetV2 := unit;
  ResNetV2_forward := fun _ x => x;
  ResNetV2_load_from := fun m _ => (Ok tt, m)
|}.

(** ** Small models and checkpoints *)

(** a one-head attention over one feature, every weight 1 and every bias 0 *)
Definition unit_attention {rt : Runtime} (prune_mode prune_after_softmax : bool)
    (n_tokens : nat) (mask : option (T3 bool)) : Attention.t :=
  Attention.mk false prune_mode prune_after_softmax 1 1 1
    (Linear.init 1 1 [1%R] [0%R]) (Linear.init 1 1 [1%R] [0%R])
    (Linear.init 1 1 [1%R] [0%R]) (Linear.init 1 1 [1%R] [0%R])
    0%R n_tokens mask None None false.

(** the block [Block(config, vis)] builds by default: plain norms, plain
    MLP, plain attention; hidden size 1 *)
Definition plain_block {rt : Runtime} : Block.t :=
  Block.mk 1 false false
    (Block.PlainNorm (LayerNorm.mk (mk_nd [1] [1%R]) (mk_nd [1] [0%R])))
    (Block.PlainNorm (LayerNorm.mk (mk_nd [1] [1%R]) (mk_nd [1] [0%R])))
    (Block.PlainMlp (Mlp.mk (Linear.init 1 1 [1%R] [0%R])
                            (Linear.init 1 1 [1%R] [0%R]) 0%R))
    (Block.PlainAttention (unit_attention false false 2 None)).

(** a model of hidden size 1 over [positions - 1] patches of one pixel (three
    channels), with two classes *)
Definition tiny_vit {rt : Runtime} (zero_head : bool) (positions : nat)
    (layers : list Block.t) : VisionTransformer.t :=
  VisionTransformer.mk 2 zero_head "token"
    (Transformer.mk
       (Embeddings.mk false None (mk_nd [1; 3; 1; 1] [0%R; 0%R; 0%R]) (mk_nd [1] [0%R])
          (mk_nd [1; positions; 1] (replicate positions 0%R))
          (mk_nd [1; 1; 1] [0%R]) 0%R)
       (Encoder.mk false layers (LayerNorm.mk (mk_nd [1] [1%R]) (mk_nd [1] [0%R]))))
    (Linear.init 1 2 [1%R; 1%R] [0%R; 0%R]).

(** a checkpoint for it, trained on a single patch *)
Definition tiny_checkpoint : weights_t :=
  list_to_map
    [("head/kernel"%string, mk_nd [1; 2] [8%R; 9%R]);
     ("head/bias"%string, mk_nd [2] [6%R; 6%R]);
     ("embedding/kernel"%string, mk_nd [1; 1; 3; 1] [3%R; 3%R; 3%R]);
     ("embedding/bias"%string, mk_nd [1] [4%R]);
     ("cls"%string, mk_nd [1; 1; 1] [2%R]);
     ("Transformer/encoder_norm/scale"%string, mk_nd [1] [1%R]);
     ("Transformer/encoder_norm/bias"%string, mk_nd [1] [0%R]);
     (posemb_key, mk_nd [1; 2; 1] [5%R; 7%R])].

(** the sixteen entries of block 0 of a checkpoint of hidden size 1 *)
Definition block_checkpoint : weights_t :=
  list_to_map
    (flat_map (fun name =>
       [(pjoin "Transformer/encoderblock_0" name "kernel", mk_nd [1; 1; 1] [2%R]);
        (pjoin "Transformer/encoderblock_0" name "bias", mk_nd [1; 1] [3%R])])
       [ATTENTION_Q; ATTENTION_K; ATTENTION_V; ATTENTION_OUT]
     ++ flat_map (fun name =>
       [(pjoin "Transformer/encoderblock_0" name "kernel", mk_nd [1; 1] [2%R]);
        (pjoin "Transformer/encoderblock_0" name "bias", mk_nd [1] [3%R])])
       [FC_0; FC_1]
     ++ flat_map (fun name =>
       [(pjoin "Transformer/encoderblock_0" name "scale", mk_nd [1] [1%R]);
        (pjoin "Transformer/encoderblock_0" name "bias", mk_nd [1] [0%R])])
       [ATTENTION_NORM; MLP_NORM]).

(** ** Further functions of the file *)

(** [swish]: [x * torch.sigmoid(x)], entry by entry *)
Definition sigmoid (x : R) : R := (1 / (1 + exp (- x)))%R.
Definition swish1 (x : R) : R := (x * sigmoid x)%R.
Definition swish (x : T3 R) : T3 R := map3 swish1 x.

(** [a // b] *)
Definition floordiv (a b : nat) : result nat :=
  if Nat.eqb b 0 then Raise ZeroDivisionError else Ok (a / b).

(** [Embeddings.__init__], lines 180-190: the patch size, the number of
    patches and the [hybrid] flag, from the image size, [config.patches.get("grid")]
    and [config.patches["size"]] *)
Definition patch_geometry (img_size : nat * nat) (grid : option (nat * nat))
    (size : nat * nat) : result ((nat * nat) * nat * bool) :=
  match grid with
  | Some grid_size =>
      p0 <- floordiv (fst img_size / 16) (fst grid_size) ;;
      p1 <- floordiv (snd img_size / 16) (snd grid_size) ;;
      Ok ((p0, p1), (fst img_size / 16) * (snd img_size / 16), true)
  | None =>
      n0 <- floordiv (fst img_size) (fst size) ;;
      n1 <- floordiv (snd img_size) (snd size) ;;
      Ok (size, n0 * n1, false)
  end.

(** [Embeddings.__init__]: [channels] is [in_channels], or the width the
    hybrid model [backbone] gives when the grid is set; [w], [b] are the
    values the convolution's initialiser draws. *)
Definition Embeddings_init {rt : Runtime} (hidden_size : nat) (img_size : nat * nat)
    (grid : option (nat * nat)) (size : nat * nat) (rate : R)
    (channels : nat) (backbone : ResNetV2) (w b : list R) : result Embeddings.t :=
  g <- patch_geometry img_size grid size ;;
  let patch_size := fst (fst g) in
  let n_patches := snd (fst g) in
  let hybrid := snd g in
  Ok (Embeddings.mk hybrid (if hybrid then Some backbone else None)
        (mk_nd [hidden_size; channels; fst patch_size; snd patch_size] w)
        (mk_nd [hidden_size] b)
        (mk_nd [1; n_patches + 1; hidden_size]
           (replicate ((n_patches + 1) * hidden_size) 0%R))
        (mk_nd [1; 1; hidden_size] (replicate hidden_size 0%R))
        rate).

(** the shapes of the parameters [VisionTransformer.load_from] writes
    outside the blocks *)
Definition param_shapes {rt : Runtime} (vt : VisionTransformer.t) : list (list nat) :=
  [shape (Linear.weight (VisionTransformer.head vt));
   shape (Linear.bias (VisionTransformer.head vt));
   shape (Embeddings.patch_weight (VisionTransformer.embeddings vt));
   shape (Embeddings.patch_bias (VisionTransformer.embeddings vt));
   shape (Embeddings.cls_token (VisionTransformer.embeddings vt));
   shape (Embeddings.position_embeddings (VisionTransformer.embeddings vt));
   shape (LayerNorm.weight (Encoder.encoder_norm (VisionTransformer.encoder vt)));
   shape (LayerNorm.bias (Encoder.encoder_norm (VisionTransformer.encoder vt)))].

Definition layers_of {rt : Runtime} (vt : VisionTransformer.t) : list Block.t :=
  Encoder.layer (VisionTransformer.encoder vt).

Definition depth {rt : Runtime} (vt : VisionTransformer.t) : nat :=
  length (layers_of vt).

(** the sub-modules [Block.__init__] builds, of hidden size 1, for the
    runtime of the examples *)
Definition unit_norm : LayerNorm.t := LayerNorm.mk (mk_nd [1] [1%R]) (mk_nd [1] [0%R]).
Definition unit_sparse_norm : LayerNormSparse.t :=
  LayerNormSparse.mk (mk_nd [1] [1%R]) (mk_nd [1] [0%R]).
Definition unit_mlp : Mlp.t :=
  Mlp.mk (Linear.init 1 1 [1%R] [0%R]) (Linear.init 1 1 [1%R] [0%R]) 0%R.
Definition unit_dense2 : Dense2 :=
  mk_Dense2 (Linear.init 1 1 [1%R] [0%R]) (Linear.init 1 1 [1%R] [0%R]).
Definition unit_projections : Projections :=
  mk_Projections (Linear.init 1 1 [1%R] [0%R]) (Linear.init 1 1 [1%R] [0%R])
                 (Linear.init 1 1 [1%R] [0%R]) (Linear.init 1 1 [1%R] [0%R]).

(** a block of the pruned kind *)
Definition pruned_block : Block.t (rt := inference_runtime) :=
  Block.mk 1 true false (Block.SparseNorm unit_sparse_norm)
    (Block.SparseNorm unit_sparse_norm)
    (Block.PrunedMlp unit_dense2) (Block.PrunedAttention unit_projections).

(** the block [Block(config, vis, new_backrazor=True, layer_drop=True)]
    builds with [drop_prob = 0.5] *)
Definition dropped_block : Block.t (rt := inference_runtime) :=
  Block.mk 1 true true (Block.SparseNorm unit_sparse_norm)
    (Block.SparseNorm unit_sparse_norm)
    (Block.DroppedMlp (StochasticDepth.mk unit_dense2 (1 / 2)%R true))
    (Block.PrunedAttention unit_projections).

(** an attention of two heads of one feature each, which records and
    returns its probabilities *)
Definition two_head_attention {rt : Runtime} : Attention.t :=
  Attention.mk true false false 2 1 2
    (Linear.init 2 2 [1%R; 0%R; 0%R; 1%R] [0%R; 0%R])
    (Linear.init 2 2 [1%R; 0%R; 0%R; 1%R] [0%R; 0%R])
    (Linear.init 2 2 [1%R; 0%R; 0%R; 1%R] [0%R; 0%R])
    (Linear.init 2 2 [1%R; 0%R; 0%R; 1%R] [0%R; 0%R])
    0%R 2 None None None true.

(** [unit_attention] in post-softmax mode with the mask [__init__] builds
    for [n] tokens, recording its probabilities *)
Definition recording_attention {rt : Runtime} (n : nat) : Attention.t :=
  Attention.mk false true true 1 1 1
    (Linear.init 1 1 [1%R] [0%R]) (Linear.init 1 1 [1%R] [0%R])
    (Linear.init 1 1 [1%R] [0%R]) (Linear.init 1 1 [1%R] [0%R])
    0%R n (Some (Attention.ones_mask 1 n)) None None true.

(** the embeddings of [tiny_vit] over one patch with the values of
    [tiny_checkpoint] in place *)
Definition loaded_embeddings {rt : Runtime} : Embeddings.t :=
  Embeddings.mk false None (mk_nd [1; 3; 1; 1] [3%R; 3%R; 3%R]) (mk_nd [1] [4%R])
    (mk_nd [1; 2; 1] [5%R; 7%R]) (mk_nd [1; 1; 1] [2%R]) 0%R.

(** [tiny_vit] without a class-token position in the table: the
    classifier is not ["token"] *)
Definition gap_vit {rt : Runtime} (positions : nat) : VisionTransformer.t :=
  VisionTransformer.mk 2 false "gap"
    (Transformer.mk
       (Embeddings.mk false None (mk_nd [1; 3; 1; 1] [0%R; 0%R; 0%R]) (mk_nd [1] [0%R])
          (mk_nd [1; positions; 1] (replicate positions 0%R))
          (mk_nd [1; 1; 1] [0%R]) 0%R)
       (Encoder.mk false [] (LayerNorm.mk (mk_nd [1] [1%R]) (mk_nd [1] [0%R]))))
    (Linear.init 1 2 [1%R; 1%R] [0%R; 0%R]).

(** [tiny_checkpoint] with a table of a single position *)
Definition gap_checkpoint : weights_t :=
  <[posemb_key := mk_nd [1; 1; 1] [5%R]]> tiny_checkpoint.

(** a batch of one image of one pixel, three channels *)
Definition one_pixel : T4 R := [[[[1%R]]; [[1%R]]; [[1%R]]]].

(** * Properties *)

(** ** Lists, [mapM] and broadcasting *)

Lemma lookup_map {A B} (f : A -> B) (l : list A) (i : nat) :
  map f l !! i = option_map f (l !! i).
Proof. revert i; induction l as [|x l IH]; intros [|i]; simpl; auto. Qed.

Lemma mapM_lookup {A B} (f : A -> result B) (l : list A) (ys : list B) i x :
  mapM f l = Ok ys -> l !! i = Some x ->
  exists y, ys !! i = Some y /\ f x = Ok y.
Proof.
  revert ys i; induction l as [|a l IH]; intros ys i Hm Hl; [destruct i; discriminate|].
  simpl in Hm. destruct (f a) as [y|] eqn:Hf; [|discriminate]. simpl in Hm.
  destruct (mapM f l) as [ys'|] eqn:Hr; [|discriminate]. simpl in Hm.
  injection Hm as <-. destruct i as [|i]; simpl in *.
  - injection Hl as <-. eauto.
  - eapply IH; eauto.
Qed.

Lemma mapM_length {A B} (f : A -> result B) (l : list A) (ys : list B) :
  mapM f l = Ok ys -> length ys = length l.
Proof.
  revert ys; induction l as [|a l IH]; intros ys Hm; simpl in Hm.
  - injection Hm as <-. reflexivity.
  - destruct (f a) as [y|]; [|discriminate]. simpl in Hm.
    destruct (mapM f l) as [ys'|]; [|discriminate]. simpl in Hm.
    injection Hm as <-. simpl. f_equal. auto.
Qed.

Lemma broadcast_lookup {A B C} (f : A -> B -> result C) xs ms ys i x m :
  broadcast f xs ms = Ok ys -> xs !! i = Some x -> ms !! i = Some m ->
  exists y, ys !! i = Some y /\ f x m = Ok y.
Proof.
  unfold broadcast. intros Hb Hx Hm.
  assert (Hz : forall ys', (if Nat.eqb (length ms) (length xs)
         then mapM (fun xm => f (fst xm) (snd xm)) (zip xs ms)
         else Raise RuntimeError) = Ok ys' ->
         exists y, ys' !! i = Some y /\ f x m = Ok y).
  { intros ys' H. destruct (Nat.eqb _ _); [|discriminate].
    eapply (mapM_lookup _ _ _ i (x, m)) in H; [exact H|].
    apply lookup_zip_Some. auto. }
  destruct ms as [|m0 [|m1 ms]]; try (apply Hz; exact Hb).
  destruct i as [|i]; [|discriminate]. injection Hm as ->.
  eapply mapM_lookup in Hb; eauto.
Qed.

Lemma mapM_lookup_inv {A B} (f : A -> result B) (l : list A) (ys : list B) i y :
  mapM f l = Ok ys -> ys !! i = Some y ->
  exists x, l !! i = Some x /\ f x = Ok y.
Proof.
  intros Hm Hy. pose proof (mapM_length _ _ _ Hm) as Hlen.
  destruct (lookup_lt_is_Some_2 l i) as [x Hx].
  { rewrite <- Hlen. eapply lookup_lt_Some; eauto. }
  destruct (mapM_lookup _ _ _ _ _ Hm Hx) as (y' & Hy' & Hf).
  exists x. split; [exact Hx|]. congruence.
Qed.

Lemma mapM_pure {A B} (g : A -> B) (l : list A) :
  mapM (fun x => Ok (g x)) l = Ok (map g l).
Proof. induction l as [|a l IH]; simpl; [reflexivity|]. rewrite IH. reflexivity. Qed.

Lemma map_zip_with_pair {A B C} (f : A -> B -> C) xs ms :
  map (fun xm => f (fst xm) (snd xm)) (zip xs ms) = zip_with f xs ms.
Proof.
  revert ms; induction xs as [|x xs IH]; intros [|m ms]; simpl; auto.
  f_equal. apply IH.
Qed.

Lemma broadcast_pure_same_length {A B C} (f : A -> B -> C) xs ms :
  length ms = length xs ->
  broadcast (fun a b => Ok (f a b)) xs ms = Ok (zip_with f xs ms).
Proof.
  intros Hlen. unfold broadcast.
  assert (Hz : (if Nat.eqb (length ms) (length xs)
         then mapM (fun xm => Ok (f (fst xm) (snd xm))) (zip xs ms)
         else Raise RuntimeError) = Ok (zip_with f xs ms)).
  { rewrite Hlen, Nat.eqb_refl.
    rewrite (mapM_pure (fun xm => f (fst xm) (snd xm))).
    f_equal. apply map_zip_with_pair. }
  destruct ms as [|m0 [|m1 ms]]; try exact Hz.
  destruct xs as [|x [|x' xs]]; try discriminate. reflexivity.
Qed.

Lemma broadcast_lookup_inv {A B C} (f : A -> B -> result C) xs ms ys i y m :
  broadcast f xs ms = Ok ys -> ys !! i = Some y -> ms !! i = Some m ->
  exists x, xs !! i = Some x /\ f x m = Ok y.
Proof.
  unfold broadcast. intros Hb Hy Hm.
  assert (Hz : forall ys', ys' !! i = Some y ->
         (if Nat.eqb (length ms) (length xs)
         then mapM (fun xm => f (fst xm) (snd xm)) (zip xs ms)
         else Raise RuntimeError) = Ok ys' ->
         exists x, xs !! i = Some x /\ f x m = Ok y).
  { intros ys' Hy' H. destruct (Nat.eqb _ _); [|discriminate].
    destruct (mapM_lookup_inv _ _ _ _ _ H Hy') as ([x m'] & Hxm & Hf).
    apply lookup_zip_Some in Hxm. destruct Hxm as [Hx Hm'].
    simpl in Hf. exists x. split; [exact Hx|]. congruence. }
  destruct ms as [|m0 [|m1 ms]]; try (exact (Hz ys Hy Hb)).
  destruct i as [|i]; [|discriminate]. injection Hm as ->.
  eapply mapM_lookup_inv in Hb; eauto.
Qed.

Lemma broadcast_length {A B C} (f : A -> B -> result C) xs ms ys :
  broadcast f xs ms = Ok ys -> length ys = length xs.
Proof.
  unfold broadcast. intros Hb.
  assert (Hz : (if Nat.eqb (length ms) (length xs)
         then mapM (fun xm => f (fst xm) (snd xm)) (zip xs ms)
         else Raise RuntimeError) = Ok ys -> length ys = length xs).
  { destruct (Nat.eqb _ _) eqn:E; [|discriminate]. intros H.
    apply mapM_length in H. rewrite H. apply Nat.eqb_eq in E.
    rewrite length_zip_with. lia. }
  destruct ms as [|m0 [|m1 ms]]; try (exact (Hz Hb)).
  eapply mapM_length; eauto.
Qed.

(** Row-wise reading of a broadcast over the three mask axes. *)
Lemma broadcast4_row {A B C} (f : A -> B -> C) t m r b h i mrow rrow :
  broadcast4 f t m = Ok r ->
  row4 r b h i = Some rrow -> row3 m h i = Some mrow ->
  length mrow = length rrow ->
  exists trow, row4 t b h i = Some trow /\ length trow = length rrow /\
               rrow = zip_with f trow mrow.
Proof.
  unfold broadcast4, broadcast3, row4, row3. intros Hr Hrow Hm Hlen.
  destruct (r !! b) as [rb|] eqn:Hrb; [|discriminate].
  destruct (rb !! h) as [rh|] eqn:Hrh; [|discriminate].
  destruct (m !! h) as [mh|] eqn:Hmh; [|discriminate].
  destruct (mapM_lookup_inv _ _ _ _ _ Hr Hrb) as (tb & -> & Hb).
  destruct (broadcast_lookup_inv _ _ _ _ _ _ _ Hb Hrh Hmh) as (th & -> & Hh).
  destruct (broadcast_lookup_inv _ _ _ _ _ _ _ Hh Hrow Hm) as (ti & -> & Hi).
  exists ti. split; [reflexivity|].
  pose proof (broadcast_length _ _ _ _ Hi) as Hl. split; [congruence|].
  rewrite broadcast_pure_same_length in Hi by congruence. congruence.
Qed.

Lemma broadcast4_get {A B C} (f : A -> B -> C) t m r b h i j x c :
  broadcast4 f t m = Ok r ->
  get4 t b h i j = Some x -> get3 m h i j = Some c ->
  get4 r b h i j = Some (f x c).
Proof.
  unfold broadcast4, broadcast3, get4, get3, row4, row3. intros Hr Hx Hc.
  destruct (t !! b) as [tb|] eqn:Htb; [|discriminate].
  destruct (tb !! h) as [th|] eqn:Hth; [|discriminate].
  destruct (th !! i) as [ti|] eqn:Hti; [|discriminate].
  destruct (m !! h) as [mh|] eqn:Hmh; [|discriminate].
  destruct (mh !! i) as [mi|] eqn:Hmi; [|discriminate].
  destruct (mapM_lookup _ _ _ _ _ Hr Htb) as (rb & -> & Hb).
  destruct (broadcast_lookup _ _ _ _ _ _ _ Hb Hth Hmh) as (rh & -> & Hh).
  destruct (broadcast_lookup _ _ _ _ _ _ _ Hh Hti Hmi) as (ri & -> & Hi).
  destruct (broadcast_lookup _ _ _ _ _ _ _ Hi Hx Hc) as (y & -> & Hy).
  congruence.
Qed.

Lemma broadcast_both_lookup {A B C} (f : A -> B -> result C) xs ms ys i x m :
  broadcast_both f xs ms = Ok ys -> xs !! i = Some x -> ms !! i = Some m ->
  exists y, ys !! i = Some y /\ f x m = Ok y.
Proof.
  unfold broadcast_both. intros Hb Hx Hm.
  assert (Hz : forall ys', (if Nat.eqb (length ms) (length xs)
         then mapM (fun xm => f (fst xm) (snd xm)) (zip xs ms)
         else Raise RuntimeError) = Ok ys' ->
         exists y, ys' !! i = Some y /\ f x m = Ok y).
  { intros ys' H. destruct (Nat.eqb _ _); [|discriminate].
    eapply (mapM_lookup _ _ _ i (x, m)) in H; [exact H|].
    apply lookup_zip_Some. auto. }
  destruct xs as [|x0 [|x1 xs]].
  - discriminate.
  - destruct i as [|i]; [|discriminate]. injection Hx as ->.
    eapply (mapM_lookup _ _ _ 0 m) in Hb; eauto.
  - destruct ms as [|m0 [|m1 ms]]; try (apply Hz; exact Hb).
    destruct i as [|i]; [|discriminate]. injection Hm as ->.
    eapply (mapM_lookup _ _ _ 0 (x : A)) in Hb; eauto.
Qed.

(** an entry of the product, at a position both sides have *)
Lemma mul_mask_get m t r b h i j x c :
  mul_mask m t = Ok r ->
  get4 t b h i j = Some x -> get3 m h i j = Some c ->
  get4 r b h i j = Some (c * x)%R.
Proof.
  unfold mul_mask, get4, get3, row4, row3. intros Hr Hx Hc.
  destruct (t !! b) as [tb|] eqn:Htb; [|discriminate].
  destruct (tb !! h) as [th|] eqn:Hth; [|discriminate].
  destruct (th !! i) as [ti|] eqn:Hti; [|discriminate].
  destruct (m !! h) as [mh|] eqn:Hmh; [|discriminate].
  destruct (mh !! i) as [mi|] eqn:Hmi; [|discriminate].
  destruct (mapM_lookup _ _ _ _ _ Hr Htb) as (rb & -> & Hb).
  destruct (broadcast_both_lookup _ _ _ _ _ _ _ Hb Hth Hmh) as (rh & -> & Hh).
  destruct (broadcast_both_lookup _ _ _ _ _ _ _ Hh Hti Hmi) as (ri & -> & Hi).
  destruct (broadcast_both_lookup _ _ _ _ _ _ _ Hi Hx Hc) as (y & -> & Hy).
  congruence.
Qed.

Lemma row3_map3 {A B} (f : A -> B) (t : T3 A) h i :
  row3 (map3 f t) h i = option_map (map f) (row3 t h i).
Proof.
  unfold row3, map3. rewrite lookup_map.
  destruct (t !! h) as [th|]; simpl; [|reflexivity].
  apply lookup_map.
Qed.

Lemma get3_map3 {A B} (f : A -> B) (t : T3 A) h i j :
  get3 (map3 f t) h i j = option_map f (get3 t h i j).
Proof.
  unfold get3. rewrite row3_map3.
  destruct (row3 t h i) as [r|]; simpl; [|reflexivity]. apply lookup_map.
Qed.

Lemma softmax_row4 (t : T4 score) b h i :
  row4 (softmax t) b h i = option_map softmax_row (row4 t b h i).
Proof.
  unfold softmax, row4, row3. rewrite lookup_map.
  destruct (t !! b) as [tb|]; simpl; [|reflexivity].
  rewrite lookup_map. destruct (tb !! h) as [th|]; simpl; [|reflexivity].
  apply lookup_map.
Qed.

(** ** Softmax on a row *)

Local Open Scope R_scope.

Lemma exp_score_nonneg s : 0 <= exp_score s.
Proof. destruct s; simpl; [left; apply exp_pos | lra]. Qed.

Lemma Rsum_exp_nonneg l : 0 <= Rsum (map exp_score l).
Proof.
  induction l as [|s l IH]; simpl; [lra|].
  pose proof (exp_score_nonneg s). lra.
Qed.

Lemma Rsum_exp_pos l j r : l !! j = Some (Fin r) -> 0 < Rsum (map exp_score l).
Proof.
  revert j; induction l as [|s l IH]; intros [|j] H; try discriminate; simpl in *.
  - injection H as ->. simpl. pose proof (exp_pos r). pose proof (Rsum_exp_nonneg l). lra.
  - pose proof (exp_score_nonneg s). specialize (IH _ H). lra.
Qed.

Lemma softmax_row_lookup row j :
  softmax_row row !! j
  = option_map (fun s => exp_score s / Rsum (map exp_score row)) (row !! j).
Proof. unfold softmax_row. apply lookup_map. Qed.


Lemma masked_sum_fill z srow mrow :
  masked_sum mrow (map (fun s => exp_score s / z) (zip_with fill srow (map negb mrow)))
  = Rsum (map exp_score (zip_with fill srow (map negb mrow))) / z.
Proof.
  unfold masked_sum. revert mrow; induction srow as [|s srow IH]; intros [|m mrow]; simpl;
    try (unfold Rdiv; ring).
  rewrite IH. destruct m; simpl; unfold Rdiv; ring.
Qed.

Lemma pre_softmax_row_spec srow mrow :
  length mrow = length srow ->
  (exists j, mrow !! j = Some true) ->
  let prow := softmax_row (zip_with fill srow (map negb mrow)) in
  (forall j, mrow !! j = Some false -> prow !! j = Some 0) /\
  masked_sum mrow prow = 1.
Proof.
  intros Hlen [j0 Hj0] prow. split.
  - intros j Hj. unfold prow. rewrite softmax_row_lookup.
    destruct (lookup_lt_is_Some_2 srow j) as [s Hs].
    { rewrite <- Hlen. eapply lookup_lt_Some; eauto. }
    assert (Hf : zip_with fill srow (map negb mrow) !! j = Some NegInf).
    { apply lookup_zip_with_Some. exists s, true. repeat split; auto.
      rewrite lookup_map, Hj. reflexivity. }
    rewrite Hf. simpl. f_equal. unfold Rdiv. ring.
  - unfold prow, softmax_row. rewrite masked_sum_fill.
    destruct (lookup_lt_is_Some_2 srow j0) as [s Hs].
    { rewrite <- Hlen. eapply lookup_lt_Some; eauto. }
    assert (Hf : zip_with fill srow (map negb mrow) !! j0 = Some (Fin s)).
    { apply lookup_zip_with_Some. exists s, false. repeat split; auto.
      rewrite lookup_map, Hj0. reflexivity. }
    apply Rsum_exp_pos in Hf. field. lra.
Qed.


(** ** The probability tensor of [Attention.forward] *)

Section AttentionProperties.
Context {rt : Runtime}.

Lemma forward_probs_inv (a : Attention.t) x P :
  Attention.forward_probs a x = Ok P ->
  exists s, Attention.probabilities a s = Ok P.
Proof.
  unfold Attention.forward_probs. destruct (Attention.project a x) as [sv|]; [|discriminate].
  simpl. eauto.
Qed.

Lemma pre_softmax_probabilities (a : Attention.t) s P M :
  Attention.prune_mode a = true -> Attention.prune_after_softmax a = false ->
  Attention.attention_mask a = Some M ->
  Attention.probabilities a s = Ok P ->
  exists filled, masked_fill_neg_inf s (invert M) = Ok filled /\ P = softmax filled.
Proof.
  unfold Attention.probabilities. intros -> -> -> H. simpl in H.
  destruct (masked_fill_neg_inf s (invert M)) as [filled|]; [|discriminate].
  simpl in H. injection H as <-. eauto.
Qed.

(** C3: in pre-softmax pruning mode, on every row of the probability tensor
    whose mask row (of the row's length) has an unmasked position, the entries
    at masked positions are exactly 0 and the entries at unmasked positions
    sum to 1. *)
Theorem pre_softmax_rows (a : Attention.t) x P M b h i mrow prow :
  Attention.prune_mode a = true ->
  Attention.prune_after_softmax a = false ->
  Attention.attention_mask a = Some M ->
  Attention.forward_probs a x = Ok P ->
  row3 M h i = Some mrow ->
  row4 P b h i = Some prow ->
  length mrow = length prow ->
  (exists j, mrow !! j = Some true) ->
  (forall j, mrow !! j = Some false -> prow !! j = Some 0) /\
  masked_sum mrow prow = 1.
Proof.
  intros Hpm Hpas HM HP Hm Hp Hlen Hex.
  apply forward_probs_inv in HP. destruct HP as [s HP].
  destruct (pre_softmax_probabilities _ _ _ _ Hpm Hpas HM HP) as (filled & Hfill & ->).
  rewrite softmax_row4 in Hp.
  destruct (row4 filled b h i) as [frow|] eqn:Hf; [|discriminate].
  simpl in Hp. injection Hp as <-.
  assert (Hlenf : length (map negb mrow) = length frow).
  { rewrite length_map. rewrite Hlen. unfold softmax_row. rewrite length_map. reflexivity. }
  unfold masked_fill_neg_inf in Hfill.
  destruct (broadcast4_row _ _ _ _ b h i (map negb mrow) frow Hfill Hf)
    as (srow & Hs & Hls & ->); auto.
  { unfold invert. rewrite row3_map3, Hm. reflexivity. }
  apply pre_softmax_row_spec; auto.
  rewrite length_map in Hlenf. congruence.
Qed.

(** What the post-softmax path does at every entry: where the mask is true
    the probability is zeroed, where it is false the softmax value is kept. *)
Lemma post_softmax_entry (a : Attention.t) s P M b h i j m p :
  Attention.prune_mode a = true ->
  Attention.prune_after_softmax a = true ->
  Attention.attention_mask a = Some M ->
  Attention.probabilities a s = Ok P ->
  get3 M h i j = Some m ->
  get4 (softmax (map4 Fin s)) b h i j = Some p ->
  get4 P b h i j = Some (if m then 0 else p).
Proof.
  unfold Attention.probabilities. intros -> -> -> H Hm Hp. simpl in H.
  erewrite (mul_mask_get _ _ _ b h i j p (to_float (negb m)) H Hp).
  - f_equal. destruct m; simpl; ring.
  - unfold float, invert. rewrite !get3_map3, Hm. reflexivity.
Qed.

Lemma mapM_map_if {A B} (f : A -> result B) (g : A -> B) l ys :
  mapM f l = Ok ys ->
  (forall x y, In x l -> f x = Ok y -> y = g x) ->
  ys = map g l.
Proof.
  revert ys; induction l as [|a l IH]; intros ys Hm Hf; simpl in Hm.
  - injection Hm as <-. reflexivity.
  - destruct (f a) as [y|] eqn:Ha; [|discriminate]. simpl in Hm.
    destruct (mapM f l) as [ys'|] eqn:Hr; [|discriminate]. simpl in Hm.
    injection Hm as <-. simpl. f_equal.
    + apply Hf; [left; reflexivity | exact Ha].
    + apply IH; [reflexivity|]. intros x y' Hx. apply Hf. right. exact Hx.
Qed.

Lemma map_fst_zip_same_length {A B C} (g : A -> C) (xs : list A) (ms : list B) :
  length ms = length xs ->
  map (fun xm => g (fst xm)) (zip xs ms) = map g xs.
Proof.
  revert ms; induction xs as [|x xs IH]; intros [|m ms] H; simpl in *; try discriminate; auto.
  f_equal. apply IH. lia.
Qed.

Lemma broadcast_map_if {A B C} (f : A -> B -> result C) (g : A -> C) xs ms ys :
  broadcast f xs ms = Ok ys ->
  (forall x m y, In m ms -> f x m = Ok y -> y = g x) ->
  ys = map g xs.
Proof.
  unfold broadcast. intros Hb Hf.
  assert (Hz : (if Nat.eqb (length ms) (length xs)
         then mapM (fun xm => f (fst xm) (snd xm)) (zip xs ms)
         else Raise RuntimeError) = Ok ys -> ys = map g xs).
  { destruct (Nat.eqb _ _) eqn:E; [|discriminate]. intros H.
    apply Nat.eqb_eq in E.
    rewrite <- (map_fst_zip_same_length g xs ms E).
    apply (mapM_map_if _ (fun xm => g (fst xm)) _ _ H).
    intros [x m] y Hin. simpl. apply Hf.
    apply list_elem_of_In in Hin. apply elem_of_zip_r in Hin.
    apply list_elem_of_In. exact Hin. }
  destruct ms as [|m0 [|m1 ms]]; try (exact (Hz Hb)).
  apply (mapM_map_if _ g _ _ Hb). intros x y _. apply Hf. left. reflexivity.
Qed.

Lemma masked_fill_all_true s M filled :
  all_true M -> masked_fill_neg_inf s (invert M) = Ok filled ->
  filled = map4 Fin s.
Proof.
  unfold masked_fill_neg_inf, broadcast4, broadcast3, all_true, invert, map3, map4.
  intros HM H.
  apply (mapM_map_if _ _ _ _ H). intros sb fb _ Hb.
  apply (broadcast_map_if _ _ _ _ _ Hb). intros sh mh fh Hmh Hh.
  apply in_map_iff in Hmh. destruct Hmh as (mh0 & <- & Hmh0).
  rewrite Forall_forall in HM. apply list_elem_of_In in Hmh0. specialize (HM _ Hmh0).
  apply (broadcast_map_if _ _ _ _ _ Hh). intros si mi fi Hmi Hi.
  apply in_map_iff in Hmi. destruct Hmi as (mi0 & <- & Hmi0).
  rewrite Forall_forall in HM. apply list_elem_of_In in Hmi0. specialize (HM _ Hmi0).
  apply (broadcast_map_if _ _ _ _ _ Hi). intros x m y Hm Hy.
  apply in_map_iff in Hm. destruct Hm as (m0 & <- & Hm0).
  rewrite Forall_forall in HM. apply list_elem_of_In in Hm0. specialize (HM _ Hm0).
  subst m0. simpl in Hy. congruence.
Qed.


(** With an all-true mask the pre-softmax path computes the plain
    probabilities. *)
Lemma pre_softmax_all_true_probabilities vis pas nh hs ahs q k v o rate n M st pr rc
    mask' st' s P :
  all_true M ->
  Attention.probabilities
    (Attention.mk vis true false nh hs ahs q k v o rate n (Some M) st pr rc) s = Ok P ->
  Attention.probabilities
    (Attention.mk vis false pas nh hs ahs q k v o rate n mask' st' pr rc) s = Ok P.
Proof.
  unfold Attention.probabilities. simpl. intros HM H.
  destruct (masked_fill_neg_inf s (invert M)) as [filled|] eqn:Hf; [|discriminate].
  simpl in H. injection H as <-.
  rewrite (masked_fill_all_true _ _ _ HM Hf). reflexivity.
Qed.

Lemma pre_softmax_all_true_forward vis pas nh hs ahs q k v o rate n M st pr rc
    mask' st' x r :
  all_true M ->
  fst (Attention.forward
    (Attention.mk vis true false nh hs ahs q k v o rate n (Some M) st pr rc) x) = Ok r ->
  fst (Attention.forward
    (Attention.mk vis false pas nh hs ahs q k v o rate n mask' st' pr rc) x) = Ok r.
Proof.
  intros HM. unfold Attention.forward.
  change (Attention.project (Attention.mk vis false pas nh hs ahs q k v o rate n mask' st' pr rc) x)
    with (Attention.project (Attention.mk vis true false nh hs ahs q k v o rate n (Some M) st pr rc) x).
  destruct (Attention.project _ x) as [[s vl]|]; [|discriminate].
  destruct (Attention.probabilities (Attention.mk vis true false _ _ _ _ _ _ _ _ _ _ _ _ _) s)
    as [P|] eqn:HP; [|discriminate].
  rewrite (pre_softmax_all_true_probabilities _ pas _ _ _ _ _ _ _ _ _ _ _ _ _ mask' st' _ _ HM HP).
  simpl. auto.
Qed.
End AttentionProperties.

(** ** The attention paths on a single token *)

Lemma exp_ratio (s : R) : exp s / (exp s + 0) = 1.
Proof. pose proof (exp_pos s). field. lra. Qed.

Lemma unit_attention_init {rt : Runtime} (prune_mode prune_after_softmax : bool) (n : nat) :
  Attention.init 1 1 0 false prune_mode prune_after_softmax n [1] [0] [1] [0] [1] [0] [1] [0]
  = Ok (unit_attention prune_mode prune_after_softmax n
          (if prune_mode then Some (Attention.ones_mask 1 n) else None)).
Proof. reflexivity. Qed.

(** C1: an attention built in post-softmax pruning mode keeps its all-true
    mask; on one token the full softmax gives probability 1, the position is
    unmasked, and the probability tensor holds 0 there.  With the mask set to
    false at that position (masked) the tensor holds the softmax value 1. *)
Theorem post_softmax_mask_polarity {rt : Runtime} :
  Attention.init 1 1 0 false true true 1 [1] [0] [1] [0] [1] [0] [1] [0]
    = Ok (unit_attention true true 1 (Some [[[true]]]))
  /\ Attention.forward_probs (unit_attention false false 1 None) [[[1]]]
     = Ok [[[[1]]]]
  /\ Attention.forward_probs (unit_attention true true 1 (Some [[[true]]])) [[[1]]]
     = Ok [[[[0]]]]
  /\ Attention.forward_probs (unit_attention true true 1 (Some [[[false]]])) [[[1]]]
     = Ok [[[[1]]]].
Proof.
  repeat split.
  - cbn. rewrite exp_ratio. reflexivity.
  - cbn. rewrite exp_ratio. do 5 f_equal. ring.
  - cbn. rewrite exp_ratio. do 5 f_equal. ring.
Qed.

(** C2: on one token, in inference mode, plain attention returns 1 and the
    attention built in post-softmax pruning mode, its mask all true as
    constructed, returns 0. *)
Theorem all_true_mask_post_softmax_output :
  fst (Attention.forward (rt := inference_runtime)
         (unit_attention false false 1 None) [[[1]]])
    = Ok ([[[1]]], None)
  /\ Attention.init (rt := inference_runtime)
       1 1 0 false true true 1 [1] [0] [1] [0] [1] [0] [1] [0]
    = Ok (unit_attention true true 1 (Some [[[true]]]))
  /\ fst (Attention.forward (rt := inference_runtime)
            (unit_attention true true 1 (Some [[[true]]])) [[[1]]])
    = Ok ([[[0]]], None).
Proof.
  split; [|split]; [| reflexivity |]; cbn; rewrite exp_ratio; do 5 f_equal; ring.
Qed.

(** The pre-softmax path with the mask as constructed agrees with plain
    attention on the same input. *)
Example all_true_mask_pre_softmax_output :
  fst (Attention.forward (rt := inference_runtime)
         (unit_attention true false 1 (Some [[[true]]])) [[[1]]])
    = Ok ([[[1]]], None).
Proof. cbn; rewrite exp_ratio; do 5 f_equal; ring. Qed.

(** the row [true; false] of a two-token mask *)
Lemma pre_softmax_rows_witness :
  exists P prow,
    Attention.forward_probs (rt := inference_runtime)
      (unit_attention true false 2 (Some [[[true; false]; [true; true]]]))
      [[[1]; [2]]] = Ok P
    /\ row4 P 0 0 0 = Some prow
    /\ (forall j, [true; false] !! j = Some false -> prow !! j = Some 0)
    /\ masked_sum [true; false] prow = 1.
Proof.
  eexists. eexists. split; [cbn; reflexivity|]. split; [reflexivity|].
  eapply (pre_softmax_rows (rt := inference_runtime)
            (unit_attention true false 2 (Some [[[true; false]; [true; true]]]))
            [[[1]; [2]]] _ [[[true; false]; [true; true]]] 0 0 0 [true; false]).
  - reflexivity.
  - reflexivity.
  - reflexivity.
  - cbn. reflexivity.
  - reflexivity.
  - reflexivity.
  - reflexivity.
  - exists 0%nat. reflexivity.
Defined.

(** ** Stochastic depth *)

Section StochasticDepthProperties.
Context {rt : Runtime}.

(** C7: construction fails with [ValueError] when [p <= 0] or [p >= 1] and
    succeeds for every [p] strictly between 0 and 1. *)
Theorem stochastic_depth_init_range (M : Type) (m : M) (p : R) :
  (p <= 0 \/ 1 <= p -> StochasticDepth.init m p = Raise ValueError) /\
  (0 < p < 1 ->
   StochasticDepth.init m p = Ok (StochasticDepth.mk m p true)).
Proof.
  unfold StochasticDepth.init. split.
  - intros H. destruct (Rlt_dec 0 p); [|reflexivity].
    destruct (Rlt_dec p 1); [lra | reflexivity].
  - intros [H0 H1]. destruct (Rlt_dec 0 p); [|lra].
    destruct (Rlt_dec p 1); [reflexivity | lra].
Qed.

(** [p] = 0, 1 and 1/2 *)
Lemma stochastic_depth_init_range_witness :
  StochasticDepth.init tt 0 = Raise ValueError /\
  StochasticDepth.init tt 1 = Raise ValueError /\
  StochasticDepth.init tt (1 / 2) = Ok (StochasticDepth.mk tt (1 / 2) true).
Proof.
  split; [|split].
  - apply (proj1 (stochastic_depth_init_range unit tt 0)). left. lra.
  - apply (proj1 (stochastic_depth_init_range unit tt 1)). right. lra.
  - apply (proj2 (stochastic_depth_init_range unit tt (1 / 2))). lra.
Defined.

(** C6: in training mode [forward] returns the input unchanged when the
    draw is below [p]; otherwise, when the wrapped module returns a tensor,
    that tensor with every entry multiplied by [1 - p], when it returns a
    tuple the product is a [TypeError], and when it raises the exception is
    passed on.  In inference mode it returns what the wrapped module
    returns, whatever the sampler holds, so two calls on one input agree. *)
Theorem stochastic_depth_forward (M : Type) (call : M -> T3 R -> result pyval)
    (sd : StochasticDepth.t M) (u : R) (inputs : T3 R) :
  (StochasticDepth.training sd = true -> u < StochasticDepth.p sd ->
   StochasticDepth.forward call sd u inputs = Ok (PTensor inputs)) /\
  (StochasticDepth.training sd = true -> ~ u < StochasticDepth.p sd ->
   (forall y, call (StochasticDepth.module sd) inputs = Ok (PTensor y) ->
      StochasticDepth.forward call sd u inputs
      = Ok (PTensor (map (map (map (fun v => v * (1 - StochasticDepth.p sd)))) y)) /\
      forall out, StochasticDepth.forward call sd u inputs = Ok (PTensor out) ->
        forall b i j,
          get3 out b i j
          = option_map (fun v => v * (1 - StochasticDepth.p sd)) (get3 y b i j)) /\
   (forall y w, call (StochasticDepth.module sd) inputs = Ok (PTuple y w) ->
      StochasticDepth.forward call sd u inputs = Raise TypeError) /\
   (forall e, call (StochasticDepth.module sd) inputs = Raise e ->
      StochasticDepth.forward call sd u inputs = Raise e)) /\
  (StochasticDepth.training sd = false ->
   StochasticDepth.forward call sd u inputs = call (StochasticDepth.module sd) inputs /\
   forall u', StochasticDepth.forward call sd u' inputs
              = StochasticDepth.forward call sd u inputs).
Proof.
  unfold StochasticDepth.forward. split; [|split].
  - intros -> Hu. destruct (Rlt_dec u _); [reflexivity | contradiction].
  - intros -> Hu. destruct (Rlt_dec u _); [contradiction|]. split; [|split].
    + intros y Hy. rewrite Hy. simpl. split; [reflexivity|].
      intros out [= <-] b i j. unfold tscale. apply get3_map3.
    + intros y w Hy. rewrite Hy. reflexivity.
    + intros e He. rewrite He. reflexivity.
  - intros ->. split; [reflexivity|]. intros u'. reflexivity.
Qed.

(** [p] = 1/2 with the draws 1/4 and 3/4, around the module that doubles
    every entry *)
Lemma stochastic_depth_forward_witness :
  let call := fun (m : unit) (x : T3 R) =>
                Ok (PTensor (map (map (map (fun v => 2 * v))) x)) in
  StochasticDepth.forward call (StochasticDepth.mk tt (1 / 2) true) (1 / 4) [[[3; 5]]]
    = Ok (PTensor [[[3; 5]]]) /\
  StochasticDepth.forward call (StochasticDepth.mk tt (1 / 2) true) (3 / 4) [[[3; 5]]]
    = Ok (PTensor [[[2 * 3 * (1 - 1 / 2); 2 * 5 * (1 - 1 / 2)]]]) /\
  StochasticDepth.forward call (StochasticDepth.mk tt (1 / 2) false) (1 / 4) [[[3; 5]]]
    = Ok (PTensor [[[2 * 3; 2 * 5]]]).
Proof.
  intros call. split; [|split].
  - apply (proj1 (stochastic_depth_forward unit call
                    (StochasticDepth.mk tt (1 / 2) true) (1 / 4) [[[3; 5]]])).
    + reflexivity.
    + simpl. lra.
  - refine (proj1 (proj1 (proj1 (proj2 (stochastic_depth_forward unit call
                    (StochasticDepth.mk tt (1 / 2) true) (3 / 4) [[[3; 5]]]))
                    eq_refl _) _ eq_refl)).
    simpl. lra.
  - apply (proj1 (proj2 (proj2 (stochastic_depth_forward unit call
                    (StochasticDepth.mk tt (1 / 2) false) (1 / 4) [[[3; 5]]])) eq_refl)).
Defined.

(** around a module that returns a pair, as [Attention] does, the call does
    not return when the draw is not below [p] *)
Lemma stochastic_depth_tuple_counterexample : ~ stochastic_depth_claim.
Proof.
  intros H.
  specialize (H unit (fun _ x => Ok (PTuple x None))
                (StochasticDepth.mk tt (1 / 2) true) (3 / 4) [[[1]]] eq_refl).
  unfold StochasticDepth.forward in H. simpl in H.
  destruct (Rlt_dec (3 / 4) (1 / 2)) as [Hlt|_]; [lra|].
  simpl in H. destruct H as [H|(y & H & _)]; discriminate.
Qed.
End StochasticDepthProperties.

(** ** Blocks *)

Section BlockProperties.
Context {rt : Runtime}.

Lemma block_forward_plain_attention_never_ok
    hs nb ld an fn f (a : Attention.t) (u : R) (x : T3 R) :
  exists e, Block.forward (Block.mk hs nb ld an fn f (Block.PlainAttention a)) u x = Raise e.
Proof.
  unfold Block.forward. simpl.
  destruct (fst (Attention.forward a _)) as [r|e]; simpl; eauto.
Qed.

(** C4: a block whose attention is the plain [Attention] never returns.
    Where the attention returns its pair, [x + h] adds a tuple to a tensor
    and raises [TypeError]; where the attention raises, so does the block.
    The normalisation, the MLP and the second residual are not reached. *)
Theorem block_forward_plain_attention_raises
    hs nb ld an fn f (a : Attention.t) (u : R) (x : T3 R) :
  Block.forward (Block.mk hs nb ld an fn f (Block.PlainAttention a)) u x
  = match fst (Attention.forward a (Block.call_norm an x)) with
    | Ok _ => Raise TypeError
    | Raise e => Raise e
    end.
Proof.
  unfold Block.forward, Block.call_attn. cbn [Block.attn Block.attention_norm].
  destruct (fst (Attention.forward a (Block.call_norm an x))) as [r|e].
  - cbn [bind]. unfold py_add. reflexivity.
  - reflexivity.
Qed.

(** when the attention itself returns, the exception is the [TypeError] of
    [x + h] *)
Lemma block_forward_plain_attention_TypeError
    hs nb ld an fn f (a : Attention.t) (u : R) (x : T3 R) r :
  fst (Attention.forward a (Block.call_norm an x)) = Ok r ->
  Block.forward (Block.mk hs nb ld an fn f (Block.PlainAttention a)) u x = Raise TypeError.
Proof. unfold Block.forward. simpl. intros ->. reflexivity. Qed.

(** the flags of [__init__] give a plain block its plain attention *)
Lemma block_init_plain hidden ld p n1 n2 s1 s2 mlp pmlp a pa blk :
  Block.init hidden false ld p n1 n2 s1 s2 mlp pmlp a pa = Ok blk ->
  blk = Block.mk hidden false ld (Block.PlainNorm n1) (Block.PlainNorm n2)
          (Block.PlainMlp mlp) (Block.PlainAttention a).
Proof. unfold Block.init. simpl. intros [= <-]. reflexivity. Qed.

(** With the pruned sub-modules the block computes
    norm, attention, residual, norm, MLP, residual in this order. *)
Lemma block_forward_pruned hs nb ld an fn (a : AttentionActPrune) (m : MlpActPrune) u x :
  Block.forward (Block.mk hs nb ld an fn (Block.PrunedMlp m) (Block.PrunedAttention a)) u x
  = Ok (let y := tadd (AttentionActPrune_forward a (Block.call_norm an x)) x in
        tadd (MlpActPrune_forward m (Block.call_norm fn y)) y).
Proof. reflexivity. Qed.

(** the same with the MLP under stochastic depth, in inference mode *)
Lemma block_forward_dropped_inference hs nb ld an fn (a : AttentionActPrune)
    (m : MlpActPrune) p u x :
  Block.forward (Block.mk hs nb ld an fn
                   (Block.DroppedMlp (StochasticDepth.mk m p false))
                   (Block.PrunedAttention a)) u x
  = Ok (let y := tadd (AttentionActPrune_forward a (Block.call_norm an x)) x in
        tadd (MlpActPrune_forward m (Block.call_norm fn y)) y).
Proof. reflexivity. Qed.

(** C5: on a block whose attention is the plain [Attention], [load_from]
    raises and leaves every parameter of the block as it was. *)
Theorem block_load_from_plain_attention_raises
    hs nb ld an fn f (a : Attention.t) (weights : weights_t) (n_block : string) :
  exists e,
    Block.load_from weights n_block (Block.mk hs nb ld an fn f (Block.PlainAttention a))
    = (Raise e, Block.mk hs nb ld an fn f (Block.PlainAttention a)).
Proof.
  unfold Block.load_from, bindS, lift.
  repeat match goal with
  | |- context [Block.attention_kernel ?b ?w ?r ?n] =>
      destruct (Block.attention_kernel b w r n); [|eauto]
  | |- context [Block.attention_bias ?w ?r ?n] =>
      destruct (Block.attention_bias w r n); [|eauto]
  end.
  unfold Block.on_attn_module, update. simpl. eauto.
Qed.
End BlockProperties.

(** the default block on two tokens, and on the entries of a checkpoint *)
Example plain_block_forward_TypeError :
  Block.forward (rt := inference_runtime) plain_block 0 [[[1]; [2]]] = Raise TypeError.
Proof.
  apply (block_forward_plain_attention_TypeError (rt := inference_runtime)) with
    (r := match fst (Attention.forward (rt := inference_runtime)
                       (unit_attention false false 2 None) [[[1]; [2]]]) with
          | Ok r => r
          | Raise _ => ([], None)
          end).
  cbn. reflexivity.
Qed.

Example plain_block_load_from_AttributeError :
  Block.load_from (rt := inference_runtime) block_checkpoint "0" plain_block
  = (Raise (AttributeError "module"), plain_block).
Proof. reflexivity. Qed.

(** ** Arrays *)

Local Close Scope R_scope.

Lemma chunks_concat {A} (n k : nat) (d : list A) :
  concat (chunks n k d) = take (n + k * n - n) d.
Proof.
  replace (n + k * n - n) with (k * n) by lia.
  revert d; induction k as [|k IH]; intros d; simpl; [reflexivity|].
  rewrite IH. apply take_take_drop.
Qed.

Lemma chunks_concat_all {A} (n k : nat) (d : list A) :
  length d = k * n -> concat (chunks n k d) = d.
Proof.
  intros H. rewrite chunks_concat. apply take_ge. lia.
Qed.

Lemma chunks_Forall_length {A} (n k : nat) (d : list A) :
  k * n <= length d -> Forall (fun c => length c = n) (chunks n k d).
Proof.
  revert d; induction k as [|k IH]; intros d H; simpl; constructor.
  - rewrite length_take. simpl in H. lia.
  - apply IH. rewrite length_drop. simpl in H. lia.
Qed.

Lemma mapO_fixed {A} (f : A -> option A) (l : list A) :
  Forall (fun c => f c = Some c) l -> mapO f l = Some l.
Proof.
  induction 1 as [|c l Hc _ IH]; simpl; [reflexivity|]. rewrite Hc, IH. reflexivity.
Qed.

Lemma expand_same (s : list nat) (d : list R) :
  length d = numel s -> expand s s d = Some d.
Proof.
  revert d; induction s as [|n s IH]; intros d H; simpl; [reflexivity|].
  rewrite Nat.eqb_refl. simpl in H.
  rewrite mapO_fixed.
  - simpl. f_equal. apply chunks_concat_all. lia.
  - eapply Forall_impl; [apply chunks_Forall_length; lia|].
    intros c Hc. simpl in Hc. apply IH. exact Hc.
Qed.

Lemma copy_same_shape (dst src : ndarray) :
  shape src = shape dst -> wf src -> copy_ dst src = Ok src.
Proof.
  unfold copy_, wf. intros Hs Hw. rewrite <- Hs, Nat.sub_diag, Nat.ltb_irrefl.
  simpl. rewrite expand_same by exact Hw. destruct src; reflexivity.
Qed.

Lemma flat_map_length_const {A B} (f : A -> list B) (l : list A) (n : nat) :
  (forall x, length (f x) = n) -> length (flat_map f l) = length l * n.
Proof.
  intros H. induction l as [|x l IH]; simpl; [reflexivity|].
  rewrite length_app, H, IH. reflexivity.
Qed.

Lemma nth_flat_map_seq {B} (f : nat -> list B) (n b c i j : nat) (d : B) :
  (forall x, length (f x) = n) -> (j < c)%nat -> (i < n)%nat ->
  nth (j * n + i) (flat_map f (seq b c)) d = nth i (f (b + j)%nat) d.
Proof.
  intros Hf. revert b j; induction c as [|c IH]; intros b j Hj Hi; [lia|].
  simpl. destruct j as [|j].
  - simpl. rewrite app_nth1 by (rewrite Hf; exact Hi). rewrite Nat.add_0_r. reflexivity.
  - rewrite app_nth2 by (rewrite Hf; simpl; lia).
    rewrite Hf. replace (S j * n + i - n)%nat with (j * n + i)%nat by (simpl; lia).
    rewrite IH by lia. f_equal. f_equal. lia.
Qed.

Lemma tensor_t_matrix (a : ndarray) (r c : nat) :
  shape a = [r; c] ->
  exists a', tensor_t a = Ok a' /\ shape a' = [c; r] /\ wf a' /\
    forall i j, (i < r)%nat -> (j < c)%nat ->
      nth (j * r + i) (data a') 0%R = nth (i * c + j) (data a) 0%R.
Proof.
  intros Hs. unfold tensor_t. rewrite Hs. eexists. split; [reflexivity|].
  split; [reflexivity|]. split.
  - unfold wf. simpl. rewrite (flat_map_length_const _ _ r).
    + rewrite length_seq. lia.
    + intros x. rewrite length_map, length_seq. reflexivity.
  - intros i j Hi Hj. simpl.
    rewrite (nth_flat_map_seq _ r) by
      (try (intros x; rewrite length_map, length_seq); auto).
    simpl.
    rewrite (nth_indep _ 0%R (nth (0 * c + j) (data a) 0%R))
      by (rewrite length_map, length_seq; exact Hi).
    change (nth (0 * c + j) (data a) 0%R)
      with ((fun i0 : nat => nth (i0 * c + j) (data a) 0%R) 0%nat).
    rewrite map_nth. rewrite seq_nth by exact Hi. reflexivity.
Qed.

Lemma tensor_t_vector (a : ndarray) (n : nat) :
  shape a = [n] -> tensor_t a = Ok a.
Proof. intros Hs. unfold tensor_t. rewrite Hs. reflexivity. Qed.

(** ** Frames for the steps of an import *)

Lemma preserves_bindS {S A B X} (P : S -> X) (m : SE S A) (k : A -> SE S B) :
  preserves P m -> (forall a, preserves P (k a)) -> preserves P (bindS m k).
Proof.
  intros Hm Hk s. unfold bindS. specialize (Hm s).
  destruct (m s) as [[a|e] s']; simpl in *; [|exact Hm].
  rewrite Hk. exact Hm.
Qed.

Lemma preserves_lift {S A X} (P : S -> X) (r : result A) : preserves P (lift r).
Proof. intros s. reflexivity. Qed.

Lemma preserves_update {S X} (P : S -> X) (f : S -> result S) :
  (forall s s', f s = Ok s' -> P s' = P s) -> preserves P (update f).
Proof.
  intros Hf s. unfold update. destruct (f s) as [s'|e] eqn:E; simpl; auto.
Qed.

Lemma bindS_snd {S A B X} (P : S -> X) (m : SE S A) (k : A -> SE S B) s :
  (forall a, preserves P (k a)) -> P (snd (bindS m k s)) = P (snd (m s)).
Proof.
  intros Hk. unfold bindS. destruct (m s) as [[a|e] s']; simpl; [apply Hk | reflexivity].
Qed.

Lemma bindS_Ok {S A B} (m : SE S A) (k : A -> SE S B) s a s' :
  m s = (Ok a, s') -> bindS m k s = k a s'.
Proof. intros H. unfold bindS. rewrite H. reflexivity. Qed.

Lemma bind_Ok_inv {A B} (m : result A) (k : A -> result B) y :
  bind m k = Ok y -> exists a, m = Ok a /\ k a = Ok y.
Proof. destruct m as [a|e]; simpl; [eauto | discriminate]. Qed.

(** breaking an equation [(x <- m ;; k) = Ok y] *)
Ltac inv_bind H :=
  repeat (apply bind_Ok_inv in H; destruct H as (? & _ & H)).

Section HeadImport.
Context {rt : Runtime}.

Import VisionTransformer.

Lemma load_embedding_head weights k conv get set :
  preserves head (load_embedding weights k conv get set).
Proof.
  apply preserves_update. intros s s' H. inv_bind H. injection H as <-. reflexivity.
Qed.

Lemma load_encoder_norm_head weights : preserves head (load_encoder_norm weights).
Proof.
  unfold load_encoder_norm. apply preserves_bindS; [|intros _];
    apply preserves_update; intros s s' H; inv_bind H; injection H as <-; reflexivity.
Qed.

Lemma load_posemb_head weights : preserves head (load_posemb weights).
Proof.
  unfold load_posemb. apply preserves_bindS; [apply preserves_lift|]. intros posemb.
  apply preserves_update. intros s s' H.
  inv_bind H. injection H as <-. reflexivity.
Qed.

Lemma load_blocks_head weights : preserves head (load_blocks weights).
Proof.
  intros s. unfold load_blocks. destruct (Encoder.load_layers _ _ _). reflexivity.
Qed.

Lemma load_hybrid_head weights : preserves head (load_hybrid weights).
Proof.
  intros s. unfold load_hybrid. destruct (Embeddings.hybrid _); [|reflexivity].
  destruct (Embeddings.hybrid_model _); [|reflexivity].
  destruct (ResNetV2_load_from _ _). reflexivity.
Qed.

Lemma after_head_preserves_head weights :
  preserves head
    (load_embedding weights "embedding/kernel" true Embeddings.patch_weight set_patch_weight ;;;
     load_embedding weights "embedding/bias" false Embeddings.patch_bias set_patch_bias ;;;
     load_embedding weights "cls" false Embeddings.cls_token set_cls_token ;;;
     load_encoder_norm weights).
Proof.
  repeat (apply preserves_bindS; [apply load_embedding_head | intros _]).
  apply load_encoder_norm_head.
Qed.

Lemma load_from_head_is_load_head weights vt :
  head (snd (load_from weights vt)) = head (snd (load_head weights vt)).
Proof.
  unfold load_from.
  rewrite (bindS_snd head).
  2:{ intros _. apply preserves_bindS; [apply load_posemb_head | intros _].
      apply preserves_bindS; [apply load_blocks_head | intros _]. apply load_hybrid_head. }
  unfold load_head_and_embeddings.
  rewrite (bindS_snd head); [reflexivity|]. intros _. apply after_head_preserves_head.
Qed.

(** C10: with [zero_head] the head's weight and bias keep their shapes
    and hold the value 0 at every entry after [load_from], and the head step
    is the same for every checkpoint, also the empty one; without it the
    head holds the checkpoint's kernel, transposed, and its bias. *)
Theorem load_from_head (weights : weights_t) (vt : t) :
  (zero_head vt = true ->
   let hd := head (snd (load_from weights vt)) in
   shape (Linear.weight hd) = shape (Linear.weight (head vt)) /\
   data (Linear.weight hd)
   = replicate (length (data (Linear.weight (head vt)))) 0%R /\
   (forall i v, data (Linear.weight hd) !! i = Some v -> v = 0%R) /\
   shape (Linear.bias hd) = shape (Linear.bias (head vt)) /\
   data (Linear.bias hd)
   = replicate (length (data (Linear.bias (head vt)))) 0%R /\
   (forall i v, data (Linear.bias hd) !! i = Some v -> v = 0%R) /\
   load_head weights vt = load_head ∅ vt) /\
  (zero_head vt = false ->
   forall K B h c,
     weights !! "head/kernel" = Some K -> shape K = [h; c] ->
     weights !! "head/bias" = Some B -> shape B = [c] -> wf B ->
     shape (Linear.weight (head vt)) = [c; h] ->
     shape (Linear.bias (head vt)) = [c] ->
     let hd := head (snd (load_from weights vt)) in
     shape (Linear.weight hd) = [c; h] /\
     (forall i j, (i < h)%nat -> (j < c)%nat ->
        nth (j * h + i) (data (Linear.weight hd)) 0%R = nth (i * c + j) (data K) 0%R) /\
     Linear.bias hd = B).
Proof.
  rewrite load_from_head_is_load_head. split.
  - intros Hz. unfold load_head. rewrite Hz. unfold zeros_. simpl.
    repeat split; try reflexivity.
    + intros i v Hv. apply lookup_replicate in Hv. apply Hv.
    + intros i v Hv. apply lookup_replicate in Hv. apply Hv.
  - intros Hz K B h c HK HsK HB HsB HwB Hsw Hsb hd. subst hd.
    unfold load_head. rewrite Hz. unfold bindS, update, getitem.
    rewrite HK. simpl.
    destruct (tensor_t_matrix K h c HsK) as (K' & -> & HsK' & HwK' & Hent). simpl.
    unfold Block.copy_weight. rewrite copy_same_shape by congruence. simpl.
    rewrite HB. simpl. rewrite (tensor_t_vector B c HsB). simpl.
    unfold Block.copy_bias. simpl. rewrite copy_same_shape by congruence. simpl.
    auto.
Qed.
End HeadImport.

(** the two-class head of the small model, with and without [zero_head] *)
Lemma load_from_head_witness :
  (let vt := VisionTransformer.set_head (tiny_vit true 2 [])
               (Linear.init 1 2 [1%R; 2%R] [4%R; 5%R]) in
   VisionTransformer.head (snd (VisionTransformer.load_from tiny_checkpoint vt))
   = Linear.mk (mk_nd [2; 1] [0%R; 0%R]) (mk_nd [2] [0%R; 0%R])
   /\ VisionTransformer.load_head tiny_checkpoint vt
      = VisionTransformer.load_head ∅ vt) /\
  (let hd := VisionTransformer.head
               (snd (VisionTransformer.load_from tiny_checkpoint (tiny_vit false 2 []))) in
   shape (Linear.weight hd) = [2; 1] /\
   (forall i j, i < 1 -> j < 2 ->
      nth (j * 1 + i) (data (Linear.weight hd)) 0%R = nth (i * 2 + j) [8%R; 9%R] 0%R) /\
   Linear.bias hd = mk_nd [2] [6%R; 6%R]).
Proof.
  split.
  - intros vt.
    destruct (proj1 (load_from_head (rt := inference_runtime) tiny_checkpoint vt)
                eq_refl) as (Hsw & Hdw & _ & Hsb & Hdb & _ & Hsame).
    split; [|exact Hsame].
    destruct (VisionTransformer.head
                (snd (VisionTransformer.load_from tiny_checkpoint vt))) as [[sw dw] [sb db]].
    simpl in Hsw, Hdw, Hsb, Hdb. subst. reflexivity.
  - apply (proj2 (load_from_head (rt := inference_runtime) tiny_checkpoint
                    (tiny_vit false 2 [])) eq_refl
             (mk_nd [1; 2] [8%R; 9%R]) (mk_nd [2] [6%R; 6%R]) 1 2);
      reflexivity.
Defined.

(** ** The positional embedding *)

Lemma py_round_Z (q : Q) (n : Z) : (q == inject_Z n)%Q -> py_round q = n.
Proof.
  intros H. unfold py_round.
  assert (Hf : Qfloor q = n) by (rewrite H; apply Qfloor_Z).
  rewrite Hf.
  assert (Hc : Qcompare (q - inject_Z n) (1 # 2) = Lt).
  { apply Qlt_alt. rewrite H.
    assert (Hz : (inject_Z n - inject_Z n == 0)%Q) by ring.
    rewrite Hz. reflexivity. }
  rewrite Hc. reflexivity.
Qed.

Lemma zoom_size_exact (g g' : nat) :
  (0 < g)%nat -> zoom_size g (Z.of_nat g' # Pos.of_nat g) = g'.
Proof.
  intros Hg. unfold zoom_size.
  rewrite (py_round_Z _ (Z.of_nat g')); [apply Nat2Z.id|].
  unfold Qeq, Qmult, inject_Z. simpl.
  rewrite Z.mul_1_r, Pos.mul_1_l.
  replace (Z.pos (Pos.of_nat g)) with (Z.of_nat g).
  - apply Z.mul_comm.
  - destruct g; [lia|]. rewrite <- Pos.of_nat_succ. lia.
Qed.

Lemma zoom_size_one (h : nat) : zoom_size h 1 = h.
Proof.
  unfold zoom_size. rewrite (py_round_Z _ (Z.of_nat h)); [apply Nat2Z.id|]. ring.
Qed.

Section PosembImport.
Context {rt : Runtime}.

Lemma resize_posemb_square (posemb posemb_new : ndarray) (g g' h : nat) :
  shape posemb = [1; S (g * g); h] -> wf posemb ->
  shape posemb_new = [1; S (g' * g'); h] ->
  (0 < g)%nat -> (0 < g')%nat ->
  let z := (Z.of_nat g' # Pos.of_nat g)%Q in
  let grid := mk_nd [g; g; h] (drop h (data posemb)) in
  let zoomed := ndimage_zoom grid [z; z; 1%Q] in
  shape zoomed = zip_with zoom_size (shape grid) [z; z; 1%Q] -> wf zoomed ->
  resize_posemb "token" posemb posemb_new
  = Ok (mk_nd [1; S (g' * g'); h] (take h (data posemb) ++ data zoomed)).
Proof.
  intros Hs Hw Hn Hg Hg' z grid zoomed Hzs Hzw.
  unfold wf in Hw. rewrite Hs in Hw. simpl in Hw.
  assert (Hlen : length (data posemb) = (h + g * g * h)%nat) by lia. clear Hw.
  assert (Hgg : (g * g <> 0)%nat) by nia.
  assert (Hgg' : (g' * g' <> 0)%nat) by nia.
  unfold resize_posemb. simpl String.eqb. cbv iota.
  unfold slice_tok, slice_grid. rewrite Hs, Hn. simpl bind.
  unfold len. simpl hd.
  rewrite !Nat.sub_0_r, !Nat.mul_1_r, !Nat.add_0_r, !Nat.sqrt_square.
  rewrite app_nil_r, take_take, Nat.min_l by lia.
  rewrite (take_ge (drop h (data posemb))) by (rewrite length_drop; lia).
  (* the old grid *)
  unfold reshape_infer at 1. simpl numel. simpl data.
  rewrite Nat.mul_1_r, length_drop, Hlen.
  replace (h + g * g * h - h)%nat with (h * (g * g))%nat by lia.
  rewrite (proj2 (Nat.eqb_neq _ _) Hgg), Nat.Div0.mod_mul, Nat.div_mul by exact Hgg.
  simpl bind. rewrite (proj2 (Nat.eqb_neq g 0)) by lia.
  change (mk_nd ([g; g] ++ [h]) (drop h (data posemb))) with grid.
  fold z. fold zoomed.
  (* the new grid *)
  assert (Hzs' : shape zoomed = [g'; g'; h]).
  { rewrite Hzs. simpl. unfold z. rewrite !zoom_size_exact, zoom_size_one by exact Hg.
    reflexivity. }
  unfold wf in Hzw. rewrite Hzs' in Hzw. simpl in Hzw.
  unfold reshape_infer. simpl numel.
  change (ndimage_zoom (mk_nd [g; g; h] (drop h (data posemb))) [z; z; 1%Q]) with zoomed.
  rewrite Hzw.
  replace (g' * (g' * (h * 1)))%nat with (h * (g' * g' * 1 + 0))%nat by lia.
  rewrite Nat.Div0.mod_mul, Nat.div_mul by lia.
  rewrite (proj2 (Nat.eqb_neq _ 0)) by lia. simpl bind.
  unfold concatenate_axis1. cbv iota beta. simpl shape. cbv iota beta.
  rewrite Nat.eqb_refl. reflexivity.
Qed.

Import VisionTransformer.

(** what a step of the import leaves alone *)
Ltac frame_update :=
  apply preserves_update; intros ? ? H; inv_bind H; injection H as <-; reflexivity.

Lemma load_head_frame {X} (P : t -> X) weights :
  (forall vt hd, P (set_head vt hd) = P vt) -> preserves P (load_head weights).
Proof.
  intros HP s. unfold load_head.
  destruct (zero_head s);
    (apply preserves_bindS; [|intros _]; apply preserves_update; intros s1 s2 H;
     inv_bind H; injection H as <-; apply HP).
Qed.

Lemma load_embedding_posemb weights k conv get set :
  (forall e a, Embeddings.position_embeddings (set e a) = Embeddings.position_embeddings e) ->
  preserves posemb_of (load_embedding weights k conv get set).
Proof.
  intros Hset. apply preserves_update. intros s s' H. inv_bind H. injection H as <-.
  unfold posemb_of. simpl. apply Hset.
Qed.

Lemma load_embedding_classifier weights k conv get set :
  preserves classifier (load_embedding weights k conv get set).
Proof. frame_update. Qed.

Lemma load_encoder_norm_frame {X} (P : t -> X) weights :
  (forall vt e, P (set_encoder vt e) = P vt) -> preserves P (load_encoder_norm weights).
Proof.
  intros HP. unfold load_encoder_norm.
  apply preserves_bindS; [|intros _]; apply preserves_update; intros s1 s2 H;
    inv_bind H; injection H as <-; apply HP.
Qed.

Lemma prefix_posemb weights : preserves posemb_of (load_head_and_embeddings weights).
Proof.
  unfold load_head_and_embeddings.
  apply preserves_bindS; [apply load_head_frame; reflexivity | intros _].
  repeat (apply preserves_bindS; [apply load_embedding_posemb; reflexivity | intros _]).
  apply load_encoder_norm_frame. reflexivity.
Qed.

Lemma prefix_classifier weights : preserves classifier (load_head_and_embeddings weights).
Proof.
  unfold load_head_and_embeddings.
  apply preserves_bindS; [apply load_head_frame; reflexivity | intros _].
  repeat (apply preserves_bindS; [apply load_embedding_classifier | intros _]).
  apply load_encoder_norm_frame. reflexivity.
Qed.

Lemma load_blocks_posemb weights : preserves posemb_of (load_blocks weights).
Proof. intros s. unfold load_blocks. destruct (Encoder.load_layers _ _ _). reflexivity. Qed.

Lemma load_hybrid_posemb weights : preserves posemb_of (load_hybrid weights).
Proof.
  intros s. unfold load_hybrid. destruct (Embeddings.hybrid _); [|reflexivity].
  destruct (Embeddings.hybrid_model _); [|reflexivity].
  destruct (ResNetV2_load_from _ _). reflexivity.
Qed.

Lemma load_from_posemb_is_load_posemb weights vt vt1 :
  load_head_and_embeddings weights vt = (Ok tt, vt1) ->
  posemb_of (snd (load_from weights vt)) = posemb_of (snd (load_posemb weights vt1)).
Proof.
  intros H. unfold load_from. rewrite (bindS_Ok _ _ _ _ _ H).
  apply bindS_snd. intros _.
  apply preserves_bindS; [apply load_blocks_posemb | intros _; apply load_hybrid_posemb].
Qed.

(** C8, amended: when the copies before it succeed, the classifier is
    ["token"], and the checkpoint's table and the model's hold [g * g] and
    [g' * g'] spatial rows of one width, with [g], [g'] positive and
    different, the table after [load_from] has the model's shape, its first
    row is the checkpoint's first row, and the other rows are the zoom of the
    checkpoint's other rows, seen as a [g] by [g] grid, to [g'] by [g'];
    [g] and [g'] are the floors of the square roots of the two counts.  The
    zoom is assumed to give the rounded sizes it documents. *)
Theorem load_from_resizes_square_posemb (weights : weights_t) (vt vt1 : t)
    (posemb : ndarray) (g g' h : nat) :
  load_head_and_embeddings weights vt = (Ok tt, vt1) ->
  classifier vt = "token" ->
  weights !! posemb_key = Some posemb ->
  shape posemb = [1; S (g * g); h] -> wf posemb ->
  shape (posemb_of vt) = [1; S (g' * g'); h] ->
  g <> g' -> (0 < g)%nat -> (0 < g')%nat ->
  let z := (Z.of_nat g' # Pos.of_nat g)%Q in
  let grid := mk_nd [g; g; h] (drop h (data posemb)) in
  let zoomed := ndimage_zoom grid [z; z; 1%Q] in
  shape zoomed = zip_with zoom_size (shape grid) [z; z; 1%Q] -> wf zoomed ->
  Nat.sqrt (g * g) = g /\ Nat.sqrt (g' * g') = g' /\
  posemb_of (snd (load_from weights vt))
  = mk_nd [1; S (g' * g'); h] (take h (data posemb) ++ data zoomed).
Proof.
  intros Hpre Hcl Hk Hs Hw Hn Hne Hg Hg' z grid zoomed Hzs Hzw.
  split; [apply Nat.sqrt_square|]. split; [apply Nat.sqrt_square|].
  rewrite (load_from_posemb_is_load_posemb _ _ _ Hpre).
  assert (Hpe : posemb_of vt1 = posemb_of vt).
  { pose proof (prefix_posemb weights vt) as E. rewrite Hpre in E. exact E. }
  assert (Hcl1 : classifier vt1 = "token").
  { pose proof (prefix_classifier weights vt) as E. rewrite Hpre in E. simpl in E. congruence. }
  unfold posemb_of in Hpe, Hn.
  unfold load_posemb, bindS, lift, update, getitem.
  unfold posemb_key in Hk. rewrite Hk. simpl bind. cbv iota beta.
  rewrite Hpe, Hcl1.
  assert (Hsh : shape_eqb (shape posemb)
            (shape (Embeddings.position_embeddings (embeddings vt))) = false).
  { unfold shape_eqb. destruct (decide _) as [E|E]; [|reflexivity].
    rewrite Hs, Hn in E. injection E as E. exfalso. nia. }
  rewrite Hsh.
  rewrite (resize_posemb_square posemb _ g g' h Hs Hw Hn Hg Hg' Hzs Hzw).
  simpl bind. rewrite copy_same_shape.
  - simpl. unfold posemb_of. reflexivity.
  - simpl. congruence.
  - unfold wf in *. rewrite Hs in Hw. rewrite Hzs in Hzw. simpl in Hw, Hzw.
    unfold z in Hzw. rewrite !zoom_size_exact, zoom_size_one in Hzw by exact Hg.
    cbn [shape data numel fold_right]. rewrite length_app, length_take.
    fold z grid zoomed. lia.
Qed.
End PosembImport.

Lemma fst_Ok_pair {A S} (p : result A * S) (a : A) :
  fst p = Ok a -> p = (Ok a, snd p).
Proof. destruct p as [r s]. simpl. intros ->. reflexivity. Qed.

Lemma tiny_prefix n :
  fst (VisionTransformer.load_head_and_embeddings tiny_checkpoint (tiny_vit false n []))
  = Ok tt.
Proof. vm_compute. reflexivity. Qed.

(** a model over two patches (an image of one by two pixels): the count is
    not a square, the resized table has two rows and the copy into the
    three rows of the model raises *)
Lemma non_square_target :
  VisionTransformer.load_from tiny_checkpoint (tiny_vit false 3 [])
  = (Raise RuntimeError,
     snd (VisionTransformer.load_head_and_embeddings tiny_checkpoint (tiny_vit false 3 []))).
Proof. reflexivity. Qed.

(** on that model the table is left all zero: its first row is not the
    checkpoint's *)
Lemma resize_counterexample : ~ resize_claim (tiny_vit false 3 []) tiny_checkpoint.
Proof.
  intros H. specialize (H (mk_nd [1; 2; 1] [5%R; 7%R]) eq_refl).
  destruct H as (_ & Hrow & _); [discriminate | reflexivity |].
  rewrite non_square_target in Hrow. vm_compute in Hrow.
  injection Hrow as Hrow. lra.
Qed.

(** a one-patch checkpoint imported into a model over two by two patches *)
Lemma load_from_resizes_square_posemb_witness :
  posemb_of (snd (VisionTransformer.load_from tiny_checkpoint (tiny_vit false 5 [])))
  = mk_nd [1; 5; 1] [5%R; 7%R; 7%R; 7%R; 7%R].
Proof.
  pose proof (load_from_resizes_square_posemb tiny_checkpoint (tiny_vit false 5 [])
                (snd (VisionTransformer.load_head_and_embeddings tiny_checkpoint
                        (tiny_vit false 5 [])))
                (mk_nd [1; 2; 1] [5%R; 7%R]) 1 2 1) as H.
  destruct H as (_ & _ & ->).
  - apply fst_Ok_pair, tiny_prefix.
  - reflexivity.
  - reflexivity.
  - reflexivity.
  - reflexivity.
  - reflexivity.
  - lia.
  - lia.
  - lia.
  - reflexivity.
  - reflexivity.
  - vm_compute. apply (f_equal (mk_nd _)).
    repeat (apply f_equal2; [lra|]). reflexivity.
Defined.

(** ** [VisionTransformer.forward] *)

Section ForwardProperties.
Context {rt : Runtime}.

(** C9: a model whose first block has the plain [Attention] never returns
    from [forward], whatever the image batch, the labels and the flag. *)
Theorem vit_forward_plain_attention_raises
    nc zh cl emb vis hs nb ld an fn f (a : Attention.t) rest norm hd
    (us : nat -> R) (x : T4 R) (labels : option (list Z)) (flag : bool) :
  exists e,
    VisionTransformer.forward
      (VisionTransformer.mk nc zh cl
         (Transformer.mk emb
            (Encoder.mk vis
               (Block.mk hs nb ld an fn f (Block.PlainAttention a) :: rest) norm))
         hd) us x labels flag = Raise e.
Proof.
  unfold VisionTransformer.forward, Transformer.forward. simpl.
  destruct (Embeddings.forward emb x) as [y|e]; simpl; [|eauto].
  unfold Encoder.forward. simpl.
  destruct (block_forward_plain_attention_never_ok hs nb ld an fn f a (us 0) y) as [e ->].
  simpl. eauto.
Qed.

(** the three ways out of [forward] once the transformer has returned *)
Lemma vit_forward_dispatch (vt : VisionTransformer.t) us x enc labels :
  Transformer.forward (VisionTransformer.transformer vt) us x = Ok enc ->
  VisionTransformer.forward vt us x labels true = Ok (VisionTransformer.Encoded enc) /\
  (forall x0 logits,
     VisionTransformer.select_first enc = Ok x0 ->
     mapM (Linear.forward1 (VisionTransformer.head vt)) x0 = Ok logits ->
     VisionTransformer.forward vt us x None false = Ok (VisionTransformer.Logits logits) /\
     length logits = length enc /\
     (forall ls rows loss,
        VisionTransformer.view_rows (VisionTransformer.num_classes vt) logits = Ok rows ->
        CrossEntropyLoss rows ls = Ok loss ->
        VisionTransformer.forward vt us x (Some ls) false
        = Ok (VisionTransformer.Loss loss))).
Proof.
  intros H. unfold VisionTransformer.forward. rewrite H. simpl. split; [reflexivity|].
  intros x0 logits H0 Hl. rewrite H0. simpl. rewrite Hl. simpl.
  split; [reflexivity|]. split.
  - apply mapM_length in Hl. apply mapM_length in H0. congruence.
  - intros ls rows loss Hr Hc. rewrite Hr. simpl. rewrite Hc. reflexivity.
Qed.

End ForwardProperties.

(** the default model with one block, on an image of one by two pixels *)
Example tiny_vit_forward_raises :
  VisionTransformer.forward (rt := inference_runtime)
    (tiny_vit false 3 [plain_block]) (fun _ => 0%R)
    [[[[1%R; 2%R]]; [[1%R; 2%R]]; [[1%R; 2%R]]]] None false
  = Raise TypeError.
Proof. cbn. reflexivity. Qed.

(** * Further properties *)

Local Open Scope R_scope.

(** ** Further properties of the attention paths *)

Lemma Rsum_exp_fill srow mrow :
  Rsum (map exp_score (zip_with fill srow (map negb mrow)))
  = masked_sum mrow (map exp srow).
Proof.
  unfold masked_sum. revert mrow; induction srow as [|s srow IH]; intros [|m mrow]; simpl;
    try reflexivity.
  rewrite IH. destruct m; simpl; ring.
Qed.

Lemma Rsum_exp_all srow : Rsum (map exp_score (map Fin srow)) = Rsum (map exp srow).
Proof. induction srow as [|s srow IH]; simpl; [reflexivity|]. rewrite IH. reflexivity. Qed.

Lemma Rsum_nonneg (l : list R) : Forall (fun v => 0 <= v) l -> 0 <= Rsum l.
Proof. induction 1 as [|v l Hv _ IH]; simpl; lra. Qed.

Lemma masked_sum_le mrow (l : list R) :
  Forall (fun v => 0 <= v) l -> masked_sum mrow l <= Rsum l.
Proof.
  unfold masked_sum. intros H. revert mrow; induction H as [|v l Hv Hl IH]; intros [|m mrow];
    simpl; try lra.
  - pose proof (Rsum_nonneg l Hl). lra.
  - specialize (IH mrow). destruct m; lra.
Qed.

Lemma Forall_exp_nonneg srow : Forall (fun v => 0 <= v) (map exp srow).
Proof.
  induction srow as [|s srow IH]; simpl; constructor; auto.
  left. apply exp_pos.
Qed.

Lemma masked_sum_exp_pos mrow srow j :
  length mrow = length srow -> mrow !! j = Some true ->
  0 < masked_sum mrow (map exp srow).
Proof.
  intros Hlen Hj. rewrite <- Rsum_exp_fill.
  destruct (lookup_lt_is_Some_2 srow j) as [s Hs].
  { rewrite <- Hlen. eapply lookup_lt_Some; eauto. }
  apply (Rsum_exp_pos _ j s).
  apply lookup_zip_with_Some. exists s, false. repeat split; auto.
  rewrite lookup_map, Hj. reflexivity.
Qed.

(** forward reading of a broadcast, row by row *)
Lemma broadcast4_row_fwd {A B C} (f : A -> B -> C) t m r b h i trow mrow :
  broadcast4 f t m = Ok r ->
  row4 t b h i = Some trow -> row3 m h i = Some mrow ->
  length mrow = length trow ->
  row4 r b h i = Some (zip_with f trow mrow).
Proof.
  unfold broadcast4, broadcast3, row4, row3. intros Hr Ht Hm Hlen.
  destruct (t !! b) as [tb|] eqn:Htb; [|discriminate].
  destruct (tb !! h) as [th|] eqn:Hth; [|discriminate].
  destruct (m !! h) as [mh|] eqn:Hmh; [|discriminate].
  destruct (mapM_lookup _ _ _ _ _ Hr Htb) as (rb & -> & Hb).
  destruct (broadcast_lookup _ _ _ _ _ _ _ Hb Hth Hmh) as (rh & -> & Hh).
  destruct (broadcast_lookup _ _ _ _ _ _ _ Hh Ht Hm) as (ri & -> & Hi).
  rewrite broadcast_pure_same_length in Hi by exact Hlen. congruence.
Qed.

Section MoreAttention.
Context {rt : Runtime}.

(** X3: in pre-softmax pruning mode an unmasked entry of a row is
    [exp v] over the sum of [exp] over the unmasked scores of the row only,
    which is at least the plain softmax value [exp v / sum of all exp]: the
    probability mass of the masked positions is redistributed over the
    unmasked ones. *)
Theorem pre_softmax_renormalises (a : Attention.t) s P M b h i srow mrow :
  Attention.prune_mode a = true ->
  Attention.prune_after_softmax a = false ->
  Attention.attention_mask a = Some M ->
  Attention.probabilities a s = Ok P ->
  row4 s b h i = Some srow ->
  row3 M h i = Some mrow ->
  length mrow = length srow ->
  (exists j, mrow !! j = Some true) ->
  exists prow, row4 P b h i = Some prow /\
    forall j v, mrow !! j = Some true -> srow !! j = Some v ->
      prow !! j = Some (exp v / masked_sum mrow (map exp srow)) /\
      exp v / Rsum (map exp srow) <= exp v / masked_sum mrow (map exp srow).
Proof.
  intros Hpm Hpas HM HP Hs Hm Hlen [j0 Hj0].
  destruct (pre_softmax_probabilities _ _ _ _ Hpm Hpas HM HP) as (filled & Hfill & ->).
  unfold masked_fill_neg_inf in Hfill.
  assert (Hrow : row4 filled b h i = Some (zip_with fill srow (map negb mrow))).
  { eapply broadcast4_row_fwd; eauto.
    - unfold invert. rewrite row3_map3, Hm. reflexivity.
    - rewrite length_map. exact Hlen. }
  eexists. split; [rewrite softmax_row4, Hrow; reflexivity|].
  intros j v Hj Hv. split.
  - rewrite softmax_row_lookup, Rsum_exp_fill.
    assert (Hf : zip_with fill srow (map negb mrow) !! j = Some (Fin v)).
    { apply lookup_zip_with_Some. exists v, false. repeat split; auto.
      rewrite lookup_map, Hj. reflexivity. }
    rewrite Hf. reflexivity.
  - pose proof (masked_sum_exp_pos mrow srow j0 Hlen Hj0) as Hpos.
    pose proof (masked_sum_le mrow _ (Forall_exp_nonneg srow)) as Hle.
    pose proof (exp_pos v) as Hv0.
    unfold Rdiv. apply Rmult_le_compat_l; [lra|].
    apply Rinv_le_contravar; lra.
Qed.

Lemma Rsum_map_div {A} (g : A -> R) (z : R) (l : list A) :
  Rsum (map (fun s => g s / z) l) = Rsum (map g l) / z.
Proof.
  induction l as [|x l IH]; simpl; [unfold Rdiv; ring|]. rewrite IH. unfold Rdiv. ring.
Qed.

Lemma softmax_row_distribution (row : list score) j r :
  row !! j = Some (Fin r) ->
  Rsum (softmax_row row) = 1 /\ Forall (fun p => 0 <= p <= 1) (softmax_row row).
Proof.
  intros Hj. pose proof (Rsum_exp_pos _ _ _ Hj) as Hz. unfold softmax_row.
  split.
  - rewrite Rsum_map_div. field. lra.
  - apply Forall_forall. intros p Hp. apply list_elem_of_In, in_map_iff in Hp.
    destruct Hp as (s & <- & Hs).
    pose proof (exp_score_nonneg s) as H0.
    assert (Hle : exp_score s <= Rsum (map exp_score row)).
    { clear -Hs. induction row as [|s0 row IH]; [destruct Hs|]. simpl.
      pose proof (exp_score_nonneg s0). pose proof (Rsum_exp_nonneg row).
      destruct Hs as [->|Hs]; [lra|]. specialize (IH Hs). lra. }
    split.
    + apply Rmult_le_pos; [lra|]. left. apply Rinv_0_lt_compat. lra.
    + apply (Rmult_le_reg_r (Rsum (map exp_score row))); [lra|].
      unfold Rdiv. rewrite Rmult_assoc, Rinv_l by lra. lra.
Qed.

(** X4: without pruning every non-empty row of the probability tensor sums
    to 1 and each of its entries lies between 0 and 1, the bounds included
    (exact arithmetic gives a positive value everywhere; the bounds stated
    are the ones that survive the rounding of a small exponential to 0). *)
Theorem plain_rows_are_distributions (a : Attention.t) x P b h i prow :
  Attention.prune_mode a = false ->
  Attention.forward_probs a x = Ok P ->
  row4 P b h i = Some prow ->
  prow <> [] ->
  Rsum prow = 1 /\ Forall (fun p => 0 <= p <= 1) prow.
Proof.
  intros Hpm HP Hrow Hne.
  apply forward_probs_inv in HP. destruct HP as [s HP].
  unfold Attention.probabilities in HP. rewrite Hpm in HP. injection HP as <-.
  rewrite softmax_row4 in Hrow.
  destruct (row4 (map4 Fin s) b h i) as [frow|] eqn:Hf; [|discriminate].
  simpl in Hrow. injection Hrow as <-.
  assert (Hfin : exists srow, frow = map Fin srow).
  { unfold row4, row3, map4, map3 in Hf. rewrite lookup_map in Hf.
    destruct (s !! b) as [sb|]; [|discriminate]. simpl in Hf.
    rewrite lookup_map in Hf. destruct (sb !! h) as [sh|]; [|discriminate]. simpl in Hf.
    rewrite lookup_map in Hf. destruct (sh !! i) as [si|]; [|discriminate]. simpl in Hf.
    injection Hf as <-. eauto. }
  destruct Hfin as [srow ->].
  destruct srow as [|v srow]; [exfalso; apply Hne; reflexivity|].
  exact (softmax_row_distribution (map Fin (v :: srow)) 0 v eq_refl).
Qed.

(** X1: in post-softmax pruning mode every entry of the probability tensor
    [forward] computes is the plain softmax entry where the mask is false
    and 0 where the mask is true, for every batch element, head and pair of
    positions. *)
Theorem post_softmax_keeps_false_positions (a : Attention.t) x s v P M b h i j m p :
  Attention.prune_mode a = true ->
  Attention.prune_after_softmax a = true ->
  Attention.attention_mask a = Some M ->
  Attention.project a x = Ok (s, v) ->
  Attention.forward_probs a x = Ok P ->
  get3 M h i j = Some m ->
  get4 (softmax (map4 Fin s)) b h i j = Some p ->
  get4 P b h i j = Some (if m then 0 else p).
Proof.
  intros Hpm Hpas HM Hpr HP Hm Hp.
  unfold Attention.forward_probs in HP. rewrite Hpr in HP. simpl in HP.
  eapply post_softmax_entry; eauto.
Qed.

Lemma ones_mask_all_true heads n : all_true (Attention.ones_mask heads n).
Proof.
  unfold all_true, Attention.ones_mask.
  repeat (apply Forall_replicate). reflexivity.
Qed.

(** X2: an attention as [__init__] builds it in pre-softmax pruning mode (the
    mask all true) returns, whenever it returns, exactly what the attention
    built from the same arguments without pruning returns on that input. *)
Theorem fresh_pre_softmax_is_plain hidden heads rate vis pas n
    wq bq wk bk wv bv wo bo (a a' : Attention.t) x r :
  Attention.init hidden heads rate vis true false n wq bq wk bk wv bv wo bo = Ok a ->
  Attention.init hidden heads rate vis false pas n wq bq wk bk wv bv wo bo = Ok a' ->
  fst (Attention.forward a x) = Ok r ->
  fst (Attention.forward a' x) = Ok r.
Proof.
  unfold Attention.init. destruct (Nat.eqb heads 0); [discriminate|].
  intros [= <-] [= <-]. apply pre_softmax_all_true_forward. apply ones_mask_all_true.
Qed.

(** X6: what [forward] changes in the module. With recording off and no
    statistics object the module is unchanged; when the probability tensor
    cannot be computed the call raises and the module is unchanged; with
    [record_attention_probs] set and the probability tensor computed,
    [attention_probs] holds that tensor after the call, whether the call
    then returns or raises in the [matmul] or the output projection, and
    the second component of a returned pair is that tensor when [vis] is
    set and [None] otherwise; the mask and the four projections are never
    changed. *)
Theorem forward_recording (a : Attention.t) x :
  (Attention.record_attention_probs a = false ->
   Attention.record_attn_mean_var a = None ->
   snd (Attention.forward a x) = a) /\
  (forall e, Attention.forward_probs a x = Raise e ->
     Attention.forward a x = (Raise e, a)) /\
  (forall P, Attention.record_attention_probs a = true ->
     Attention.forward_probs a x = Ok P ->
     Attention.attention_probs (snd (Attention.forward a x)) = Some P /\
     (forall out w, fst (Attention.forward a x) = Ok (out, w) ->
        w = if Attention.vis a then Some P else None)) /\
  Attention.attention_mask (snd (Attention.forward a x)) = Attention.attention_mask a /\
  Attention.query (snd (Attention.forward a x)) = Attention.query a /\
  Attention.key (snd (Attention.forward a x)) = Attention.key a /\
  Attention.value (snd (Attention.forward a x)) = Attention.value a /\
  Attention.out (snd (Attention.forward a x)) = Attention.out a.
Proof.
  unfold Attention.forward, Attention.forward_probs.
  destruct (Attention.project a x) as [[s vl]|e]; simpl.
  2:{ repeat split; auto; intros; try discriminate. congruence. }
  destruct (Attention.probabilities a s) as [P|e]; simpl.
  2:{ repeat split; auto; intros; try discriminate. congruence. }
  unfold Attention.record.
  split; [|split; [|split]].
  - intros -> Hn. destruct (Attention.prune_mode a); [rewrite Hn|]; reflexivity.
  - intros e He. discriminate.
  - intros P' Hr [= <-]. rewrite Hr. split.
    + destruct (Attention.prune_mode _); [|reflexivity].
      destruct (Attention.record_attn_mean_var _); reflexivity.
    + intros out w Ho. unfold Attention.output in Ho.
      destruct (matmul4 _ _ _); simpl in Ho; [|discriminate].
      destruct (Linear.forward _ _); simpl in Ho; [|discriminate].
      injection Ho as _ <-. reflexivity.
  - destruct (Attention.record_attention_probs a);
      (destruct (Attention.prune_mode _); [|repeat split; reflexivity]);
      (destruct (Attention.record_attn_mean_var _); repeat split; reflexivity).
Qed.
End MoreAttention.
Local Close Scope R_scope.

(** ** The head split and its inverse *)




Section HeadsRoundTrip.
Context {rt : Runtime}.

End HeadsRoundTrip.

(** ** Blocks and the encoder loops *)

Section MoreBlocks.
Context {rt : Runtime}.

(** X7: a block built with [new_backrazor] and [layer_drop] exists only for
    [0 < drop_prob < 1]; in training mode, with [y] the output of its
    attention half, a draw below [drop_prob] makes [forward] return
    [ffn_norm(y) + y] (the wrapper hands the normalised input on, the MLP is
    not run), and any other draw [MLP(ffn_norm(y)) * (1 - drop_prob) + y]. *)
Theorem block_forward_layer_drop hs (p u : R) n1 n2 s1 s2 mlp pmlp a pa
    (blk : Block.t) (x : T3 R) :
  Block.init hs true true p n1 n2 s1 s2 mlp pmlp a pa = Ok blk ->
  (0 < p < 1)%R /\
  let y := tadd (AttentionActPrune_forward pa (LayerNormSparse.forward s1 x)) x in
  let z := LayerNormSparse.forward s2 y in
  ((u < p)%R -> Block.forward blk u x = Ok (tadd z y)) /\
  (~ (u < p)%R ->
   Block.forward blk u x = Ok (tadd (tscale (MlpActPrune_forward pmlp z) (1 - p)) y)).
Proof.
  unfold Block.init, StochasticDepth.init. simpl.
  destruct (Rlt_dec 0 p) as [H0|]; [|discriminate].
  destruct (Rlt_dec p 1) as [H1|]; [|discriminate].
  simpl. intros [= <-]. split; [lra|].
  unfold Block.forward. simpl. unfold StochasticDepth.forward. simpl. split; intros Hu.
  - destruct (Rlt_dec u p); [reflexivity | contradiction].
  - destruct (Rlt_dec u p); [contradiction | reflexivity].
Qed.

(** X9: the loop of [Encoder.forward] composes: running the blocks [l1 ++ l2]
    is running [l1] and then [l2] on its result, the blocks of [l2] taking
    the draws from index [length l1] on; an exception in [l1] is the
    exception of the whole. *)
Theorem run_layers_app (l1 l2 : list Block.t) (i : nat) (us : nat -> R) (x : T3 R) :
  Encoder.run_layers (l1 ++ l2) i us x
  = (y <- Encoder.run_layers l1 i us x ;; Encoder.run_layers l2 (i + length l1) us y).
Proof.
  revert i x; induction l1 as [|blk l1 IH]; intros i x; simpl.
  - rewrite Nat.add_0_r. reflexivity.
  - destruct (Block.forward blk (us i) x) as [y|e]; simpl; [|reflexivity].
    rewrite IH. replace (S i + length l1) with (i + S (length l1)) by lia. reflexivity.
Qed.

Lemma load_layers_length (weights : weights_t) (l : list Block.t) (i : nat) :
  length (snd (Encoder.load_layers weights i l)) = length l.
Proof.
  revert i; induction l as [|blk l IH]; intros i; simpl; [reflexivity|].
  destruct (Block.load_from weights (pretty i) blk) as [[[]|e] blk']; simpl; [|reflexivity].
  specialize (IH (S i)). destruct (Encoder.load_layers weights (S i) l). simpl in *. lia.
Qed.

(** X10: the import loop over the blocks composes: [l1 ++ l2] is imported as
    [l1] under the names [i ...] and then [l2] under the names
    [i + length l1 ...]; when a block of [l1] raises, the blocks of [l2] are
    untouched; the number of blocks never changes. *)
Theorem load_layers_app (weights : weights_t) (l1 l2 : list Block.t) (i : nat) :
  length (snd (Encoder.load_layers weights i l1)) = length l1 /\
  Encoder.load_layers weights i (l1 ++ l2)
  = match Encoder.load_layers weights i l1 with
    | (Ok _, l1') =>
        let (r, l2') := Encoder.load_layers weights (i + length l1) l2 in (r, l1' ++ l2')
    | (Raise e, l1') => (Raise e, l1' ++ l2)
    end.
Proof.
  revert i; induction l1 as [|blk l1 IH]; intros i; simpl.
  - rewrite Nat.add_0_r. split; [reflexivity|].
    destruct (Encoder.load_layers weights i l2). reflexivity.
  - destruct (Block.load_from weights (pretty i) blk) as [[[]|e] blk']; simpl.
    + destruct (IH (S i)) as [Hlen Happ]. rewrite Happ.
      replace (S i + length l1) with (i + S (length l1)) by lia.
      destruct (Encoder.load_layers weights (S i) l1) as [[[]|e] l1']; simpl in *.
      * split; [f_equal; exact Hlen|].
        destruct (Encoder.load_layers weights (i + S (length l1)) l2). reflexivity.
      * split; [f_equal; exact Hlen | reflexivity].
    + split; reflexivity.
Qed.

Lemma attention_entry_missing (blk : Block.t) (weights : weights_t) (ROOT name : string) :
  (weights !! pjoin ROOT name "kernel" = None \/
   weights !! pjoin ROOT name "bias" = None) ->
  (exists e, Block.attention_kernel blk weights ROOT name = Raise e) \/
  (exists e, Block.attention_bias weights ROOT name = Raise e).
Proof.
  intros [H|H]; [left | right];
    unfold Block.attention_kernel, Block.attention_bias, getitem; rewrite H; simpl; eauto.
Qed.

(** X8: [Block.load_from] reads the eight attention entries of the checkpoint
    before it writes anything: when the kernel or the bias of one of the
    four attention projections is missing, it raises and the block is
    exactly as before, whatever the kind of the block. *)
Theorem block_load_from_atomic_on_attention (blk : Block.t) (weights : weights_t)
    (n_block : string) (name : string) :
  In name [ATTENTION_Q; ATTENTION_K; ATTENTION_V; ATTENTION_OUT] ->
  (weights !! pjoin ("Transformer/encoderblock_" ++ n_block) name "kernel" = None \/
   weights !! pjoin ("Transformer/encoderblock_" ++ n_block) name "bias" = None) ->
  exists e, Block.load_from weights n_block blk = (Raise e, blk).
Proof.
  intros Hin Hmiss. apply (attention_entry_missing blk) in Hmiss.
  unfold Block.load_from, bindS, lift. cbv zeta.
  repeat match goal with
  | |- context [Block.attention_kernel ?b ?w ?r ?n] =>
      destruct (Block.attention_kernel b w r n) eqn:?; [|eauto]
  | |- context [Block.attention_bias ?w ?r ?n] =>
      destruct (Block.attention_bias w r n) eqn:?; [|eauto]
  end.
  exfalso. simpl in Hin.
  destruct Hin as [<-|[<-|[<-|[<-|[]]]]]; destruct Hmiss as [[e He]|[e He]]; congruence.
Qed.

(** the query kernel is the first entry read *)
Lemma block_load_from_missing_query (blk : Block.t) (weights : weights_t) (n_block : string) :
  weights !! pjoin ("Transformer/encoderblock_" ++ n_block) ATTENTION_Q "kernel" = None ->
  Block.load_from weights n_block blk
  = (Raise (KeyError (pjoin ("Transformer/encoderblock_" ++ n_block) ATTENTION_Q "kernel")),
     blk).
Proof.
  intros H. unfold Block.load_from, bindS, lift, Block.attention_kernel, getitem. cbv zeta.
  rewrite H. reflexivity.
Qed.
End MoreBlocks.

(** ** The import on the default model *)

Section MoreImport.
Context {rt : Runtime}.

Lemma load_embedding_frame {X} (P : VisionTransformer.t -> X) weights k conv get set :
  (forall vt e, P (VisionTransformer.set_embeddings vt e) = P vt) ->
  preserves P (VisionTransformer.load_embedding weights k conv get set).
Proof.
  intros HP. apply preserves_update. intros s s' H. inv_bind H. injection H as <-. apply HP.
Qed.

Lemma load_encoder_norm_layers weights :
  preserves layers_of (VisionTransformer.load_encoder_norm weights).
Proof.
  unfold VisionTransformer.load_encoder_norm.
  apply preserves_bindS; [|intros _]; apply preserves_update; intros s1 s2 H;
    inv_bind H; injection H as <-; reflexivity.
Qed.

Lemma load_posemb_frame {X} (P : VisionTransformer.t -> X) weights :
  (forall vt e, P (VisionTransformer.set_embeddings vt e) = P vt) ->
  preserves P (VisionTransformer.load_posemb weights).
Proof.
  intros HP. unfold VisionTransformer.load_posemb.
  apply preserves_bindS; [apply preserves_lift|]. intros posemb.
  apply preserves_update. intros s s' H. inv_bind H. injection H as <-. apply HP.
Qed.

Lemma prefix_layers weights :
  preserves layers_of (VisionTransformer.load_head_and_embeddings weights).
Proof.
  unfold VisionTransformer.load_head_and_embeddings.
  apply preserves_bindS; [apply load_head_frame; reflexivity | intros _].
  repeat (apply preserves_bindS; [apply load_embedding_frame; reflexivity | intros _]).
  apply load_encoder_norm_layers.
Qed.

Lemma block_load_from_plain_never_ok
    hs nb ld an fn f (a : Attention.t) (weights : weights_t) (n_block : string) :
  exists e blk', Block.load_from weights n_block
                   (Block.mk hs nb ld an fn f (Block.PlainAttention a)) = (Raise e, blk').
Proof.
  unfold Block.load_from, bindS, lift.
  repeat match goal with
  | |- context [Block.attention_kernel ?b ?w ?r ?n] =>
      destruct (Block.attention_kernel b w r n); [|eauto]
  | |- context [Block.attention_bias ?w ?r ?n] =>
      destruct (Block.attention_bias w r n); [|eauto]
  end.
  unfold Block.on_attn_module, update. simpl. eauto.
Qed.

(** X11: [VisionTransformer.load_from] raises on every checkpoint when the
    first block of the encoder holds the plain [Attention] (the model the
    default arguments build, with at least one layer). *)
Theorem vit_load_from_plain_attention_raises (weights : weights_t)
    (vt : VisionTransformer.t) hs nb ld an fn f (a : Attention.t) rest :
  layers_of vt = Block.mk hs nb ld an fn f (Block.PlainAttention a) :: rest ->
  exists e, fst (VisionTransformer.load_from weights vt) = Raise e.
Proof.
  intros Hl. unfold VisionTransformer.load_from, bindS.
  pose proof (prefix_layers weights vt) as H1.
  destruct (VisionTransformer.load_head_and_embeddings weights vt) as [[[]|e] vt1];
    simpl in *; [|eauto].
  pose proof (load_posemb_frame layers_of weights (fun _ _ => eq_refl) vt1) as H2.
  destruct (VisionTransformer.load_posemb weights vt1) as [[[]|e] vt2]; simpl in *; [|eauto].
  unfold VisionTransformer.load_blocks. unfold layers_of in *.
  rewrite H2, H1, Hl. simpl.
  destruct (block_load_from_plain_never_ok hs nb ld an fn f a weights (pretty 0))
    as (e & blk' & ->).
  simpl. eauto.
Qed.
End MoreImport.

(** ** Array conversion and the position table *)

Lemma copy_shape (dst src a : ndarray) : copy_ dst src = Ok a -> shape a = shape dst.
Proof.
  unfold copy_. destruct (Nat.ltb _ _); [discriminate|].
  destruct (expand _ _ _); [|discriminate]. intros [= <-]. reflexivity.
Qed.

Lemma nth_map_seq {B} (g : nat -> B) (n i : nat) (d : B) :
  i < n -> nth i (map g (seq 0 n)) d = g i.
Proof.
  intros H. rewrite (nth_indep _ d (g 0)) by (rewrite length_map, length_seq; exact H).
  rewrite (map_nth g). rewrite seq_nth by exact H. reflexivity.
Qed.

Lemma index_lt (a n b m : nat) : a < n -> b < m -> a * m + b < n * m.
Proof.
  intros Ha Hb. apply Nat.lt_le_trans with (S a * m); [simpl; lia|].
  apply Nat.mul_le_mono_r. lia.
Qed.

(** X15: [np2th]: without [conv] the array is handed on unchanged; with
    [conv] an array that is not 4-dimensional raises [ValueError], and an
    [h, w, i, o] array becomes the [o, i, h, w] array whose entry
    [(co, ci, y, x)] is the entry [(y, x, ci, co)] of the input. *)
Theorem np2th_conv_is_HWIO_to_OIHW (a : ndarray) :
  np2th a false = Ok a /\
  (length (shape a) <> 4 -> np2th a true = Raise ValueError) /\
  (forall h w i o, shape a = [h; w; i; o] ->
     exists a', np2th a true = Ok a' /\ shape a' = [o; i; h; w] /\ wf a' /\
       forall co ci y x, co < o -> ci < i -> y < h -> x < w ->
         nth (((co * i + ci) * h + y) * w + x) (data a') 0%R
         = nth (((y * w + x) * i + ci) * o + co) (data a) 0%R).
Proof.
  split; [reflexivity|]. split.
  - intros Hn. unfold np2th, transpose_3201.
    destruct (shape a) as [|? [|? [|? [|? [|? ?]]]]]; try reflexivity.
    exfalso. apply Hn. reflexivity.
  - intros h w i o Hs. unfold np2th, transpose_3201. rewrite Hs.
    eexists. split; [reflexivity|]. split; [reflexivity|].
    assert (L1 : forall co ci y, length (map (fun x => nth (((y * w + x) * i + ci) * o + co) (data a) 0%R) (seq 0 w)) = w).
    { intros. rewrite length_map, length_seq. reflexivity. }
    assert (L2 : forall co ci, length (flat_map (fun y => map (fun x => nth (((y * w + x) * i + ci) * o + co) (data a) 0%R) (seq 0 w)) (seq 0 h)) = h * w).
    { intros. rewrite (flat_map_length_const _ _ w); [rewrite length_seq; reflexivity|].
      intros y. apply L1. }
    assert (L3 : forall co, length (flat_map (fun ci => flat_map (fun y => map (fun x => nth (((y * w + x) * i + ci) * o + co) (data a) 0%R) (seq 0 w)) (seq 0 h)) (seq 0 i)) = i * (h * w)).
    { intros. rewrite (flat_map_length_const _ _ (h * w)); [rewrite length_seq; reflexivity|].
      intros ci. apply L2. }
    split.
    + unfold wf. simpl.
      rewrite (flat_map_length_const _ _ (i * (h * w))); [rewrite length_seq; lia|].
      intros co. apply L3.
    + intros co ci y x Hco Hci Hy Hx. simpl.
      replace (((co * i + ci) * h + y) * w + x) with (co * (i * (h * w)) + (ci * (h * w) + (y * w + x))) by ring.
      pose proof (index_lt y h x w Hy Hx) as Hyx.
      pose proof (index_lt ci i (y * w + x) (h * w) Hci Hyx) as Hcyx.
      rewrite (nth_flat_map_seq _ (i * (h * w))); [| intros; apply L3 | exact Hco | exact Hcyx].
      rewrite (nth_flat_map_seq _ (h * w)); [| intros; apply L2 | exact Hci | exact Hyx].
      rewrite (nth_flat_map_seq _ w); [| intros; apply L1 | exact Hy | exact Hx].
      simpl.
      rewrite (nth_map_seq (fun x => nth (((y * w + x) * i + ci) * o + co) (data a) 0%R))
        by exact Hx.
      reflexivity.
Qed.

Section MorePosemb.
Context {rt : Runtime}.

(** X12: when the copies that precede it succeed and the checkpoint's
    position table has the shape of the model's, the model's table after
    [load_from] is the checkpoint's, entry for entry (also when a later step
    of [load_from] raises). *)
Theorem load_from_copies_equal_posemb (weights : weights_t)
    (vt vt1 : VisionTransformer.t) (posemb : ndarray) :
  VisionTransformer.load_head_and_embeddings weights vt = (Ok tt, vt1) ->
  weights !! posemb_key = Some posemb ->
  shape posemb = shape (posemb_of vt) -> wf posemb ->
  posemb_of (snd (VisionTransformer.load_from weights vt)) = posemb.
Proof.
  intros Hpre Hk Hs Hw.
  rewrite (load_from_posemb_is_load_posemb _ _ _ Hpre).
  assert (Hpe : posemb_of vt1 = posemb_of vt).
  { pose proof (prefix_posemb weights vt) as E. rewrite Hpre in E. exact E. }
  unfold VisionTransformer.load_posemb, bindS, lift, update, getitem.
  unfold posemb_key in Hk. rewrite Hk. simpl bind. cbv iota beta.
  unfold posemb_of in *. rewrite Hpe.
  unfold shape_eqb. destruct (decide _) as [_|E]; [|contradiction].
  simpl bind. rewrite copy_same_shape by assumption. reflexivity.
Qed.

Lemma resize_posemb_square_no_token (classifier : string) (posemb posemb_new : ndarray)
    (g g' h : nat) :
  classifier <> "token"%string ->
  shape posemb = [1; g * g; h] -> wf posemb ->
  shape posemb_new = [1; g' * g'; h] ->
  0 < g -> 0 < g' ->
  let z := (Z.of_nat g' # Pos.of_nat g)%Q in
  let grid := mk_nd [g; g; h] (data posemb) in
  let zoomed := ndimage_zoom grid [z; z; 1%Q] in
  shape zoomed = zip_with zoom_size (shape grid) [z; z; 1%Q] -> wf zoomed ->
  resize_posemb classifier posemb posemb_new
  = Ok (mk_nd [1; g' * g'; h] (data zoomed)).
Proof.
  intros Hc Hs Hw Hn Hg Hg' z grid zoomed Hzs Hzw.
  unfold wf in Hw. rewrite Hs in Hw. simpl in Hw.
  assert (Hlen : length (data posemb) = h * (g * g)) by lia. clear Hw.
  assert (Hgg : g * g <> 0) by nia.
  assert (Hgg' : g' * g' <> 0) by nia.
  assert (Hzs' : shape zoomed = [g'; g'; h]).
  { rewrite Hzs. simpl. unfold z. rewrite !zoom_size_exact, zoom_size_one by exact Hg.
    reflexivity. }
  unfold wf in Hzw. rewrite Hzs' in Hzw. simpl in Hzw.
  subst zoomed grid z.
  unfold resize_posemb. rewrite (proj2 (String.eqb_neq _ _) Hc). cbv iota.
  unfold slice_tok, slice_grid. rewrite Hs, Hn. simpl bind.
  unfold len. simpl hd.
  rewrite !Nat.sub_0_r, !Nat.mul_1_r, !Nat.sqrt_square.
  simpl (0 * _). rewrite drop_0. simpl (Nat.min 0 _). simpl (0 * _).
  rewrite (take_ge (data posemb)) by lia.
  unfold reshape_infer at 1. simpl numel. simpl data.
  rewrite Nat.mul_1_r, Hlen.
  rewrite (proj2 (Nat.eqb_neq _ _) Hgg), Nat.Div0.mod_mul, Nat.div_mul by exact Hgg.
  simpl bind. rewrite (proj2 (Nat.eqb_neq g 0)) by lia.
  unfold reshape_infer. simpl numel. simpl app.
  rewrite Hzw.
  replace (g' * (g' * (h * 1))) with (h * (g' * g' * 1 + 0)) by lia.
  rewrite Nat.Div0.mod_mul, Nat.div_mul by lia.
  rewrite (proj2 (Nat.eqb_neq _ 0)) by lia. simpl bind.
  unfold concatenate_axis1. cbv iota beta. simpl shape. cbv iota beta.
  rewrite Nat.eqb_refl. reflexivity.
Qed.

(** X13: with a classifier other than ["token"] no row is set aside: a
    checkpoint table of [g * g] rows is resized as a whole [g, g, h] grid by
    the zoom factors [(g' / g, g' / g, 1)] and written as the model's
    [g' * g'] rows. *)
Theorem load_from_resizes_square_posemb_no_token (weights : weights_t)
    (vt vt1 : VisionTransformer.t) (posemb : ndarray) (g g' h : nat) :
  VisionTransformer.load_head_and_embeddings weights vt = (Ok tt, vt1) ->
  VisionTransformer.classifier vt <> "token"%string ->
  weights !! posemb_key = Some posemb ->
  shape posemb = [1; g * g; h] -> wf posemb ->
  shape (posemb_of vt) = [1; g' * g'; h] ->
  g <> g' -> 0 < g -> 0 < g' ->
  let z := (Z.of_nat g' # Pos.of_nat g)%Q in
  let grid := mk_nd [g; g; h] (data posemb) in
  let zoomed := ndimage_zoom grid [z; z; 1%Q] in
  shape zoomed = zip_with zoom_size (shape grid) [z; z; 1%Q] -> wf zoomed ->
  posemb_of (snd (VisionTransformer.load_from weights vt))
  = mk_nd [1; g' * g'; h] (data zoomed).
Proof.
  intros Hpre Hcl Hk Hs Hw Hn Hne Hg Hg' z grid zoomed Hzs Hzw.
  rewrite (load_from_posemb_is_load_posemb _ _ _ Hpre).
  assert (Hpe : posemb_of vt1 = posemb_of vt).
  { pose proof (prefix_posemb weights vt) as E. rewrite Hpre in E. exact E. }
  assert (Hcl1 : VisionTransformer.classifier vt1 = VisionTransformer.classifier vt).
  { pose proof (prefix_classifier weights vt) as E. rewrite Hpre in E. exact E. }
  unfold posemb_of in Hpe, Hn.
  unfold VisionTransformer.load_posemb, bindS, lift, update, getitem.
  unfold posemb_key in Hk. rewrite Hk. simpl bind. cbv iota beta.
  rewrite Hpe, Hcl1.
  assert (Hsh : shape_eqb (shape posemb)
            (shape (Embeddings.position_embeddings (VisionTransformer.embeddings vt))) = false).
  { unfold shape_eqb. destruct (decide _) as [E|E]; [|reflexivity].
    rewrite Hs, Hn in E. injection E as E. exfalso. nia. }
  rewrite Hsh.
  rewrite (resize_posemb_square_no_token _ posemb _ g g' h Hcl Hs Hw Hn Hg Hg' Hzs Hzw).
  simpl bind. rewrite copy_same_shape.
  - simpl. unfold posemb_of. reflexivity.
  - simpl. congruence.
  - unfold wf in *. rewrite Hzs in Hzw. simpl in Hzw.
    unfold z in Hzw. rewrite !zoom_size_exact, zoom_size_one in Hzw by exact Hg.
    cbn [shape data numel fold_right]. fold z grid zoomed. lia.
Qed.
End MorePosemb.

(** ** [swish] *)

Lemma sigmoid_range (x : R) : (0 < sigmoid x < 1)%R.
Proof.
  unfold sigmoid. pose proof (exp_pos (- x)) as H.
  split.
  - apply Rdiv_lt_0_compat; lra.
  - apply (Rmult_lt_reg_r (1 + exp (- x))); [lra|].
    unfold Rdiv. rewrite Rmult_assoc, Rinv_l by lra. lra.
Qed.

Lemma exp_le_1 (y : R) : (y <= 0 -> exp y <= 1)%R.
Proof.
  intros [Hy| ->]; [|rewrite exp_0; lra].
  left. rewrite <- exp_0. apply exp_increasing. exact Hy.
Qed.

Lemma exp_ge_1 (y : R) : (0 <= y -> 1 <= exp y)%R.
Proof.
  intros [Hy| <-]; [|rewrite exp_0; lra].
  left. rewrite <- exp_0. apply exp_increasing. exact Hy.
Qed.

(** [sigmoid] is at least a half exactly from 0 on *)
Lemma sigmoid_half (x : R) :
  ((0 <= x -> 1 / 2 <= sigmoid x) /\ (x <= 0 -> sigmoid x <= 1 / 2))%R.
Proof.
  unfold sigmoid. pose proof (exp_pos (- x)) as Hp. split; intros Hx.
  - assert (He : (exp (- x) <= 1)%R) by (apply exp_le_1; lra).
    apply (Rmult_le_reg_r (1 + exp (- x))); [lra|].
    unfold Rdiv at 2. rewrite Rmult_assoc, Rinv_l by lra. lra.
  - assert (He : (1 <= exp (- x))%R) by (apply exp_ge_1; lra).
    apply (Rmult_le_reg_r (1 + exp (- x))); [lra|].
    unfold Rdiv at 1. rewrite Rmult_assoc, Rinv_l by lra. lra.
Qed.

(** X20: [swish] ([x * sigmoid(x)]) keeps the shape of its argument, and an
    entry [x] becomes a value between [x / 2] and [x] when [x >= 0] and
    between [x / 2] and 0 when [x <= 0], the bounds included. *)
Theorem swish_bounds (t : T3 R) (b i j : nat) :
  match get3 t b i j with
  | Some x =>
      exists s, get3 (swish t) b i j = Some s /\
        (0 <= x -> x / 2 <= s <= x)%R /\ (x <= 0 -> x / 2 <= s <= 0)%R
  | None => get3 (swish t) b i j = None
  end.
Proof.
  unfold swish. rewrite get3_map3.
  destruct (get3 t b i j) as [x|]; simpl; [|reflexivity].
  exists (swish1 x). split; [reflexivity|]. unfold swish1.
  pose proof (sigmoid_range x) as [H0 H1].
  pose proof (sigmoid_half x) as [Hge Hle].
  split; intros Hx.
  - specialize (Hge Hx). nra.
  - specialize (Hle Hx). nra.
Qed.

(** ** The patch grid of [Embeddings.__init__] *)

(** X19: the patch grid [Embeddings.__init__] computes without a hybrid grid:
    a patch size of 0 raises [ZeroDivisionError]; otherwise the patches
    cover at most the image, all of it when the patch size divides the image
    size, and for a square image and patch the count is the square of
    [H / ph], the side the position-table resize recovers by its square
    root. *)
Theorem patch_geometry_plain (H W ph pw : nat) :
  ((ph = 0 \/ pw = 0) ->
   patch_geometry (H, W) None (ph, pw) = Raise ZeroDivisionError) /\
  (0 < ph -> 0 < pw ->
   exists n, patch_geometry (H, W) None (ph, pw) = Ok ((ph, pw), n, false) /\
     n * (ph * pw) <= H * W /\
     (H mod ph = 0 -> W mod pw = 0 -> n * (ph * pw) = H * W) /\
     (H = W -> ph = pw -> n = (H / ph) * (H / ph) /\ Nat.sqrt n = H / ph)).
Proof.
  unfold patch_geometry, floordiv. simpl. split.
  - intros [-> | ->]; simpl; [reflexivity|].
    destruct (Nat.eqb ph 0); reflexivity.
  - intros Hph Hpw.
    rewrite (proj2 (Nat.eqb_neq ph 0)), (proj2 (Nat.eqb_neq pw 0)) by lia. simpl.
    eexists. split; [reflexivity|].
    pose proof (Nat.Div0.div_mod H ph) as EH. pose proof (Nat.Div0.div_mod W pw) as EW.
    assert (LH : ph * (H / ph) <= H) by lia.
    assert (LW : pw * (W / pw) <= W) by lia.
    split; [|split].
    + replace (H / ph * (W / pw) * (ph * pw)) with ((ph * (H / ph)) * (pw * (W / pw))) by ring.
      apply Nat.mul_le_mono; assumption.
    + intros MH MW.
      replace (H / ph * (W / pw) * (ph * pw)) with ((ph * (H / ph)) * (pw * (W / pw))) by ring.
      rewrite MH in EH. rewrite MW in EW. rewrite Nat.add_0_r in EH, EW.
      rewrite <- EH, <- EW. reflexivity.
    + intros -> ->. split; [reflexivity|]. apply Nat.sqrt_square.
Qed.

Section MoreEmbeddings.
Context {rt : Runtime}.

(** the table a fresh model holds *)
Lemma Embeddings_init_table hidden img size rate channels backbone w b e n :
  patch_geometry img None size = Ok (size, n, false) ->
  Embeddings_init hidden img None size rate channels backbone w b = Ok e ->
  Embeddings.position_embeddings e
  = mk_nd [1; n + 1; hidden] (replicate ((n + 1) * hidden) 0%R) /\
  wf (Embeddings.position_embeddings e) /\
  Embeddings.hybrid e = false.
Proof.
  unfold Embeddings_init. intros ->. simpl. intros [= <-]. simpl.
  split; [reflexivity|]. split; [|reflexivity].
  unfold wf. simpl. rewrite length_replicate. lia.
Qed.

Lemma mapM_raises {A B} (f : A -> result B) (l : list A) (e0 : exn) :
  (forall x e, In x l -> f x = Raise e -> e = e0) ->
  (exists x, In x l /\ f x = Raise e0) ->
  mapM f l = Raise e0.
Proof.
  induction l as [|a l IH]; intros Hall [x [Hin Hx]]; [destruct Hin|].
  simpl. destruct (f a) as [y|e] eqn:Ha.
  - simpl. destruct Hin as [->|Hin]; [congruence|].
    rewrite IH; [reflexivity | | eauto].
    intros x' e' Hx'. apply Hall. right. exact Hx'.
  - simpl. f_equal. apply (Hall a); [left; reflexivity | exact Ha].
Qed.

Lemma broadcast_pure_raises {A B C} (f : A -> B -> C) xs ms e :
  broadcast (fun a b => Ok (f a b)) xs ms = Raise e -> e = RuntimeError.
Proof.
  unfold broadcast.
  assert (Hz : (if Nat.eqb (length ms) (length xs)
         then mapM (fun xm => Ok (f (fst xm) (snd xm))) (zip xs ms)
         else Raise RuntimeError) = Raise e -> e = RuntimeError).
  { destruct (Nat.eqb _ _); [|congruence].
    rewrite (mapM_pure (fun xm => f (fst xm) (snd xm))). discriminate. }
  destruct ms as [|m0 [|m1 ms]]; try exact Hz.
  rewrite (mapM_pure (fun x => f x m0)). discriminate.
Qed.

(** X17: [Embeddings.forward] raises [RuntimeError] when the image of a batch
    element gives patches, but not the [n - 1] of the position table (a
    table of more than one row, so neither side broadcasts): the model
    accepts images of the size it was built for only. *)
Theorem embeddings_forward_size_mismatch (e : Embeddings.t) (x : T4 R)
    (toks : T3 R) (xb : mat) (d0 n h hc : nat) :
  Embeddings.hybrid e = false ->
  patch_tokens (Embeddings.patch_weight e) (Embeddings.patch_bias e) x = Ok toks ->
  In xb toks -> xb <> [] ->
  shape (Embeddings.position_embeddings e) = [d0; n; h] ->
  shape (Embeddings.cls_token e) = [1; 1; hc] ->
  n <> 1 -> S (length xb) <> n ->
  Embeddings.forward e x = Raise RuntimeError.
Proof.
  intros Hh Hp Hin _ Hs Hc Hn1 Hne. unfold Embeddings.forward.
  rewrite Hh. simpl. rewrite Hp. simpl.
  rewrite (mapM_raises _ _ RuntimeError); [reflexivity | |].
  - intros y e' _ Hy. eapply broadcast_pure_raises. exact Hy.
  - exists (Embeddings.rows (Embeddings.cls_token e) ++ xb). split.
    + apply in_map. exact Hin.
    + unfold Embeddings.rows. rewrite Hs, Hc. simpl.
      assert (Hlen : forall (d : list R) k, length (chunks h k d) = k).
      { intros d k; revert d; induction k; intros d; simpl; auto. }
      unfold broadcast.
      destruct (chunks h n (data (Embeddings.position_embeddings e))) as [|m0 [|m1 ms]] eqn:E;
        pose proof (Hlen (data (Embeddings.position_embeddings e)) n) as L;
        rewrite E in L; simpl in L.
      * subst n. simpl. reflexivity.
      * congruence.
      * rewrite (proj2 (Nat.eqb_neq _ _)); [reflexivity|]. simpl. lia.
Qed.
(** X18: on a batch whose images give the [n] patches of the position table,
    all of the hidden width, [Embeddings.forward] returns, under its
    dropout, for every batch element the class token followed by the patch
    tokens, with the [k]-th row of the table added to the [k]-th of these
    [n + 1] rows: the entry [j] of row [k] is the sum of the two entries. *)
Theorem embeddings_forward_adds_positions (e : Embeddings.t) (x : T4 R)
    (toks : T3 R) (n h : nat) :
  Embeddings.hybrid e = false ->
  patch_tokens (Embeddings.patch_weight e) (Embeddings.patch_bias e) x = Ok toks ->
  Forall (fun xb => length xb = n /\ Forall (fun r => length r = h) xb) toks ->
  shape (Embeddings.position_embeddings e) = [1; S n; h] ->
  wf (Embeddings.position_embeddings e) ->
  shape (Embeddings.cls_token e) = [1; 1; h] ->
  wf (Embeddings.cls_token e) ->
  let pos := Embeddings.rows (Embeddings.position_embeddings e) in
  let cls := take h (data (Embeddings.cls_token e)) in
  length pos = S n /\ Forall (fun r => length r = h) (cls :: pos) /\
  exists emb,
    Embeddings.forward e x = Ok (Dropout3 (Embeddings.dropout_rate e) emb) /\
    emb = map (fun xb => zip_with (zip_with Rplus) (cls :: xb) pos) toks /\
    forall b xb k r q j v w,
      toks !! b = Some xb -> (cls :: xb) !! k = Some r -> pos !! k = Some q ->
      r !! j = Some v -> q !! j = Some w ->
      exists eb row,
        emb !! b = Some eb /\ length eb = S n /\
        eb !! k = Some row /\ length row = h /\ row !! j = Some (v + w)%R.
Proof.
  intros Hh Hp Hn Hs Hwp Hc Hwc pos cls.
  assert (Hlen : forall (d : list R) k, length (chunks h k d) = k).
  { intros d k; revert d; induction k; intros d; simpl; auto. }
  assert (Hpos : length pos = S n).
  { unfold pos, Embeddings.rows. rewrite Hs. apply Hlen. }
  assert (Hw : Forall (fun r => length r = h) (cls :: pos)).
  { constructor.
    - unfold cls. rewrite length_take. unfold wf in Hwc. rewrite Hc in Hwc.
      simpl in Hwc. lia.
    - unfold pos, Embeddings.rows. rewrite Hs. apply chunks_Forall_length.
      unfold wf in Hwp. rewrite Hs in Hwp. simpl in Hwp. lia. }
  split; [exact Hpos|]. split; [exact Hw|].
  exists (map (fun xb => zip_with (zip_with Rplus) (cls :: xb) pos) toks).
  split; [|split; [reflexivity|]].
  - unfold Embeddings.forward. rewrite Hh. simpl. rewrite Hp. simpl.
    assert (Hcls : Embeddings.rows (Embeddings.cls_token e) = [cls]).
    { unfold Embeddings.rows. rewrite Hc. reflexivity. }
    rewrite Hcls. fold pos.
    assert (Hm : mapM (fun xb => broadcast (fun r p => Ok (vadd r p)) xb pos)
                   (map (fun xb => [cls] ++ xb) toks)
                 = Ok (map (fun xb => zip_with (zip_with Rplus) (cls :: xb) pos) toks)).
    { clear Hp. induction Hn as [|xb toks [Hxb _] _ IH]; simpl; [reflexivity|].
      rewrite broadcast_pure_same_length by (simpl; lia).
      simpl. simpl in IH. rewrite IH. reflexivity. }
    rewrite Hm. reflexivity.
  - intros b xb k r q j v w Hb Hr Hq Hv Hw'.
    pose proof (Forall_lookup_1 _ _ _ _ Hn Hb) as [Hxb Hrows].
    exists (zip_with (zip_with Rplus) (cls :: xb) pos), (zip_with Rplus r q).
    split; [rewrite list_lookup_fmap, Hb; reflexivity|].
    split; [rewrite length_zip_with, Hpos; cbn [length]; rewrite Hxb; lia|].
    split; [apply lookup_zip_with_Some; eauto|].
    split.
    + rewrite length_zip_with.
      apply Forall_cons in Hw. destruct Hw as [Hcl Hps].
      assert (Hlr : length r = h).
      { destruct k as [|k]; simpl in Hr.
        - injection Hr as <-. exact Hcl.
        - exact (Forall_lookup_1 _ _ _ _ Hrows Hr). }
      assert (Hlq : length q = h) by exact (Forall_lookup_1 _ _ _ _ Hps Hq).
      lia.
    + apply lookup_zip_with_Some. eauto.
Qed.
End MoreEmbeddings.

(** ** What the import and the forward pass keep *)

(** breaking [(x <- m ;; k) = Ok y] and keeping the equations *)
Ltac inv_bind_eq H :=
  repeat (apply bind_Ok_inv in H;
          let E := fresh "E" in destruct H as (? & E & H)).

Section ShapeInvariant.
Context {rt : Runtime}.

Lemma copy_weight_shape (l l' : Linear.t) (src : ndarray) :
  Block.copy_weight l src = Ok l' ->
  shape (Linear.weight l') = shape (Linear.weight l) /\ Linear.bias l' = Linear.bias l.
Proof.
  unfold Block.copy_weight. intros H. inv_bind_eq H. injection H as <-.
  split; [apply (copy_shape _ _ _ E) | reflexivity].
Qed.

Lemma copy_bias_shape (l l' : Linear.t) (src : ndarray) :
  Block.copy_bias l src = Ok l' ->
  shape (Linear.bias l') = shape (Linear.bias l) /\ Linear.weight l' = Linear.weight l.
Proof.
  unfold Block.copy_bias. intros H. inv_bind_eq H. injection H as <-.
  split; [apply (copy_shape _ _ _ E) | reflexivity].
Qed.

Lemma load_head_shapes weights : preserves param_shapes (VisionTransformer.load_head weights).
Proof.
  intros s. unfold VisionTransformer.load_head.
  destruct (VisionTransformer.zero_head s).
  - reflexivity.
  - apply preserves_bindS; [|intros _]; apply preserves_update; intros s1 s2 H;
      inv_bind_eq H; injection H as <-; unfold param_shapes; simpl.
    + destruct (copy_weight_shape _ _ _ E2) as [-> ->]. reflexivity.
    + destruct (copy_bias_shape _ _ _ E2) as [-> ->]. reflexivity.
Qed.

Lemma load_embedding_shapes weights k conv get set :
  (forall vt a, shape a = shape (get (VisionTransformer.embeddings vt)) ->
     param_shapes (VisionTransformer.set_embeddings vt
                     (set (VisionTransformer.embeddings vt) a)) = param_shapes vt) ->
  preserves param_shapes (VisionTransformer.load_embedding weights k conv get set).
Proof.
  intros Hset. apply preserves_update. intros s s' H. inv_bind_eq H. injection H as <-.
  apply Hset. apply (copy_shape _ _ _ E1).
Qed.

Lemma load_encoder_norm_shapes weights :
  preserves param_shapes (VisionTransformer.load_encoder_norm weights).
Proof.
  unfold VisionTransformer.load_encoder_norm.
  apply preserves_bindS; [|intros _]; apply preserves_update; intros s1 s2 H;
    inv_bind_eq H; injection H as <-; unfold param_shapes; simpl;
    rewrite (copy_shape _ _ _ E1); reflexivity.
Qed.

Lemma load_posemb_shapes weights :
  preserves param_shapes (VisionTransformer.load_posemb weights).
Proof.
  unfold VisionTransformer.load_posemb.
  apply preserves_bindS; [apply preserves_lift|]. intros posemb.
  apply preserves_update. intros s s' H. inv_bind_eq H. injection H as <-.
  unfold param_shapes. simpl. rewrite (copy_shape _ _ _ E0). reflexivity.
Qed.

Lemma load_blocks_shapes weights :
  preserves param_shapes (VisionTransformer.load_blocks weights).
Proof.
  intros s. unfold VisionTransformer.load_blocks.
  destruct (Encoder.load_layers _ _ _). reflexivity.
Qed.

Lemma load_hybrid_shapes weights :
  preserves param_shapes (VisionTransformer.load_hybrid weights).
Proof.
  intros s. unfold VisionTransformer.load_hybrid.
  destruct (Embeddings.hybrid _); [|reflexivity].
  destruct (Embeddings.hybrid_model _); [|reflexivity].
  destruct (ResNetV2_load_from _ _). reflexivity.
Qed.

Lemma prefix_shapes weights :
  preserves param_shapes (VisionTransformer.load_head_and_embeddings weights).
Proof.
  unfold VisionTransformer.load_head_and_embeddings.
  apply preserves_bindS; [apply load_head_shapes | intros _].
  repeat (apply preserves_bindS;
          [apply load_embedding_shapes; intros vt a Ha; unfold param_shapes; simpl;
           rewrite Ha; reflexivity | intros _]).
  apply load_encoder_norm_shapes.
Qed.

Lemma load_from_shapes weights : preserves param_shapes (VisionTransformer.load_from weights).
Proof.
  unfold VisionTransformer.load_from.
  apply preserves_bindS; [apply prefix_shapes | intros _].
  apply preserves_bindS; [apply load_posemb_shapes | intros _].
  apply preserves_bindS; [apply load_blocks_shapes | intros _].
  apply load_hybrid_shapes.
Qed.

Lemma load_from_depth weights : preserves depth (VisionTransformer.load_from weights).
Proof.
  unfold VisionTransformer.load_from.
  apply preserves_bindS.
  { intros s. unfold depth. rewrite (prefix_layers weights s). reflexivity. }
  intros _. apply preserves_bindS.
  { intros s. unfold depth.
    rewrite (load_posemb_frame layers_of weights (fun _ _ => eq_refl) s). reflexivity. }
  intros _. apply preserves_bindS.
  { intros s. unfold depth, layers_of, VisionTransformer.load_blocks.
    pose proof (load_layers_length weights
                  (Encoder.layer (VisionTransformer.encoder s)) 0) as L.
    destruct (Encoder.load_layers _ _ _). simpl in *. exact L. }
  intros _ s. unfold depth, layers_of, VisionTransformer.load_hybrid.
  destruct (Embeddings.hybrid _); [|reflexivity].
  destruct (Embeddings.hybrid_model _); [|reflexivity].
  destruct (ResNetV2_load_from _ _). reflexivity.
Qed.

(** X14: for every checkpoint, whether [load_from] returns or raises, the
    shapes of the head, patch-embedding, class-token, position and
    encoder-norm parameters, the number of blocks and [num_classes] are
    those the model had before. *)
Theorem load_from_keeps_shapes (weights : weights_t) (vt : VisionTransformer.t) :
  param_shapes (snd (VisionTransformer.load_from weights vt)) = param_shapes vt /\
  length (layers_of (snd (VisionTransformer.load_from weights vt))) = length (layers_of vt) /\
  VisionTransformer.num_classes (snd (VisionTransformer.load_from weights vt))
  = VisionTransformer.num_classes vt.
Proof.
  split; [apply load_from_shapes|]. split; [apply (load_from_depth weights vt)|].
  assert (H : preserves VisionTransformer.num_classes (VisionTransformer.load_from weights)).
  { unfold VisionTransformer.load_from, VisionTransformer.load_head_and_embeddings.
    apply preserves_bindS; [|intros _].
    { apply preserves_bindS; [apply load_head_frame; reflexivity | intros _].
      repeat (apply preserves_bindS; [apply load_embedding_frame; reflexivity | intros _]).
      apply load_encoder_norm_frame. reflexivity. }
    apply preserves_bindS; [apply load_posemb_frame; reflexivity | intros _].
    apply preserves_bindS; [|intros _].
    - intros s. unfold VisionTransformer.load_blocks.
      destruct (Encoder.load_layers _ _ _). reflexivity.
    - intros s. unfold VisionTransformer.load_hybrid.
      destruct (Embeddings.hybrid _); [|reflexivity].
      destruct (Embeddings.hybrid_model _); [|reflexivity].
      destruct (ResNetV2_load_from _ _). reflexivity. }
  apply H.
Qed.
End ShapeInvariant.

Section MoreForward.
Context {rt : Runtime}.





End MoreForward.

(** ** Instances *)

Local Open Scope R_scope.

Lemma post_softmax_keeps_false_positions_witness :
  exists s v P p,
    Attention.project (rt := inference_runtime)
      (unit_attention true true 2 (Some [[[true; false]; [true; true]]]))
      [[[1]; [2]]] = Ok (s, v)
    /\ get4 (softmax (map4 Fin s)) 0 0 0 1 = Some p
    /\ Attention.forward_probs (rt := inference_runtime)
         (unit_attention true true 2 (Some [[[true; false]; [true; true]]]))
         [[[1]; [2]]] = Ok P
    /\ get4 P 0 0 0 1 = Some p.
Proof.
  do 4 eexists. split; [cbn; reflexivity|]. split; [cbn; reflexivity|].
  split; [cbn; reflexivity|].
  eapply (post_softmax_keeps_false_positions (rt := inference_runtime)
            (unit_attention true true 2 (Some [[[true; false]; [true; true]]]))
            [[[1]; [2]]] _ _ _ [[[true; false]; [true; true]]] 0 0 0 1 false).
  - reflexivity.
  - reflexivity.
  - reflexivity.
  - cbn. reflexivity.
  - cbn. reflexivity.
  - reflexivity.
  - cbn. reflexivity.
Defined.

Lemma fresh_pre_softmax_is_plain_witness :
  exists r,
    fst (Attention.forward (rt := inference_runtime)
           (unit_attention false false 2 None) [[[1]; [2]]]) = Ok r.
Proof.
  eexists.
  eapply (fresh_pre_softmax_is_plain (rt := inference_runtime)
            1 1 0 false false 2 [1] [0] [1] [0] [1] [0] [1] [0]
            (unit_attention true false 2 (Some [[[true; true]; [true; true]]]))
            (unit_attention false false 2 None) [[[1]; [2]]]).
  - reflexivity.
  - reflexivity.
  - cbn. reflexivity.
Defined.

Lemma pre_softmax_renormalises_witness :
  exists P prow,
    Attention.probabilities (rt := inference_runtime)
      (unit_attention true false 2 (Some [[[true; false]; [true; true]]]))
      [[[[1; 2]; [3; 4]]]] = Ok P
    /\ row4 P 0 0 0 = Some prow
    /\ forall j v, [true; false] !! j = Some true -> [1; 2] !! j = Some v ->
         prow !! j = Some (exp v / masked_sum [true; false] (map exp [1; 2])) /\
         exp v / Rsum (map exp [1; 2])
         <= exp v / masked_sum [true; false] (map exp [1; 2]).
Proof.
  destruct (pre_softmax_renormalises (rt := inference_runtime)
              (unit_attention true false 2 (Some [[[true; false]; [true; true]]]))
              [[[[1; 2]; [3; 4]]]]
              [[[[exp 1 / (exp 1 + (0 + 0)); 0 / (exp 1 + (0 + 0))];
                 [exp 3 / (exp 3 + (exp 4 + 0)); exp 4 / (exp 3 + (exp 4 + 0))]]]]
              [[[true; false]; [true; true]]] 0 0 0 [1; 2] [true; false])
    as (prow & Hrow & H).
  - reflexivity.
  - reflexivity.
  - reflexivity.
  - cbn. reflexivity.
  - reflexivity.
  - reflexivity.
  - reflexivity.
  - exists 0%nat. reflexivity.
  - eexists. exists prow. split; [cbn; reflexivity|]. split; [exact Hrow | exact H].
Defined.

Lemma plain_rows_are_distributions_witness :
  exists P prow,
    Attention.forward_probs (rt := inference_runtime)
      (unit_attention false false 2 None) [[[1]; [2]]] = Ok P
    /\ row4 P 0 0 1 = Some prow
    /\ Rsum prow = 1 /\ Forall (fun p => 0 <= p <= 1) prow.
Proof.
  do 2 eexists. split; [cbn; reflexivity|]. split; [reflexivity|].
  eapply (plain_rows_are_distributions (rt := inference_runtime)
            (unit_attention false false 2 None) [[[1]; [2]]] _ 0 0 1).
  - reflexivity.
  - cbn. reflexivity.
  - reflexivity.
  - discriminate.
Defined.


Lemma forward_recording_witness :
  snd (Attention.forward (rt := inference_runtime)
         (unit_attention false false 2 None) [[[1]; [2]]])
  = unit_attention false false 2 None
  /\ (exists P,
        Attention.forward_probs (rt := inference_runtime) two_head_attention
          [[[1; 2]; [3; 4]]] = Ok P
        /\ Attention.attention_probs
             (snd (Attention.forward two_head_attention [[[1; 2]; [3; 4]]])) = Some P
        /\ forall out w,
             fst (Attention.forward two_head_attention [[[1; 2]; [3; 4]]]) = Ok (out, w) ->
             w = Some P)
  /\ (exists p,
        Attention.forward_probs (rt := inference_runtime) (recording_attention 2)
          [[[1]]] = Ok [[[[0 * p; 0 * p]; [0 * p; 0 * p]]]]
        /\ fst (Attention.forward (recording_attention 2) [[[1]]]) = Raise RuntimeError
        /\ Attention.attention_probs
             (snd (Attention.forward (recording_attention 2) [[[1]]]))
           = Some [[[[0 * p; 0 * p]; [0 * p; 0 * p]]]]).
Proof.
  split; [|split].
  - apply (proj1 (forward_recording (rt := inference_runtime)
                    (unit_attention false false 2 None) [[[1]; [2]]]));
      reflexivity.
  - eexists. split; [cbn; reflexivity|].
    eapply (proj1 (proj2 (proj2 (forward_recording (rt := inference_runtime)
                                   two_head_attention [[[1; 2]; [3; 4]]])))).
    + reflexivity.
    + cbn. reflexivity.
  - eexists.
    assert (HP : Attention.forward_probs (rt := inference_runtime) (recording_attention 2)
                   [[[1]]] = Ok [[[[0 * ?[p]; 0 * ?p]; [0 * ?p; 0 * ?p]]]])
      by (cbn; reflexivity).
    split; [exact HP|]. split; [cbn; reflexivity|].
    exact (proj1 (proj1 (proj2 (proj2 (forward_recording (rt := inference_runtime)
                                          (recording_attention 2) [[[1]]])))
                   _ eq_refl HP)).
Defined.
Local Close Scope R_scope.

Local Open Scope R_scope.

Lemma dropped_block_init :
  Block.init (rt := inference_runtime) 1 true true (1 / 2) unit_norm unit_norm
    unit_sparse_norm unit_sparse_norm unit_mlp unit_dense2
    (unit_attention false false 2 None) unit_projections
  = Ok dropped_block.
Proof.
  unfold Block.init, StochasticDepth.init. simpl.
  destruct (Rlt_dec 0 (1 / 2)) as [|n]; [|exfalso; apply n; lra].
  destruct (Rlt_dec (1 / 2) 1) as [|n]; [|exfalso; apply n; lra].
  reflexivity.
Qed.

Lemma block_forward_layer_drop_witness :
  Block.forward dropped_block (1 / 4) [[[1]]] = Ok [[[1 + 1 + (1 + 1)]]]
  /\ Block.forward dropped_block (3 / 4) [[[1]]]
     = Ok [[[(1 + 1) * (1 - 1 / 2) + (1 + 1)]]].
Proof.
  destruct (block_forward_layer_drop (rt := inference_runtime) _ _ (1 / 4) _ _ _ _ _ _ _ _ _
              [[[1]]] dropped_block_init) as (_ & H1 & _).
  destruct (block_forward_layer_drop (rt := inference_runtime) _ _ (3 / 4) _ _ _ _ _ _ _ _ _
              [[[1]]] dropped_block_init) as (_ & _ & H2).
  split; [apply H1; lra | apply H2; lra].
Defined.

Lemma block_load_from_atomic_on_attention_witness :
  exists e,
    Block.load_from (rt := inference_runtime)
      (delete (pjoin "Transformer/encoderblock_0" ATTENTION_V "bias") block_checkpoint)
      "0" pruned_block
    = (Raise e, pruned_block).
Proof.
  apply (block_load_from_atomic_on_attention (rt := inference_runtime) pruned_block
           (delete (pjoin "Transformer/encoderblock_0" ATTENTION_V "bias") block_checkpoint)
           "0" ATTENTION_V).
  - simpl. tauto.
  - right. vm_compute. reflexivity.
Defined.

Lemma vit_load_from_plain_attention_raises_witness :
  exists e,
    fst (VisionTransformer.load_from (rt := inference_runtime) tiny_checkpoint
           (tiny_vit false 2 [plain_block])) = Raise e.
Proof.
  eapply (vit_load_from_plain_attention_raises (rt := inference_runtime) tiny_checkpoint
            (tiny_vit false 2 [plain_block])).
  reflexivity.
Defined.
Local Close Scope R_scope.

Lemma load_from_copies_equal_posemb_witness :
  posemb_of (snd (VisionTransformer.load_from (rt := inference_runtime) tiny_checkpoint
                    (tiny_vit false 2 [])))
  = mk_nd [1; 2; 1] [5%R; 7%R].
Proof.
  apply (load_from_copies_equal_posemb (rt := inference_runtime) tiny_checkpoint
           (tiny_vit false 2 [])
           (snd (VisionTransformer.load_head_and_embeddings tiny_checkpoint
                   (tiny_vit false 2 [])))
           (mk_nd [1; 2; 1] [5%R; 7%R])).
  - apply fst_Ok_pair, tiny_prefix.
  - reflexivity.
  - reflexivity.
  - reflexivity.
Defined.

Lemma gap_prefix n :
  fst (VisionTransformer.load_head_and_embeddings gap_checkpoint (gap_vit n)) = Ok tt.
Proof. vm_compute. reflexivity. Qed.

Lemma load_from_resizes_square_posemb_no_token_witness :
  posemb_of (snd (VisionTransformer.load_from (rt := inference_runtime) gap_checkpoint
                    (gap_vit 4)))
  = mk_nd [1; 4; 1] [5%R; 5%R; 5%R; 5%R].
Proof.
  pose proof (load_from_resizes_square_posemb_no_token (rt := inference_runtime)
                gap_checkpoint (gap_vit 4)
                (snd (VisionTransformer.load_head_and_embeddings gap_checkpoint (gap_vit 4)))
                (mk_nd [1; 1; 1] [5%R]) 1 2 1) as H.
  cbv zeta in H. rewrite H.
  - vm_compute. apply (f_equal (mk_nd _)).
    repeat (apply f_equal2; [lra|]). reflexivity.
  - apply fst_Ok_pair, gap_prefix.
  - discriminate.
  - reflexivity.
  - reflexivity.
  - reflexivity.
  - reflexivity.
  - lia.
  - lia.
  - lia.
  - reflexivity.
  - reflexivity.
Defined.

Lemma np2th_conv_is_HWIO_to_OIHW_witness :
  exists a',
    np2th (mk_nd [1; 2; 2; 1] [1%R; 2%R; 3%R; 4%R]) true = Ok a' /\
    shape a' = [1; 2; 1; 2] /\ wf a' /\
    forall co ci y x, co < 1 -> ci < 2 -> y < 1 -> x < 2 ->
      nth (((co * 2 + ci) * 1 + y) * 2 + x) (data a') 0%R
      = nth (((y * 2 + x) * 2 + ci) * 1 + co) [1%R; 2%R; 3%R; 4%R] 0%R.
Proof.
  apply (proj2 (proj2 (np2th_conv_is_HWIO_to_OIHW
                         (mk_nd [1; 2; 2; 1] [1%R; 2%R; 3%R; 4%R]))) 1 2 2 1).
  reflexivity.
Defined.


Lemma embeddings_forward_size_mismatch_witness :
  Embeddings.forward (rt := inference_runtime)
    (Transformer.embeddings (VisionTransformer.transformer (tiny_vit false 3 [])))
    one_pixel
  = Raise RuntimeError.
Proof.
  eapply (embeddings_forward_size_mismatch (rt := inference_runtime)
            (Transformer.embeddings (VisionTransformer.transformer (tiny_vit false 3 [])))
            one_pixel _ _ 1 3 1 1).
  - reflexivity.
  - cbn. reflexivity.
  - left. reflexivity.
  - discriminate.
  - reflexivity.
  - reflexivity.
  - lia.
  - simpl. lia.
Defined.

Lemma embeddings_forward_adds_positions_witness :
  let tok := (1 * 3 + (1 * 3 + (1 * 3 + 0)) + 4)%R in
  patch_tokens (Runtime := inference_runtime) (mk_nd [1; 3; 1; 1] [3%R; 3%R; 3%R])
    (mk_nd [1] [4%R]) one_pixel = Ok [[[tok]]] /\
  Embeddings.forward (rt := inference_runtime) loaded_embeddings one_pixel
  = Ok [[[(2 + 5)%R]; [(tok + 7)%R]]] /\
  exists emb eb row,
    Embeddings.forward (rt := inference_runtime) loaded_embeddings one_pixel = Ok emb /\
    emb !! 0 = Some eb /\ length eb = 2 /\
    eb !! 1 = Some row /\ length row = 1 /\ row !! 0 = Some (tok + 7)%R.
Proof.
  intros tok.
  assert (Hp : patch_tokens (Runtime := inference_runtime)
                 (mk_nd [1; 3; 1; 1] [3%R; 3%R; 3%R]) (mk_nd [1] [4%R]) one_pixel
               = Ok [[[tok]]]) by (cbn; reflexivity).
  split; [exact Hp|]. split; [cbn; reflexivity|].
  destruct (embeddings_forward_adds_positions (rt := inference_runtime)
              loaded_embeddings one_pixel [[[tok]]] 1 1 eq_refl Hp)
    as (_ & _ & emb & Hf & _ & Hent).
  - repeat constructor.
  - reflexivity.
  - reflexivity.
  - reflexivity.
  - reflexivity.
  - destruct (Hent 0 [[tok]] 1 [tok] [7%R] 0 tok 7%R eq_refl eq_refl eq_refl eq_refl eq_refl)
      as (eb & row & H1 & H2 & H3 & H4 & H5).
    exists emb, eb, row. repeat split; assumption.
Defined.

Lemma patch_geometry_plain_witness :
  exists n,
    patch_geometry (224, 224) None (16, 16) = Ok ((16, 16), n, false) /\
    n * (16 * 16) <= 224 * 224 /\
    (224 mod 16 = 0 -> 224 mod 16 = 0 -> n * (16 * 16) = 224 * 224) /\
    (224 = 224 -> 16 = 16 ->
     n = (224 / 16) * (224 / 16) /\ Nat.sqrt n = 224 / 16).
Proof.
  apply (proj2 (patch_geometry_plain 224 224 16 16)); lia.
Defined.

Lemma swish_bounds_witness :
  exists s s',
    get3 (swish [[[1%R; (-1)%R]]]) 0 0 0 = Some s /\ (1 / 2 <= s <= 1)%R /\
    get3 (swish [[[1%R; (-1)%R]]]) 0 0 1 = Some s' /\ (-1 / 2 <= s' <= 0)%R.
Proof.
  destruct (swish_bounds [[[1%R; (-1)%R]]] 0 0 0) as (s & Hs & Hpos & _).
  destruct (swish_bounds [[[1%R; (-1)%R]]] 0 0 1) as (s' & Hs' & _ & Hneg).
  exists s, s'. split; [exact Hs|]. split; [apply Hpos; lra|].
  split; [exact Hs'|]. lra.
Defined.
